(** * Domain assignment of the static scheduler (V3OrderProcessDomains.cpp)

    A shallow embedding of class [V3OrderProcessDomains]: the sensitivity
    trees live in a heap indexed by address, the ordering graph is an arena
    of vertices, and the member functions are state-passing functions whose
    result is either a value with the new state, a fatal assertion, or a
    crash on an invalid dereference. The UINFO logging and the dump of the
    graph, which change nothing, are left out. *)

From stdpp Require Import gmap strings list fin_maps sorting pretty.
From Stdlib Require Import ZArith Lia.

Local Open Scope Z_scope.

(** ** Results of fallible code *)

(** [Fatal msg] is a failed UASSERT or UASSERT_OBJ, or a v3fatal; [Crash]
    is the dereference of a pointer that addresses no object (nullptr, the
    delete sentinel, a dangling pointer). *)
Inductive Result (A : Type) : Type :=
  | Ok (a : A)
  | Fatal (msg : string)
  | Crash.
Arguments Ok {A} a.
Arguments Fatal {A} msg.
Arguments Crash {A}.

Definition M (St A : Type) : Type := St → Result (A * St).

Definition ret {St A} (a : A) : M St A := λ s, Ok (a, s).

Definition bind {St A B} (c : M St A) (k : A → M St B) : M St B :=
  λ s, match c s with
       | Ok (a, s') => k a s'
       | Fatal msg => Fatal msg
       | Crash => Crash
       end.

Definition fatal {St A} (msg : string) : M St A := λ _, Fatal msg.
Definition crash {St A} : M St A := λ _, Crash.

(** UASSERT(cond, msg); also UASSERT_OBJ(cond, obj, msg) where [obj] is an
    object outside the heap of sensitivity trees (the variable scope of a
    vertex, a vertex of the graph), which the report can read. *)
Definition UASSERT {St} (cond : bool) (msg : string) : M St unit :=
  if cond then ret tt else fatal msg.

Notation "x <- c ;; k" := (bind c (λ x, k))
  (at level 100, c at next level, right associativity).
Notation "c ;;; k" := (bind c (λ _, k))
  (at level 100, right associativity).

(** ** Sensitivity trees *)

(** Modelled from the spec: the edge kinds of a sensitivity item (VEdgeType
    is declared in V3Ast.h). *)
Inductive VEdgeType : Type :=
  | ET_BOTHEDGE | ET_POSEDGE | ET_NEGEDGE | ET_TRUE | ET_COMBO | ET_HYBRID.

(** Modelled from the spec: a sensitivity item is an edge kind paired with a
    signal reference (AstSenItem is declared in V3AstNodeOther.h). *)
Record AstSenItem : Type := mkSenItem {
  edgeType : VEdgeType;
  sensp : Z;
}.

Definition isCombo (i : AstSenItem) : bool :=
  match edgeType i with ET_COMBO => true | _ => false end.

(** Modelled from the spec: a sensitivity tree is an ordered collection of
    items with the is-multi flag; [backp] tells whether the tree is linked
    into the netlist, that is, whether it is one of the global (canonical)
    trees. *)
Record AstSenTree : Type := mkSenTree {
  backp : bool;
  sensesp : list AstSenItem;
  isMulti : bool;
}.

(** Modelled from the spec: the tree has a combinational term. *)
Definition hasCombo (t : AstSenTree) : bool := existsb isCombo (sensesp t).

Global Instance VEdgeType_eq_dec : EqDecision VEdgeType.
Proof. solve_decision. Defined.
Global Instance AstSenItem_eq_dec : EqDecision AstSenItem.
Proof. solve_decision. Defined.
Global Instance AstSenTree_eq_dec : EqDecision AstSenTree.
Proof. solve_decision. Defined.

(** ** Memory: the heap of sensitivity trees and the global tree finder *)

Definition nullptr : Z := 0.

(** AstSenTree* const m_deleteDomainp = reinterpret_cast<AstSenTree*>(1) *)
Definition m_deleteDomainp : Z := 1.

Record Mem : Type := mkMem {
  heap : gmap Z AstSenTree;
  m_finder : list Z;
}.

Definition set_heap (h : gmap Z AstSenTree) (m : Mem) : Mem :=
  {| heap := h; m_finder := m_finder m |}.

(** The address of a new object: none of nullptr, the sentinel address or
    the address of a live object. *)
Definition newp (h : gmap Z AstSenTree) : Z :=
  fresh ({[nullptr; m_deleteDomainp]} ∪ dom h).

(** [p->...]: read the object at [p]. *)
Definition deref (p : Z) : M Mem AstSenTree :=
  λ m, match heap m !! p with
       | Some t => Ok (t, m)
       | None => Crash
       end.

(** [*p = t]: write the object at [p]. *)
Definition store (p : Z) (t : AstSenTree) : M Mem unit :=
  λ m, Ok (tt, set_heap (<[p := t]> (heap m)) m).

(** new object holding [t] *)
Definition alloc (t : AstSenTree) : M Mem Z :=
  λ m, let p := newp (heap m) in Ok (p, set_heap (<[p := t]> (heap m)) m).

(** p->deleteTree() *)
Definition deleteTree (p : Z) : M Mem unit :=
  λ m, Ok (tt, set_heap (delete p (heap m)) m).

(** p->cloneTree(false): an unlinked copy of the tree *)
Definition cloneTree (t : AstSenTree) : M Mem Z :=
  alloc {| backp := false; sensesp := sensesp t; isMulti := isMulti t |}.

(** [senTreep->addSensesp(itemsp)]. The callers obtain [itemsp] by calling a
    member function on [bp->sensesp()], which is a null pointer when the
    tree has no item. *)
Definition addSensesp (senTreep : Z) (items : list AstSenItem) : M Mem unit :=
  match items with
  | [] => crash
  | _ => t <- deref senTreep ;;
         store senTreep {| backp := backp t;
                           sensesp := sensesp t ++ items;
                           isMulti := isMulti t |}
  end.

(** ** combineDomains *)

(** Modelled from the spec: the fatal invariant failure of an assertion on
    an object. UASSERT_OBJ (V3Error.h) reports its failure through the
    object it is given, [obj->v3fatalSrc(msg)]: a failing assertion reads
    [obj] before it stops the program. *)
Definition UASSERT_OBJ (cond : bool) (obj : Z) (msg : string) : M Mem unit :=
  if cond then ret tt else deref obj ;;; fatal msg.

Definition combineDomains (ap bp : Z) : M Mem Z :=
  if decide (ap = bp) then ret ap
  else if decide (ap = m_deleteDomainp) then ret bp
  else
    UASSERT_OBJ (bool_decide (bp ≠ m_deleteDomainp)) bp
                "'bp' Should not be delete domain" ;;;
    a <- deref ap ;;
    senTreep <- (if backp a then cloneTree a else ret ap) ;;
    b <- deref bp ;;
    if backp b then
      addSensesp senTreep (sensesp b) ;;;
      ret senTreep
    else
      addSensesp senTreep (sensesp b) ;;;
      deleteTree bp ;;;
      ret senTreep.

(** ** The global tree finder *)

(** Modelled from the spec: SenTreeFinder::getSenTree (V3SenTree.h) is a
    lookup-or-insert on the global trees, keyed by structural content: it
    returns the global tree whose items equal those of the argument, and
    when there is none it links a clone of the argument into the netlist. *)
Definition sameTree (h : gmap Z AstSenTree) (items : list AstSenItem) (p : Z) : bool :=
  match h !! p with
  | Some t => bool_decide (sensesp t = items)
  | None => false
  end.

Definition getSenTree (t : AstSenTree) : M Mem Z :=
  λ m, match List.find (sameTree (heap m) (sensesp t)) (m_finder m) with
       | Some p => Ok (p, m)
       | None =>
           let p := newp (heap m) in
           Ok (p, {| heap := <[p := {| backp := true;
                                       sensesp := sensesp t;
                                       isMulti := isMulti t |}]> (heap m);
                     m_finder := m_finder m ++ [p] |})
       end.

(** ** The ordering graph *)

Inductive VarKind : Type := VarStd | VarPre | VarPost | VarPord.

(** A vertex is an OrderLogicVertex, with its logic [nodep] and its hybrid
    sensitivity [hybridp] (null when there is none), or an OrderVarVertex
    of one of the four variable kinds, with its variable scope. *)
Inductive VertexKind : Type :=
  | OrderLogicVertex (nodep : Z) (hybridp : Z)
  | OrderVarVertex (k : VarKind) (vscp : Z).

(** An incoming edge: the slot of its source vertex and its weight. *)
Record V3GraphEdge : Type := mkEdge {
  fromp : nat;
  weight : Z;
}.

(** [domainMatters] is the value of the vertex's virtual method of that
    name, whose overrides are declared in V3OrderGraph.h. *)
Record OrderEitherVertex : Type := mkVertex {
  kind : VertexKind;
  domainMatters : bool;
  domainp : Z;
  inEdges : list V3GraphEdge;
}.

Definition set_domainp (d : Z) (v : OrderEitherVertex) : OrderEitherVertex :=
  {| kind := kind v; domainMatters := domainMatters v; domainp := d;
     inEdges := inEdges v |}.

Definition set_inEdges (es : list V3GraphEdge) (v : OrderEitherVertex) : OrderEitherVertex :=
  {| kind := kind v; domainMatters := domainMatters v; domainp := domainp v;
     inEdges := es |}.

Definition isLogic (v : OrderEitherVertex) : bool :=
  match kind v with OrderLogicVertex _ _ => true | OrderVarVertex _ _ => false end.

(** The graph is an arena of vertex slots, listed in the order of
    [m_graph.vertices()]; a vertex is identified by its slot, and the slot
    of a vertex that was unlinked and deleted is empty. *)
Abbreviation OrderGraph := (list (option OrderEitherVertex)).

Definition vertexAt (g : OrderGraph) (i : nat) : option OrderEitherVertex :=
  mjoin (g !! i).

(** The state of the pass: the memory, the graph, the logic vertices
    recorded for deletion, and [ast], the logic nodes that are linked in
    the netlist. *)
Record State : Type := mkState {
  mem : Mem;
  m_graph : OrderGraph;
  m_logicpsToDelete : list nat;
  ast : gset Z;
}.

Definition liftMem {A} (c : M Mem A) : M State A :=
  λ s, match c (mem s) with
       | Ok (a, m') => Ok (a, {| mem := m'; m_graph := m_graph s;
                                 m_logicpsToDelete := m_logicpsToDelete s;
                                 ast := ast s |})
       | Fatal msg => Fatal msg
       | Crash => Crash
       end.

Definition get {St} : M St St := λ s, Ok (s, s).
Definition modify {St} (f : St → St) : M St unit := λ s, Ok (tt, f s).

Fixpoint forEach {St A} (f : A → M St unit) (l : list A) : M St unit :=
  match l with
  | [] => ret tt
  | x :: l' => f x ;;; forEach f l'
  end.

(** ** A simplifier *)

Global Instance VEdgeType_countable : Countable VEdgeType.
Proof.
  refine (inj_countable'
            (λ e, match e with
                  | ET_BOTHEDGE => 0 | ET_POSEDGE => 1 | ET_NEGEDGE => 2
                  | ET_TRUE => 3 | ET_COMBO => 4 | ET_HYBRID => 5
                  end%nat)
            (λ n, match n with
                  | 0 => ET_BOTHEDGE | 1 => ET_POSEDGE | 2 => ET_NEGEDGE
                  | 3 => ET_TRUE | 4 => ET_COMBO | _ => ET_HYBRID
                  end%nat) _).
  by intros [].
Defined.

Global Instance AstSenItem_countable : Countable AstSenItem.
Proof.
  refine (inj_countable' (λ i, (edgeType i, sensp i))
                         (λ p, mkSenItem p.1 p.2) _).
  by intros [].
Defined.

(** A simplifier that normalises: it returns the items without duplicates,
    in the order of their set, whatever the order they are given in. *)
Definition constifySet (l : list AstSenItem) : list AstSenItem :=
  elements (list_to_set l : gset AstSenItem).


(** ** The scenarios *)

(** Three global trees: posedge of signal 100, negedge of signal 101 and a
    combinational term on signal 102. *)
Definition posedge_clk : AstSenTree :=
  {| backp := true; sensesp := [mkSenItem ET_POSEDGE 100]; isMulti := false |}.
Definition negedge_rst : AstSenTree :=
  {| backp := true; sensesp := [mkSenItem ET_NEGEDGE 101]; isMulti := false |}.
Definition combo_en : AstSenTree :=
  {| backp := true; sensesp := [mkSenItem ET_COMBO 102]; isMulti := false |}.

Definition exMem : Mem :=
  {| heap := <[8 := posedge_clk]> (<[16 := negedge_rst]> (<[24 := combo_en]> ∅));
     m_finder := [8; 16; 24] |}.

(** No variable has external domains. *)
Definition exExternal (vscp : Z) : list Z := [].

(** The variable 32 has the combinational tree as external domain. *)
Definition exExternalCombo (vscp : Z) : list Z :=
  if decide (vscp = 32) then [24] else [].

(** Slots 0 and 1: the variables S1 and S2, clocked. Slot 2: logic with the
    input S1. Slot 3: logic with the inputs S1 and S2. Slot 4: logic without
    input. Slot 5: logic with a cut edge from S1. Slot 6: a variable written
    by the logic of slot 4 only. *)
Definition exGraph : OrderGraph :=
  [ Some (mkVertex (OrderVarVertex VarStd 30) true 8 []);
    Some (mkVertex (OrderVarVertex VarStd 31) true 16 []);
    Some (mkVertex (OrderLogicVertex 50 nullptr) true nullptr [mkEdge 0 1]);
    Some (mkVertex (OrderLogicVertex 51 nullptr) true nullptr
                   [mkEdge 0 1; mkEdge 1 1]);
    Some (mkVertex (OrderLogicVertex 52 nullptr) true nullptr []);
    Some (mkVertex (OrderLogicVertex 53 nullptr) true nullptr [mkEdge 0 0]);
    Some (mkVertex (OrderVarVertex VarPost 32) false nullptr [mkEdge 4 1]) ].

Definition exState : State :=
  {| mem := exMem; m_graph := exGraph; m_logicpsToDelete := [];
     ast := {[50; 51; 52; 53]} |}.

(** A variable whose domain is the combinational tree, and logic that
    reads it. *)
Definition exComboGraph : OrderGraph :=
  [ Some (mkVertex (OrderVarVertex VarStd 32) true 24 []);
    Some (mkVertex (OrderLogicVertex 50 nullptr) true nullptr [mkEdge 0 1]) ].

Definition exComboState : State :=
  {| mem := exMem; m_graph := exComboGraph; m_logicpsToDelete := [];
     ast := {[50]} |}.

(** Stand-ins for the formatting helpers of the report. *)
Definition exHex (p : Z) : string := "0x" +:+ pretty p.
Definition exName (vscp : Z) : string := "top.v" +:+ pretty vscp.
Definition exItem (i : AstSenItem) : string :=
  match edgeType i with
  | ET_BOTHEDGE => "edge " | ET_POSEDGE => "posedge " | ET_NEGEDGE => "negedge "
  | ET_TRUE => "" | ET_COMBO => "* " | ET_HYBRID => "hybrid "
  end +:+ "s" +:+ pretty (sensp i).

(** The variable 32, clocked, with logic that reads it; with
    [exExternalCombo] the variable has the combinational tree as external
    domain. *)
Definition exExtGraph : OrderGraph :=
  [ Some (mkVertex (OrderVarVertex VarStd 32) true 8 []);
    Some (mkVertex (OrderLogicVertex 50 nullptr) true nullptr [mkEdge 0 1]) ].

Definition exExtState : State :=
  {| mem := exMem; m_graph := exExtGraph; m_logicpsToDelete := [];
     ast := {[50]} |}.

(** A graph whose variables have their domains: two clocked variables and
    one that is never triggered. *)
Definition exDoneGraph : OrderGraph :=
  [ Some (mkVertex (OrderVarVertex VarStd 31) true 16 []);
    Some (mkVertex (OrderVarVertex VarPost 32) false m_deleteDomainp []);
    Some (mkVertex (OrderVarVertex VarStd 30) true 8 []) ].

Definition exDoneState : State :=
  {| mem := exMem; m_graph := exDoneGraph; m_logicpsToDelete := [];
     ast := ∅ |}.

(** The memory after combineDomains has merged the two clocks: the
    intermediate tree is at the address 25. *)
Definition merged_clocks : AstSenTree :=
  {| backp := false;
     sensesp := [mkSenItem ET_POSEDGE 100; mkSenItem ET_NEGEDGE 101];
     isMulti := false |}.

Definition exMergedMem : Mem :=
  {| heap := <[25 := merged_clocks]> (heap exMem); m_finder := [8; 16; 24] |}.

(** A tree that is not linked into the netlist, at the address 40; logic
    that has it as hybrid sensitivity; and a variable that has it as
    domain, with logic that reads the variable. *)
Definition loose_tree : AstSenTree :=
  {| backp := false; sensesp := [mkSenItem ET_HYBRID 103]; isMulti := false |}.

Definition exLooseMem : Mem :=
  {| heap := <[40 := loose_tree]> (heap exMem); m_finder := [8; 16; 24] |}.

Definition exHybridState : State :=
  {| mem := exLooseMem;
     m_graph := [ Some (mkVertex (OrderLogicVertex 50 40) true nullptr []) ];
     m_logicpsToDelete := [];
     ast := {[50]} |}.

Definition exDriverState : State :=
  {| mem := exLooseMem;
     m_graph := [ Some (mkVertex (OrderVarVertex VarStd 30) true 40 []);
                  Some (mkVertex (OrderLogicVertex 50 nullptr) true nullptr
                                 [mkEdge 0 1]) ];
     m_logicpsToDelete := [];
     ast := {[50]} |}.

(** Stand-ins for the log file of the report: the tag of the pass, the
    name of a debug file, a file system that opens every file and one that
    opens none. *)
Definition exTag : string := "order".
Definition exDebugFilename (name : string) : string := "obj_dir/Vtop_" +:+ name.
Definition exOpens (filename : string) : bool := false.
Definition exFails (filename : string) : bool := true.



(** A graph that has the same variable vertex twice. *)
Definition exDupGraph : OrderGraph :=
  [ Some (mkVertex (OrderVarVertex VarStd 30) true 8 []);
    Some (mkVertex (OrderVarVertex VarStd 30) true 8 []) ].

Definition exDupState : State :=
  {| mem := exMem; m_graph := exDupGraph; m_logicpsToDelete := [];
     ast := ∅ |}.

Section Pass.

Set Default Proof Using "Type".

(** ** simplifyDomain *)

(** V3Const::constifyExpensiveEdit, restricted to what it does to the items
    of a sensitivity tree. It is defined in V3Const.cpp; the development
    is parametric in it. *)
Variable constifyExpensiveEdit : list AstSenItem → list AstSenItem.

Definition simplifyDomain (senTreep : Z) : M Mem Z :=
  t <- deref senTreep ;;
  if backp t then ret senTreep
  else
    let t1 := {| backp := backp t;
                 sensesp := constifyExpensiveEdit (sensesp t);
                 isMulti := isMulti t |} in
    store senTreep t1 ;;;
    let t2 := {| backp := backp t1; sensesp := sensesp t1; isMulti := true |} in
    store senTreep t2 ;;;
    resultp <- getSenTree t2 ;;
    deleteTree senTreep ;;;
    ret resultp.

(** ** processDomains *)

(** The function provided by the invoker of the ordering: the additional
    sensitivities of a variable scope. *)
Variable m_externalDomains : Z → list Z.

(** The loop over [externalDomainps], from the current [fromDomainp]. *)
Fixpoint externalLoop (externalDomainps : list Z) (fromDomainp : Z) : M Mem Z :=
  match externalDomainps with
  | [] => ret fromDomainp
  | externalDomainp :: rest =>
      e <- deref externalDomainp ;;
      UASSERT (negb (hasCombo e))
              "There should be no need for combinational domains" ;;;
      UASSERT (backp e) "External SenTree should have backp()" ;;;
      d <- combineDomains fromDomainp externalDomainp ;;
      externalLoop rest d
  end.

(** The two assertions on the domain of the source vertex. *)
Definition checkFromDomain (fromDomainp : Z) : M Mem unit :=
  if decide (fromDomainp = m_deleteDomainp) then ret tt
  else
    t <- deref fromDomainp ;;
    UASSERT (negb (hasCombo t))
            "There should be no need for combinational domains" ;;;
    UASSERT (backp t) "Driver SenTree should have backp".

(** One iteration of the loop over [vtxp->inEdges()]: [domainp0] is the
    working domain before the edge, the result is the one after it. *)
Definition processInEdge (g : OrderGraph) (edge : V3GraphEdge) (domainp0 : Z) : M Mem Z :=
  match vertexAt g (fromp edge) with
  | None => crash
  | Some fromVtxp =>
      if decide (weight edge = 0) then ret domainp0
      else if negb (domainMatters fromVtxp) then ret domainp0
      else
        checkFromDomain (domainp fromVtxp) ;;;
        fromDomainp <- match kind fromVtxp with
                       | OrderVarVertex _ vscp =>
                           externalLoop (m_externalDomains vscp) (domainp fromVtxp)
                       | OrderLogicVertex _ _ => ret (domainp fromVtxp)
                       end ;;
        if decide (fromDomainp = m_deleteDomainp) then ret domainp0
        else if decide (domainp0 = nullptr) then ret fromDomainp
        else combineDomains domainp0 fromDomainp
  end.

(** The loop over [vtxp->inEdges()], from the working domain [domainp0]. *)
Fixpoint inEdgesLoop (g : OrderGraph) (edges : list V3GraphEdge) (domainp0 : Z) : M Mem Z :=
  match edges with
  | [] => ret domainp0
  | edge :: rest =>
      d <- processInEdge g edge domainp0 ;;
      inEdgesLoop g rest d
  end.

(** The start of the working domain: the hybrid sensitivity of a logic
    vertex, which must be a global tree. *)
Definition hybridSeed (vtxp : OrderEitherVertex) : M Mem Z :=
  let domainp0 := match kind vtxp with
                  | OrderLogicVertex _ hybridp => hybridp
                  | OrderVarVertex _ _ => nullptr
                  end in
  if decide (domainp0 = nullptr) then ret domainp0
  else
    t <- deref domainp0 ;;
    UASSERT (backp t) "Hybrid senTree should have backp" ;;;
    ret domainp0.

(** The working domain of a vertex after the loop over its incoming edges. *)
Definition workingDomain (g : OrderGraph) (vtxp : OrderEitherVertex) : M Mem Z :=
  d <- hybridSeed vtxp ;;
  inEdgesLoop g (inEdges vtxp) d.

(** [vtxp->domainp(d)], after the push on [m_logicpsToDelete] when the
    vertex is dead logic. *)
Definition setDomain (i : nat) (vtxp : OrderEitherVertex) (d : Z) (dead : bool) : M State unit :=
  modify (λ s, {| mem := mem s;
                  m_graph := <[i := Some (set_domainp d vtxp)]> (m_graph s);
                  m_logicpsToDelete :=
                    if dead then m_logicpsToDelete s ++ [i] else m_logicpsToDelete s;
                  ast := ast s |}).

(** The body of the loop over the vertices, for the vertex in slot [i]. *)
Definition processVertex (i : nat) : M State unit :=
  s <- get ;;
  match vertexAt (m_graph s) i with
  | None => ret tt
  | Some vtxp =>
      if decide (domainp vtxp = nullptr) then
        d <- liftMem (workingDomain (m_graph s) vtxp) ;;
        if decide (d = nullptr) then
          setDomain i vtxp m_deleteDomainp (isLogic vtxp)
        else
          d' <- liftMem (simplifyDomain d) ;;
          setDomain i vtxp d' false
      else ret tt
  end.

(** The loop over [m_graph.vertices()]. *)
Definition processDomains : M State unit :=
  s <- get ;;
  forEach processVertex (seq 0 (length (m_graph s))).

(** ** processEdgeReport *)

(** The formatting helpers of the report, defined in other files:
    [cvtToHex] of a variable scope pointer, [AstVarScope::prettyName] and
    [V3EmitV::verilogForTree] of a sensitivity item. *)
Variable cvtToHex : Z → string.
Variable prettyName : Z → string.
Variable verilogForTree : AstSenItem → string.

Definition phaseTag (k : VarKind) : string :=
  match k with
  | VarStd => ""
  | VarPre => " {PRE}"
  | VarPost => " {POST}"
  | VarPord => " {PORD}"
  end.

Fixpoint spaces (n : nat) : string :=
  match n with
  | O => ""
  | S n' => " " +:+ spaces n'
  end.

(** [os << std::setw(w) << s] under [std::ios::left] *)
Definition setw_left (w : nat) (s : string) : string :=
  s +:+ spaces (w - String.length s).

(** The loop over the items of a tree, which writes " or " between them. *)
Fixpoint sensesText (items : list AstSenItem) : string :=
  match items with
  | [] => ""
  | [i] => verilogForTree i
  | i :: rest => verilogForTree i +:+ " or " +:+ sensesText rest
  end.

Definition linePrefix (k : VarKind) (vscp : Z) : string :=
  "  " +:+ cvtToHex vscp +:+ " "
       +:+ setw_left 50 (prettyName vscp +:+ phaseTag k) +:+ " ".

(** The line of one variable vertex. *)
Definition reportLine (k : VarKind) (vscp senTreep : Z) : M Mem string :=
  if decide (senTreep = m_deleteDomainp) then
    ret (linePrefix k vscp +:+ "DELETED")
  else
    t <- deref senTreep ;;
    ret (linePrefix k vscp +:+ sensesText (sensesp t)).

(** The loop over the vertices: the lines pushed on [report], in the order
    of the vertices. *)
Fixpoint reportOf (vs : list (option OrderEitherVertex)) : M Mem (list string) :=
  match vs with
  | [] => ret []
  | Some {| kind := OrderVarVertex k vscp; domainp := senTreep |} :: rest =>
      line <- reportLine k vscp senTreep ;;
      lines <- reportOf rest ;;
      ret (line :: lines)
  | _ :: rest => reportOf rest
  end.

(** [stable_sort(report.begin(), report.end())]: the order is that of
    [std::string], which is total, so the sorted sequence is unique. *)
Definition stable_sort (report : list string) : list string :=
  merge_sort String.le report.

(** The log file of the report, from other files: the tag of the pass
    ([m_tag]), the name that [v3Global.debugFilename] makes of a name, and
    whether the stream that [V3File::new_ofstream] opens for a name has
    failed. *)
Variable m_tag : string.
Variable debugFilename : string → string.
Variable new_ofstream_fails : string → bool.

Definition logFilename : string := debugFilename (m_tag +:+ "_order_edges.txt").

(** The lines written to the log file after the heading "Signals and their
    clock domains:"; a fatal error when the log file cannot be written. *)
Definition processEdgeReport : M State (list string) :=
  let filename := logFilename in
  if new_ofstream_fails filename then fatal ("Can't write file: " +:+ filename)
  else
    s <- get ;;
    report <- liftMem (reportOf (m_graph s)) ;;
    ret (stable_sort report).

(** ** The constructor: the pass, the report, the deletion of dead logic *)

(** [lVtxp->unlinkDelete(&m_graph)]: the vertex leaves the graph with its
    edges. *)
Definition unlinkDelete (i : nat) (g : OrderGraph) : OrderGraph :=
  fmap (M := option)
       (λ v, set_inEdges (filter (λ e, fromp e ≠ i) (inEdges v)) v)
    <$> <[i := None]> g.

(** The body of the loop over [m_logicpsToDelete]. *)
Definition deleteLogic (lVtxp : nat) : M State unit :=
  s <- get ;;
  match vertexAt (m_graph s) lVtxp with
  | Some {| kind := OrderLogicVertex nodep _; domainp := d |} =>
      UASSERT (bool_decide (d = m_deleteDomainp))
              "Should have been marked as deleted" ;;;
      modify (λ s, {| mem := mem s;
                      m_graph := unlinkDelete lVtxp (m_graph s);
                      m_logicpsToDelete := m_logicpsToDelete s;
                      ast := ast s ∖ {[nodep]} |})
  | _ => crash
  end.

(** The constructor on the netlist and graph it is given; [dumpLevel] tells
    whether the report is requested. It returns the report, if any. *)
Definition V3OrderProcessDomains (dumpLevel : bool) : M State (option (list string)) :=
  modify (λ s, {| mem := mem s; m_graph := m_graph s;
                  m_logicpsToDelete := []; ast := ast s |}) ;;;
  processDomains ;;;
  report <- (if dumpLevel then r <- processEdgeReport ;; ret (Some r)
             else ret None) ;;
  s <- get ;;
  forEach deleteLogic (m_logicpsToDelete s) ;;;
  ret report.

(** ** Vocabulary of the properties *)

(** [p] addresses a global (canonical) tree of the heap. *)
Definition canonical (h : gmap Z AstSenTree) (p : Z) : Prop :=
  ∃ t, h !! p = Some t ∧ backp t = true.

(** A real domain: neither unset nor the delete sentinel. *)
Definition realDomain (p : Z) : Prop := p ≠ nullptr ∧ p ≠ m_deleteDomainp.

(** How the memory evolves: every global tree of [m] is a global tree of
    [m'] with the same content; the finder of [m'] extends that of [m], by
    global trees of [m']; and an object of [m'] that [m] has not is at a
    real address. *)
Definition canon_le (m m' : Mem) : Prop :=
  (∀ p t, heap m !! p = Some t → backp t = true → heap m' !! p = Some t) ∧
  (∃ l, m_finder m' = m_finder m ++ l ∧ ∀ q, q ∈ l → canonical (heap m') q) ∧
  (∀ p, is_Some (heap m' !! p) → is_Some (heap m !! p) ∨ realDomain p).

(** A well-formed memory: no object at the null or the sentinel address,
    and the finder holds global trees. *)
Definition mem_wf (m : Mem) : Prop :=
  heap m !! nullptr = None ∧ heap m !! m_deleteDomainp = None ∧
  ∀ q, q ∈ m_finder m → canonical (heap m) q.

(** The state after the pass has assigned [d] to the vertex [v] of slot
    [i], in memory [m]; [dead] tells whether the vertex was recorded as
    dead logic. *)
Definition withDomain (i : nat) (v : OrderEitherVertex) (d : Z) (dead : bool)
    (m : Mem) (s : State) : State :=
  {| mem := m;
     m_graph := <[i := Some (set_domainp d v)]> (m_graph s);
     m_logicpsToDelete :=
       if dead then m_logicpsToDelete s ++ [i] else m_logicpsToDelete s;
     ast := ast s |}.

(** What a vertex keeps while the pass runs: everything but a domain that
    was unset. *)
Definition vertex_le (v v' : OrderEitherVertex) : Prop :=
  kind v' = kind v ∧ domainMatters v' = domainMatters v ∧
  inEdges v' = inEdges v ∧ (domainp v ≠ nullptr → domainp v' = domainp v).

Definition graph_le (g g' : OrderGraph) : Prop :=
  length g' = length g ∧
  ∀ j, match vertexAt g j with
       | None => vertexAt g' j = None
       | Some v => ∃ v', vertexAt g' j = Some v' ∧ vertex_le v v'
       end.

(** The domain field of every vertex is unset, the sentinel or a global
    tree, in a well-formed memory. *)
Definition state_wf (s : State) : Prop :=
  mem_wf (mem s) ∧
  ∀ j v, vertexAt (m_graph s) j = Some v →
         domainp v = nullptr ∨ domainp v = m_deleteDomainp ∨
         canonical (heap (mem s)) (domainp v).

(** The recorded dead logic: distinct logic vertices of the graph whose
    domain is the sentinel. *)
Definition recorded_ok (s : State) : Prop :=
  NoDup (m_logicpsToDelete s) ∧
  ∀ i, i ∈ m_logicpsToDelete s →
       ∃ v, vertexAt (m_graph s) i = Some v ∧ isLogic v = true ∧
            domainp v = m_deleteDomainp.

(** How the state evolves along the loop over the vertices. *)
Definition pass_le (s s' : State) : Prop :=
  graph_le (m_graph s) (m_graph s') ∧ ast s' = ast s ∧
  canon_le (mem s) (mem s') ∧
  (∃ l, m_logicpsToDelete s' = m_logicpsToDelete s ++ l) ∧
  (state_wf s → state_wf s') ∧ (recorded_ok s → recorded_ok s').

(** An incoming edge that the loop passes over: a cut edge, an edge from a
    vertex whose domain does not matter, or an edge from a vertex that is
    never triggered, not even externally. *)
Definition contributesNothing (g : OrderGraph) (e : V3GraphEdge) : Prop :=
  ∃ fv, vertexAt g (fromp e) = Some fv ∧
        (weight e = 0 ∨ domainMatters fv = false ∨
         (domainp fv = m_deleteDomainp ∧
          match kind fv with
          | OrderVarVertex _ vscp => m_externalDomains vscp = []
          | OrderLogicVertex _ _ => True
          end)).

(** The vertex has no hybrid sensitivity. *)
Definition noHybrid (v : OrderEitherVertex) : Prop :=
  match kind v with
  | OrderLogicVertex _ hybridp => hybridp = nullptr
  | OrderVarVertex _ _ => True
  end.

(** The vertex is not a variable with external domains. *)
Definition noExternal (v : OrderEitherVertex) : Prop :=
  match kind v with
  | OrderVarVertex _ vscp => m_externalDomains vscp = []
  | OrderLogicVertex _ _ => True
  end.

(** The constructor starts with no recorded dead logic. *)
Definition resetState (s : State) : State :=
  {| mem := mem s; m_graph := m_graph s; m_logicpsToDelete := [];
     ast := ast s |}.

(** The graph with one more incoming edge [e], at position [k] of the
    incoming edges of the vertex of slot [t]. *)
Definition insertEdge (k : nat) (e : V3GraphEdge) (v : OrderEitherVertex) : OrderEitherVertex :=
  set_inEdges (take k (inEdges v) ++ e :: drop k (inEdges v)) v.

Definition addInEdge (t k : nat) (e : V3GraphEdge) (g : OrderGraph) : OrderGraph :=
  alter (fmap (M := option) (insertEdge k e)) t g.

Definition withEdge (t k : nat) (e : V3GraphEdge) (s : State) : State :=
  {| mem := mem s; m_graph := addInEdge t k e (m_graph s);
     m_logicpsToDelete := m_logicpsToDelete s; ast := ast s |}.

Definition mapState {St A} (f : St → St) (r : Result (A * St)) : Result (A * St) :=
  match r with
  | Ok (a, s) => Ok (a, f s)
  | Fatal msg => Fatal msg
  | Crash => Crash
  end.

(** The domain field of the vertex of slot [j], if there is one. *)
Definition domainOf (s : State) (j : nat) : option Z :=
  domainp <$> vertexAt (m_graph s) j.

(** The number of iterations of the loop over the vertices [l], from the
    state [s], that change the domain field of the vertex of slot [j]. *)
Fixpoint writes (j : nat) (l : list nat) (s : State) : nat :=
  match l with
  | [] => 0
  | i :: l' =>
      match processVertex i s with
      | Ok (_, s') =>
          ((if decide (domainOf s' j = domainOf s j) then 0 else 1)
           + writes j l' s')%nat
      | _ => 0%nat
      end
  end.

(** What the report reads of a slot: the kind, the variable scope and the
    domain of a variable vertex. *)
Definition slotKey (x : option OrderEitherVertex) : option (VarKind * Z * Z) :=
  match x with
  | Some v => match kind v with
              | OrderVarVertex k vscp => Some (k, vscp, domainp v)
              | OrderLogicVertex _ _ => None
              end
  | None => None
  end.


(** ** Vocabulary of the further properties *)

(** The items of the tree at [p]; none when [p] addresses no object. *)
Definition itemsAt (h : gmap Z AstSenTree) (p : Z) : list AstSenItem :=
  match h !! p with
  | Some t => sensesp t
  | None => []
  end.

(** The hybrid sensitivity of a vertex, null when it has none. *)
Definition hybridOf (v : OrderEitherVertex) : Z :=
  match kind v with
  | OrderLogicVertex _ hybridp => hybridp
  | OrderVarVertex _ _ => nullptr
  end.

(** The items that an incoming edge brings: those of the domain of its
    source and of the external domains of a source variable, and none for
    an edge that is cut or whose source does not matter. *)
Definition edgeItems (h : gmap Z AstSenTree) (g : OrderGraph) (e : V3GraphEdge)
    : list AstSenItem :=
  match vertexAt g (fromp e) with
  | None => []
  | Some fv =>
      if decide (weight e = 0) then []
      else if negb (domainMatters fv) then []
      else itemsAt h (domainp fv)
           ++ match kind fv with
              | OrderVarVertex _ vscp =>
                  concat (itemsAt h <$> m_externalDomains vscp)
              | OrderLogicVertex _ _ => []
              end
  end.

(** The items of the inputs of a vertex. *)
Definition inputItems (h : gmap Z AstSenTree) (g : OrderGraph) (v : OrderEitherVertex)
    : list AstSenItem :=
  itemsAt h (hybridOf v) ++ concat (edgeItems h g <$> inEdges v).

(** Every tree of the heap is a global tree. *)
Definition all_canonical (h : gmap Z AstSenTree) : Prop :=
  ∀ p t, h !! p = Some t → backp t = true.

(** A domain that the loop over the incoming edges takes as input: a global
    tree with items and without combinational term. *)
Definition goodDomain (h : gmap Z AstSenTree) (p : Z) : Prop :=
  ∃ t, h !! p = Some t ∧ backp t = true ∧ hasCombo t = false ∧ sensesp t ≠ [].

(** An incoming edge that the loop can process: its source is a vertex of
    the graph and, unless the edge is passed over, the domain of the source
    is the sentinel or a good domain, and so are the external domains of a
    source variable. *)
Definition edge_ok (h : gmap Z AstSenTree) (g : OrderGraph) (e : V3GraphEdge) : Prop :=
  ∃ fv, vertexAt g (fromp e) = Some fv ∧
        (weight e = 0 ∨ domainMatters fv = false ∨
         ((domainp fv = m_deleteDomainp ∨ goodDomain h (domainp fv)) ∧
          match kind fv with
          | OrderVarVertex _ vscp => Forall (goodDomain h) (m_externalDomains vscp)
          | OrderLogicVertex _ _ => True
          end)).

(** A vertex that the loop body can process: its hybrid sensitivity, if
    any, is a global tree, and its incoming edges can be processed. *)
Definition inputs_ok (h : gmap Z AstSenTree) (g : OrderGraph) (v : OrderEitherVertex) : Prop :=
  (hybridOf v = nullptr ∨ canonical h (hybridOf v)) ∧
  Forall (edge_ok h g) (inEdges v).

(** The domains that the graph comes with are the sentinel or good
    domains. *)
Definition domains_good (h : gmap Z AstSenTree) (g : OrderGraph) : Prop :=
  ∀ j v, vertexAt g j = Some v →
         domainp v = nullptr ∨ domainp v = m_deleteDomainp ∨
         goodDomain h (domainp v).

(** The graph is in the order that the pass expects: a vertex without
    domain has a good domain as hybrid sensitivity, if it has one, and the
    source of each of its incoming edges that is not passed over comes
    with a domain or comes before the vertex, and has good domains as
    external domains. *)
Definition inputs_ordered (h : gmap Z AstSenTree) (g : OrderGraph) : Prop :=
  ∀ i v, vertexAt g i = Some v → domainp v = nullptr →
    (hybridOf v = nullptr ∨ goodDomain h (hybridOf v)) ∧
    Forall (λ e, ∃ fv, vertexAt g (fromp e) = Some fv ∧
                  (weight e = 0 ∨ domainMatters fv = false ∨
                   ((domainp fv ≠ nullptr ∨ (fromp e < i)%nat) ∧
                    match kind fv with
                    | OrderVarVertex _ vscp =>
                        Forall (goodDomain h) (m_externalDomains vscp)
                    | OrderLogicVertex _ _ => True
                    end)))
           (inEdges v).

(** The simplifier keeps a tree without combinational term such a tree,
    and a tree with items a tree with items. *)
Definition simplifier_keeps_good : Prop :=
  ∀ l, l ≠ [] → (∀ x, x ∈ l → isCombo x = false) →
       constifyExpensiveEdit l ≠ [] ∧
       ∀ x, x ∈ constifyExpensiveEdit l → isCombo x = false.

(** Every edge of the graph comes from a vertex of the graph. *)
Definition edges_closed (g : OrderGraph) : Prop :=
  ∀ j v e, vertexAt g j = Some v → e ∈ inEdges v →
           is_Some (vertexAt g (fromp e)).

(** The two memories have the same global trees, with the same content. *)
Definition same_canon (m m' : Mem) : Prop :=
  ∀ q t, backp t = true → heap m' !! q = Some t ↔ heap m !! q = Some t.

(** The working domain of the loop over the incoming edges is unset or
    addresses a tree. *)
Definition liveOrNull (m : Mem) (d : Z) : Prop :=
  d = nullptr ∨ is_Some (heap m !! d).

(** What a run of the loop over the incoming edges has checked of an edge:
    its source is a vertex of the graph and, unless the edge is passed
    over, the domain of the source is the sentinel or a global tree, and
    the external domains of a source variable are global trees. *)
Definition edge_settled (h : gmap Z AstSenTree) (g : OrderGraph) (e : V3GraphEdge) : Prop :=
  ∃ fv, vertexAt g (fromp e) = Some fv ∧
        (weight e = 0 ∨ domainMatters fv = false ∨
         ((domainp fv = m_deleteDomainp ∨ canonical h (domainp fv)) ∧
          match kind fv with
          | OrderVarVertex _ vscp => Forall (canonical h) (m_externalDomains vscp)
          | OrderLogicVertex _ _ => True
          end)).

(** The same of a vertex: its hybrid sensitivity, if any, is a global tree,
    and its incoming edges are settled. *)
Definition vertex_settled (h : gmap Z AstSenTree) (g : OrderGraph) (v : OrderEitherVertex) : Prop :=
  (hybridOf v = nullptr ∨ canonical h (hybridOf v)) ∧
  Forall (edge_settled h g) (inEdges v).

(** The messages of the assertions of processDomains on what it is given:
    on the hybrid sensitivity of a vertex, on the domain of the source of
    an edge and on the external domains of a source variable. *)
Definition inputAssertion (msg : string) : Prop :=
  msg = "Hybrid senTree should have backp" ∨
  msg = "There should be no need for combinational domains" ∨
  msg = "Driver SenTree should have backp" ∨
  msg = "External SenTree should have backp()".

(** ** The debug output of processDomains *)

(** debugDomain: the text that describes a domain. *)
Definition debugDomain (domainp : Z) : M Mem string :=
  if decide (domainp = m_deleteDomainp) then ret (cvtToHex domainp +:+ " [DEL]")
  else
    t <- deref domainp ;;
    ret (cvtToHex domainp
         +:+ (if hasCombo t then " [COMB]"
              else if isMulti t then " [MULT]"
              else "")).

(** [UINFO(level, ... << debugDomain(p) << ...)]: the message is built when
    the debug level reaches [level]; what is printed is no part of the
    state. *)
Definition UINFO (debug level : nat) (msg : M Mem string) : M Mem unit :=
  if (level <=? debug)%nat then msg ;;; ret tt else ret tt.

(** The functions of the pass, with their debug output at the debug level
    [debug]. *)
Fixpoint externalLoop_debug (debug : nat) (externalDomainps : list Z)
    (fromDomainp : Z) : M Mem Z :=
  match externalDomainps with
  | [] => ret fromDomainp
  | externalDomainp :: rest =>
      UINFO debug 6 (debugDomain externalDomainp) ;;;
      e <- deref externalDomainp ;;
      UASSERT (negb (hasCombo e))
              "There should be no need for combinational domains" ;;;
      UASSERT (backp e) "External SenTree should have backp()" ;;;
      d <- combineDomains fromDomainp externalDomainp ;;
      externalLoop_debug debug rest d
  end.

Definition checkFromDomain_debug (debug : nat) (fromDomainp : Z) : M Mem unit :=
  UINFO debug 6 (debugDomain fromDomainp) ;;;
  if decide (fromDomainp = m_deleteDomainp) then ret tt
  else
    t <- deref fromDomainp ;;
    UASSERT (negb (hasCombo t))
            "There should be no need for combinational domains" ;;;
    UASSERT (backp t) "Driver SenTree should have backp".

Definition processInEdge_debug (debug : nat) (g : OrderGraph) (edge : V3GraphEdge)
    (domainp0 : Z) : M Mem Z :=
  match vertexAt g (fromp edge) with
  | None => crash
  | Some fromVtxp =>
      if decide (weight edge = 0) then ret domainp0
      else if negb (domainMatters fromVtxp) then ret domainp0
      else
        checkFromDomain_debug debug (domainp fromVtxp) ;;;
        fromDomainp <- match kind fromVtxp with
                       | OrderVarVertex _ vscp =>
                           externalLoop_debug debug (m_externalDomains vscp)
                                              (domainp fromVtxp)
                       | OrderLogicVertex _ _ => ret (domainp fromVtxp)
                       end ;;
        if decide (fromDomainp = m_deleteDomainp) then ret domainp0
        else if decide (domainp0 = nullptr) then ret fromDomainp
        else combineDomains domainp0 fromDomainp
  end.

Fixpoint inEdgesLoop_debug (debug : nat) (g : OrderGraph) (edges : list V3GraphEdge)
    (domainp0 : Z) : M Mem Z :=
  match edges with
  | [] => ret domainp0
  | edge :: rest =>
      d <- processInEdge_debug debug g edge domainp0 ;;
      inEdgesLoop_debug debug g rest d
  end.

Definition hybridSeed_debug (debug : nat) (vtxp : OrderEitherVertex) : M Mem Z :=
  let domainp0 := match kind vtxp with
                  | OrderLogicVertex _ hybridp => hybridp
                  | OrderVarVertex _ _ => nullptr
                  end in
  if decide (domainp0 = nullptr) then ret domainp0
  else
    UINFO debug 6 (debugDomain domainp0) ;;;
    t <- deref domainp0 ;;
    UASSERT (backp t) "Hybrid senTree should have backp" ;;;
    ret domainp0.

Definition workingDomain_debug (debug : nat) (g : OrderGraph)
    (vtxp : OrderEitherVertex) : M Mem Z :=
  d <- hybridSeed_debug debug vtxp ;;
  inEdgesLoop_debug debug g (inEdges vtxp) d.

Definition processVertex_debug (debug : nat) (i : nat) : M State unit :=
  s <- get ;;
  match vertexAt (m_graph s) i with
  | None => ret tt
  | Some vtxp =>
      if decide (domainp vtxp = nullptr) then
        d <- liftMem (workingDomain_debug debug (m_graph s) vtxp) ;;
        if decide (d = nullptr) then
          setDomain i vtxp m_deleteDomainp (isLogic vtxp) ;;;
          liftMem (UINFO debug 5 (debugDomain m_deleteDomainp))
        else
          d' <- liftMem (simplifyDomain d) ;;
          setDomain i vtxp d' false ;;;
          liftMem (UINFO debug 5 (debugDomain d'))
      else ret tt
  end.

Definition processDomains_debug (debug : nat) : M State unit :=
  s <- get ;;
  forEach (processVertex_debug debug) (seq 0 (length (m_graph s))).

(** Every tree of the heap has items. *)
Definition all_items (h : gmap Z AstSenTree) : Prop :=
  ∀ p t, h !! p = Some t → sensesp t ≠ [].

(** The simplifier returns items when it is given items. *)
Definition simplifier_keeps_items : Prop :=
  ∀ l, l ≠ [] → constifyExpensiveEdit l ≠ [].
(** * Properties *)

#[local] Arguments vertexAt : simpl never.
#[local] Arguments canonical : simpl never.

(** ** Fresh addresses *)

Lemma newp_fresh (h : gmap Z AstSenTree) : h !! newp h = None.
Proof.
  apply not_elem_of_dom. intros Hin.
  apply (is_fresh ({[nullptr; m_deleteDomainp]} ∪ dom h)).
  fold (newp h). apply elem_of_union. by right.
Qed.

Lemma newp_not_null (h : gmap Z AstSenTree) : newp h ≠ nullptr.
Proof.
  intros Heq.
  apply (is_fresh ({[nullptr; m_deleteDomainp]} ∪ dom h)).
  fold (newp h). rewrite Heq. apply elem_of_union. left.
  apply elem_of_union. left. by apply elem_of_singleton.
Qed.

Lemma newp_not_sentinel (h : gmap Z AstSenTree) : newp h ≠ m_deleteDomainp.
Proof.
  intros Heq.
  apply (is_fresh ({[nullptr; m_deleteDomainp]} ∪ dom h)).
  fold (newp h). rewrite Heq. apply elem_of_union. left.
  apply elem_of_union. right. by apply elem_of_singleton.
Qed.

(** ** The monad *)

Lemma bind_Ok {St A B} (c : M St A) (k : A → M St B) s r :
  bind c k s = Ok r ↔ ∃ a s', c s = Ok (a, s') ∧ k a s' = Ok r.
Proof.
  unfold bind. split.
  - destruct (c s) as [[a s']| |]; [eauto | done | done].
  - intros (a & s' & -> & Hk). done.
Qed.

Ltac inv_bind H :=
  let a := fresh "a" in
  let s := fresh "m" in
  let H1 := fresh "Hc" in
  let H2 := fresh "Hk" in
  apply bind_Ok in H; destruct H as (a & s & H1 & H2); rename H2 into H.

Lemma UASSERT_Ok {St} (b : bool) msg (s : St) r :
  UASSERT b msg s = Ok r ↔ b = true ∧ r = (tt, s).
Proof.
  unfold UASSERT, ret, fatal. destruct b; split; try done.
  - intros [= <-]. done.
  - intros [_ ->]. done.
  - intros [? _]. done.
Qed.

Lemma deref_Ok p m t m' :
  deref p m = Ok (t, m') ↔ heap m !! p = Some t ∧ m' = m.
Proof.
  unfold deref. destruct (heap m !! p); split; try done.
  - intros [= -> ->]. done.
  - intros [[= ->] ->]. done.
  - intros [? _]. done.
Qed.

(** ** combineDomains *)

Lemma addSensesp_Ok p items m r :
  addSensesp p items m = Ok r →
  ∃ t, items ≠ [] ∧ heap m !! p = Some t ∧
       r = (tt, set_heap (<[p := {| backp := backp t;
                                    sensesp := sensesp t ++ items;
                                    isMulti := isMulti t |}]> (heap m)) m).
Proof.
  destruct items as [|i items]; [done|]. cbn. intros H.
  inv_bind H. apply deref_Ok in Hc as [Ht ->].
  unfold store in H. injection H as <-. eauto.
Qed.

(** combineDomains by cases on its arguments: the assertion on [bp] fails
    exactly when [bp] is the sentinel, and then reads it. *)
Lemma combineDomains_eq ap bp m :
  combineDomains ap bp m
  = (if decide (ap = bp) then ret ap
     else if decide (ap = m_deleteDomainp) then ret bp
     else if decide (bp = m_deleteDomainp)
          then (deref bp ;;; fatal "'bp' Should not be delete domain")
     else
       a <- deref ap ;;
       senTreep <- (if backp a then cloneTree a else ret ap) ;;
       b <- deref bp ;;
       if backp b then
         addSensesp senTreep (sensesp b) ;;;
         ret senTreep
       else
         addSensesp senTreep (sensesp b) ;;;
         deleteTree bp ;;;
         ret senTreep) m.
Proof.
  unfold combineDomains, UASSERT_OBJ.
  case_decide; [done|]. case_decide; [done|].
  case_bool_decide; case_decide; try done.
  unfold bind, deref, fatal. by destruct (heap m !! bp).
Qed.

Lemma assert_obj_Ok {A} p msg m (r : A * Mem) :
  (deref p ;;; fatal msg) m ≠ Ok r.
Proof. unfold bind, deref, fatal. by destruct (heap m !! p). Qed.

(** The pointer that combineDomains returns is one of its arguments or the
    address of a new object. *)
Lemma combineDomains_result ap bp m r m' :
  combineDomains ap bp m = Ok (r, m') →
  r = ap ∨ (r = bp ∧ ap = m_deleteDomainp) ∨ r = newp (heap m).
Proof.
  rewrite combineDomains_eq. repeat case_decide.
  - intros [= <- _]. auto.
  - intros [= <- _]. auto.
  - intros Hr. by apply assert_obj_Ok in Hr.
  - intros Hr. inv_bind Hr. apply deref_Ok in Hc as [Ha ->].
    inv_bind Hr.
    assert (a0 = ap ∨ a0 = newp (heap m)) as Hsen.
    { destruct (backp a).
      - unfold cloneTree, alloc in Hc. injection Hc as <- _. auto.
      - unfold ret in Hc. injection Hc as <- _. auto. }
    clear Hc. inv_bind Hr. clear Hc. destruct (backp a1).
    + inv_bind Hr. unfold ret in Hr. injection Hr as <- _.
      destruct Hsen; auto.
    + inv_bind Hr. inv_bind Hr. unfold ret in Hr. injection Hr as <- _.
      destruct Hsen; auto.
Qed.


(** ** Global trees are never modified *)

Lemma canon_le_refl m : canon_le m m.
Proof.
  split; [done|]. split; [|auto].
  exists []. split; [by rewrite app_nil_r|]. intros q Hq. by apply elem_of_nil in Hq.
Qed.

Lemma canon_le_canonical m m' p :
  canon_le m m' → canonical (heap m) p → canonical (heap m') p.
Proof. intros [H _] (t & Ht & Hb). exists t. eauto. Qed.

Lemma canon_le_trans m1 m2 m3 : canon_le m1 m2 → canon_le m2 m3 → canon_le m1 m3.
Proof.
  intros H12 H23.
  destruct H12 as (H1 & (l1 & F1 & C1) & D1).
  destruct (H23) as (H2 & (l2 & F2 & C2) & D2).
  split; [eauto|]. split.
  - exists (l1 ++ l2). split; [by rewrite F2, F1, app_assoc|].
    intros q [Hq|Hq]%elem_of_app; [|auto].
    eapply canon_le_canonical; eauto.
  - intros p Hp. destruct (D2 p Hp) as [Hp2|]; [|auto]. auto.
Qed.

Lemma mem_wf_le m m' : mem_wf m → canon_le m m' → mem_wf m'.
Proof.
  intros (H0 & H1 & Hf) Hle. pose proof Hle as (Hc & (l & F & C) & D).
  repeat split.
  - destruct (heap m' !! nullptr) eqn:E; [|done].
    destruct (D nullptr) as [[? ?]|[? ?]]; [eauto|congruence|done].
  - destruct (heap m' !! m_deleteDomainp) eqn:E; [|done].
    destruct (D m_deleteDomainp) as [[? ?]|[? ?]]; [eauto|congruence|done].
  - intros q. rewrite F. intros [Hq|Hq]%elem_of_app; [|auto].
    eapply canon_le_canonical; eauto.
Qed.

Lemma newp_real h : realDomain (newp h).
Proof. split; [apply newp_not_null | apply newp_not_sentinel]. Qed.

Lemma canon_le_store m p t :
  ¬ canonical (heap m) p → is_Some (heap m !! p) ∨ realDomain p →
  canon_le m (set_heap (<[p := t]> (heap m)) m).
Proof.
  intros Hn Hp. split; [|split].
  - intros q tq Hq Hb. cbn. rewrite lookup_insert_ne; [done|].
    intros ->. apply Hn. exists tq. done.
  - exists []. split; [by rewrite app_nil_r|]. intros q Hq. by apply elem_of_nil in Hq.
  - intros q. cbn. rewrite lookup_insert. case_decide; [subst; auto|auto].
Qed.

Lemma canon_le_delete m p :
  ¬ canonical (heap m) p → canon_le m (set_heap (delete p (heap m)) m).
Proof.
  intros Hn. split; [|split].
  - intros q tq Hq Hb. cbn. rewrite lookup_delete_ne; [done|].
    intros ->. apply Hn. exists tq. done.
  - exists []. split; [by rewrite app_nil_r|]. intros q Hq. by apply elem_of_nil in Hq.
  - intros q. cbn. rewrite lookup_delete. case_decide; [by intros [? ?]|auto].
Qed.

Lemma newp_not_canonical h : ¬ canonical h (newp h).
Proof. intros (t & Ht & _). by rewrite newp_fresh in Ht. Qed.

Lemma transient_not_canonical h p t :
  h !! p = Some t → backp t = false → ¬ canonical h p.
Proof. intros Ht Hb (t' & Ht' & Hb'). congruence. Qed.

Lemma canon_le_alloc m t :
  canon_le m (set_heap (<[newp (heap m) := t]> (heap m)) m).
Proof. apply canon_le_store; [apply newp_not_canonical | right; apply newp_real]. Qed.

Lemma addSensesp_canon_le p items m m' :
  ¬ canonical (heap m) p →
  addSensesp p items m = Ok (tt, m') → canon_le m m'.
Proof.
  intros Hn H. apply addSensesp_Ok in H as (t & _ & Ht & [= ->]).
  apply canon_le_store; eauto.
Qed.

Lemma combineDomains_canon_le ap bp m r m' :
  combineDomains ap bp m = Ok (r, m') → canon_le m m'.
Proof.
  rewrite combineDomains_eq. repeat case_decide.
  - intros [= _ <-]. apply canon_le_refl.
  - intros [= _ <-]. apply canon_le_refl.
  - intros Hr. by apply assert_obj_Ok in Hr.
  - intros Hr. inv_bind Hr. apply deref_Ok in Hc as [Ha ->].
    inv_bind Hr.
    assert (canon_le m m0 ∧ ¬ canonical (heap m0) a0) as [Hle Hsen].
    { destruct (backp a) eqn:Hb.
      - unfold cloneTree, alloc in Hc. injection Hc as <- <-. split.
        + apply canon_le_alloc.
        + cbn. intros (t & Ht & Hbt). rewrite lookup_insert_eq in Ht.
          injection Ht as <-. done.
      - unfold ret in Hc. injection Hc as <- <-. split.
        + apply canon_le_refl.
        + by eapply transient_not_canonical. }
    clear Hc. inv_bind Hr. apply deref_Ok in Hc as [Hb ->].
    destruct (backp a1) eqn:Hbb.
    + inv_bind Hr. unfold ret in Hr. injection Hr as _ <-. destruct a2.
      eapply canon_le_trans; [done|]. by eapply addSensesp_canon_le.
    + inv_bind Hr. destruct a2. inv_bind Hr. unfold ret in Hr.
      injection Hr as _ <-. unfold deleteTree in Hc0. injection Hc0 as _ <-.
      apply addSensesp_Ok in Hc as (t & _ & Ht & [= ->]).
      eapply canon_le_trans; [done|].
      eapply canon_le_trans; [apply canon_le_store; eauto|].
      apply canon_le_delete. cbn. intros (t' & Ht' & Hbt').
      rewrite lookup_insert in Ht'. case_decide.
      * injection Ht' as <-. cbn in Hbt'. apply Hsen. exists t. done.
      * congruence.
Qed.

(** ** getSenTree and simplifyDomain *)

Lemma getSenTree_Ok t m r m' :
  getSenTree t m = Ok (r, m') →
  canon_le m m' ∧ (mem_wf m → canonical (heap m') r) ∧
  (∀ q tq, heap m !! q = Some tq → heap m' !! q = Some tq).
Proof.
  unfold getSenTree. destruct (List.find _ _) as [p|] eqn:Hfind.
  - intros [= <- <-]. split; [apply canon_le_refl|]. split; [|done].
    intros (_ & _ & Hf). apply Hf. apply list_elem_of_In.
    by apply List.find_some in Hfind as [? _].
  - intros [= <- <-].
    assert (∀ q tq, heap m !! q = Some tq →
              <[newp (heap m) := {| backp := true; sensesp := sensesp t;
                                    isMulti := isMulti t |}]> (heap m) !! q = Some tq)
      as Hkeep.
    { intros q tq Hq. rewrite lookup_insert_ne; [done|].
      intros <-. by rewrite newp_fresh in Hq. }
    split; [|split; [|done]].
    + split; [|split].
      * intros q tq Hq Hb. cbn. auto.
      * exists [newp (heap m)]. split; [done|].
        intros q ->%list_elem_of_singleton. cbn.
        eexists. rewrite lookup_insert_eq. done.
      * intros q. cbn. rewrite lookup_insert. case_decide; [|auto].
        subst. intros _. right. apply newp_real.
    + intros _. cbn. eexists. rewrite lookup_insert_eq. done.
Qed.

Lemma simplifyDomain_Ok p m r m' :
  simplifyDomain p m = Ok (r, m') →
  canon_le m m' ∧ (mem_wf m → canonical (heap m') r) ∧
  (canonical (heap m) p → r = p ∧ m' = m).
Proof.
  unfold simplifyDomain. intros Hr. inv_bind Hr.
  apply deref_Ok in Hc as [Hp ->]. destruct (backp a) eqn:Hb.
  - unfold ret in Hr. injection Hr as <- <-.
    split; [apply canon_le_refl|]. split; [|done].
    intros _. by exists a.
  - inv_bind Hr. unfold store in Hc. injection Hc as _ <-.
    inv_bind Hr. unfold store in Hc. injection Hc as _ <-.
    inv_bind Hr. inv_bind Hr. unfold deleteTree in Hc0. injection Hc0 as _ <-.
    unfold ret in Hr. injection Hr as <- <-.
    apply getSenTree_Ok in Hc as (Hle & Hcan & Hkeep). cbn in *.
    set (t1 := {| backp := false; sensesp := constifyExpensiveEdit (sensesp a);
                  isMulti := isMulti a |}) in *.
    set (t2 := {| backp := false; sensesp := constifyExpensiveEdit (sensesp a);
                  isMulti := true |}) in *.
    set (m1 := set_heap (<[p:=t1]> (heap m)) m) in *.
    set (m2 := set_heap (<[p:=t2]> (heap m1)) m1) in *.
    assert (canon_le m m1) as H01.
    { apply canon_le_store; [by eapply transient_not_canonical|eauto]. }
    assert (canon_le m1 m2) as H12.
    { apply canon_le_store.
      - eapply transient_not_canonical; [apply lookup_insert_eq|done].
      - left. cbn. by rewrite lookup_insert_eq. }
    assert (heap m0 !! p = Some t2) as Hp0.
    { apply Hkeep. apply lookup_insert_eq. }
    assert (canon_le m0 (set_heap (delete p (heap m0)) m0)) as H03.
    { apply canon_le_delete. by eapply transient_not_canonical. }
    assert (canon_le m (set_heap (delete p (heap m0)) m0)) as Hall.
    { repeat (eapply canon_le_trans; [eassumption|]). apply canon_le_refl. }
    split; [done|]. split.
    + intros Hwf.
      change (canonical (heap (set_heap (delete p (heap m0)) m0)) a2).
      apply (canon_le_canonical m0 (set_heap (delete p (heap m0)) m0)); [exact H03|].
      apply Hcan. eapply mem_wf_le; [exact Hwf|].
      exact (canon_le_trans _ _ _ H01 H12).
    + intros (t & Ht & Hbt). congruence.
Qed.

(** ** The loops of processDomains *)

Lemma combineDomains_real ap bp m r m' :
  combineDomains ap bp m = Ok (r, m') → realDomain ap → realDomain r.
Proof.
  intros Hr [Hn Hd]. apply combineDomains_result in Hr as [->|[[_ ->]| ->]].
  - done.
  - done.
  - apply newp_real.
Qed.

Lemma externalLoop_canon_le l d m r m' :
  externalLoop l d m = Ok (r, m') → canon_le m m'.
Proof.
  revert d m. induction l as [|p l IH]; intros d m; cbn.
  - intros [= _ <-]. apply canon_le_refl.
  - intros Hr. inv_bind Hr. apply deref_Ok in Hc as [_ ->].
    inv_bind Hr. apply UASSERT_Ok in Hc as [_ [= _ ->]].
    inv_bind Hr. apply UASSERT_Ok in Hc as [_ [= _ ->]].
    inv_bind Hr. apply combineDomains_canon_le in Hc.
    eapply canon_le_trans; eauto.
Qed.

Lemma checkFromDomain_Ok p m r :
  checkFromDomain p m = Ok r →
  r = (tt, m) ∧
  (p = m_deleteDomainp ∨
   ∃ t, heap m !! p = Some t ∧ hasCombo t = false ∧ backp t = true).
Proof.
  unfold checkFromDomain. case_decide.
  - intros [= <-]. auto.
  - intros Hr. inv_bind Hr. apply deref_Ok in Hc as [Ht ->].
    inv_bind Hr. apply UASSERT_Ok in Hc as [Hcombo [= _ ->]].
    apply UASSERT_Ok in Hr as [Hb ->]. split; [done|]. right.
    exists a. by rewrite negb_true_iff in Hcombo.
Qed.

Lemma processInEdge_Ok g e d0 m r m' :
  processInEdge g e d0 m = Ok (r, m') →
  canon_le m m' ∧ (d0 ≠ m_deleteDomainp → r ≠ m_deleteDomainp) ∧
  (realDomain d0 → realDomain r).
Proof.
  unfold processInEdge. destruct (vertexAt g (fromp e)) as [fv|]; [|done].
  case_decide.
  { intros [= <- <-]. split; [apply canon_le_refl|done]. }
  destruct (domainMatters fv); cbn.
  2:{ intros [= <- <-]. split; [apply canon_le_refl|done]. }
  intros Hr. inv_bind Hr. apply checkFromDomain_Ok in Hc as [[= _ ->] _].
  inv_bind Hr.
  assert (canon_le m m0) as Hle.
  { destruct (kind fv).
    - unfold ret in Hc. injection Hc as _ <-. apply canon_le_refl.
    - by eapply externalLoop_canon_le. }
  clear Hc. case_decide.
  { injection Hr as <- <-. done. }
  case_decide.
  { injection Hr as <- <-. split; [done|]. split; [done|].
    intros [? _]. done. }
  split; [|split].
  - eapply canon_le_trans; [done|]. by eapply combineDomains_canon_le.
  - intros Hd. eapply combineDomains_real; [done|]. done.
  - intros Hd. by eapply combineDomains_real.
Qed.

Lemma inEdgesLoop_Ok g es d0 m r m' :
  inEdgesLoop g es d0 m = Ok (r, m') →
  canon_le m m' ∧ (d0 ≠ m_deleteDomainp → r ≠ m_deleteDomainp) ∧
  (realDomain d0 → realDomain r).
Proof.
  revert d0 m. induction es as [|e es IH]; intros d0 m; cbn.
  - intros [= <- <-]. split; [apply canon_le_refl|done].
  - intros Hr. inv_bind Hr.
    apply processInEdge_Ok in Hc as (Hle & Hd & Hreal).
    apply IH in Hr as (Hle' & Hd' & Hreal').
    split; [by eapply canon_le_trans|]. split; auto.
Qed.

Lemma inEdgesLoop_app g es1 es2 d0 m :
  inEdgesLoop g (es1 ++ es2) d0 m =
  (d <- inEdgesLoop g es1 d0 ;; inEdgesLoop g es2 d) m.
Proof.
  revert d0 m. induction es1 as [|e es1 IH]; intros d0 m; cbn; [done|].
  unfold bind in *. destruct (processInEdge g e d0 m) as [[d m1]| |]; [|done|done].
  apply IH.
Qed.

Lemma externalLoop_app l1 l2 d0 m :
  externalLoop (l1 ++ l2) d0 m =
  (d <- externalLoop l1 d0 ;; externalLoop l2 d) m.
Proof.
  revert d0 m. induction l1 as [|p l1 IH]; intros d0 m; cbn; [done|].
  unfold bind in *. destruct (deref p m) as [[t m1]| |]; [|done|done].
  destruct (UASSERT (negb (hasCombo t)) _ m1) as [[? m2]| |]; [|done|done].
  destruct (UASSERT (backp t) _ m2) as [[? m3]| |]; [|done|done].
  destruct (combineDomains d0 p m3) as [[d m4]| |]; [|done|done].
  apply IH.
Qed.

Lemma hybridSeed_Ok v m r m' :
  hybridSeed v m = Ok (r, m') →
  m' = m ∧ (r = nullptr ∨ canonical (heap m) r) ∧
  r = match kind v with
      | OrderLogicVertex _ hybridp => hybridp
      | OrderVarVertex _ _ => nullptr
      end.
Proof.
  unfold hybridSeed. case_decide as Hnull.
  - intros [= <- <-]. rewrite Hnull. auto.
  - intros Hr. inv_bind Hr. apply deref_Ok in Hc as [Ht ->].
    inv_bind Hr. apply UASSERT_Ok in Hc as [Hb [= _ ->]].
    injection Hr as <- <-. split; [done|]. split; [|done].
    right. by exists a.
Qed.

Lemma workingDomain_Ok g v m r m' :
  mem_wf m →
  workingDomain g v m = Ok (r, m') →
  canon_le m m' ∧ r ≠ m_deleteDomainp.
Proof.
  intros Hwf Hr. unfold workingDomain in Hr. inv_bind Hr.
  apply hybridSeed_Ok in Hc as (-> & Hseed & _).
  apply inEdgesLoop_Ok in Hr as (Hle & Hd & _). split; [done|].
  apply Hd. destruct Hseed as [->|(t & Ht & _)]; [done|].
  intros ->. destruct Hwf as (_ & H1 & _). congruence.
Qed.

Lemma workingDomain_canon_le g v m r m' :
  workingDomain g v m = Ok (r, m') → canon_le m m'.
Proof.
  intros Hr. unfold workingDomain in Hr. inv_bind Hr.
  apply hybridSeed_Ok in Hc as (-> & _ & _).
  by apply inEdgesLoop_Ok in Hr as (Hle & _ & _).
Qed.

(** ** One vertex *)

Lemma vertexAt_Some_lt (g : OrderGraph) i v : vertexAt g i = Some v → (i < length g)%nat.
Proof.
  unfold vertexAt. destruct (g !! i) eqn:E; [|done].
  intros _. by eapply lookup_lt_Some.
Qed.

Lemma vertexAt_insert (g : OrderGraph) i j x :
  (i < length g)%nat →
  vertexAt (<[i := x]> g) j = if decide (i = j) then x else vertexAt g j.
Proof.
  intros Hlt. unfold vertexAt. case_decide as Hij.
  - subst. by rewrite list_lookup_insert_eq.
  - by rewrite list_lookup_insert_ne.
Qed.

Lemma vertex_le_refl v : vertex_le v v.
Proof. done. Qed.

Lemma vertex_le_trans v1 v2 v3 : vertex_le v1 v2 → vertex_le v2 v3 → vertex_le v1 v3.
Proof.
  intros (K1 & M1 & E1 & D1) (K2 & M2 & E2 & D2).
  repeat split; try congruence.
  intros Hn. rewrite D2; [auto|]. rewrite D1; done.
Qed.

Lemma graph_le_refl g : graph_le g g.
Proof.
  split; [done|]. intros j. destruct (vertexAt g j) as [v|]; [|done].
  exists v. split; [done|apply vertex_le_refl].
Qed.

Lemma graph_le_trans g1 g2 g3 : graph_le g1 g2 → graph_le g2 g3 → graph_le g1 g3.
Proof.
  intros [L1 H1] [L2 H2]. split; [congruence|]. intros j.
  specialize (H1 j). specialize (H2 j).
  destruct (vertexAt g1 j) as [v1|].
  - destruct H1 as (v2 & E2 & Hle). rewrite E2 in H2.
    destruct H2 as (v3 & E3 & Hle'). exists v3. split; [done|].
    by eapply vertex_le_trans.
  - by rewrite H1 in H2.
Qed.

Lemma graph_le_set_domainp g i v d :
  vertexAt g i = Some v → domainp v = nullptr →
  graph_le g (<[i := Some (set_domainp d v)]> g).
Proof.
  intros Hv Hd. split; [apply length_insert|]. intros j.
  rewrite vertexAt_insert by by eapply vertexAt_Some_lt.
  case_decide as Hij.
  - subst j. rewrite Hv. eexists. split; [done|].
    repeat split; try done.
  - destruct (vertexAt g j) as [vj|]; [|done].
    exists vj. split; [done|apply vertex_le_refl].
Qed.

(** The three ways [processVertex] returns: the slot is empty or its vertex
    has a domain already; nothing triggers the vertex; something does. *)
Lemma processVertex_Ok i s s' :
  processVertex i s = Ok (tt, s') →
  ((vertexAt (m_graph s) i = None ∨
    ∃ v, vertexAt (m_graph s) i = Some v ∧ domainp v ≠ nullptr) ∧ s' = s) ∨
  (∃ v m1, vertexAt (m_graph s) i = Some v ∧ domainp v = nullptr ∧
           workingDomain (m_graph s) v (mem s) = Ok (nullptr, m1) ∧
           s' = withDomain i v m_deleteDomainp (isLogic v) m1 s) ∨
  (∃ v d m1 d' m2, vertexAt (m_graph s) i = Some v ∧ domainp v = nullptr ∧
           workingDomain (m_graph s) v (mem s) = Ok (d, m1) ∧ d ≠ nullptr ∧
           simplifyDomain d m1 = Ok (d', m2) ∧
           s' = withDomain i v d' false m2 s).
Proof.
  unfold processVertex. intros Hr. inv_bind Hr. injection Hc as <- <-.
  destruct (vertexAt (m_graph s) i) as [v|] eqn:Hv.
  2:{ injection Hr as <-. left. auto. }
  case_decide as Hd.
  2:{ injection Hr as <-. left. split; [|done]. right. eauto. }
  right. inv_bind Hr. unfold liftMem in Hc.
  destruct (workingDomain (m_graph s) v (mem s)) as [[d m1]| |] eqn:Hw; [|done|done].
  injection Hc as <- <-. case_decide as Hnull.
  - left. subst d. unfold setDomain, modify in Hr. injection Hr as <-.
    exists v, m1. done.
  - right. inv_bind Hr. unfold liftMem in Hc. cbn in Hc.
    destruct (simplifyDomain d m1) as [[d' m2]| |] eqn:Hs; [|done|done].
    injection Hc as <- <-. unfold setDomain, modify in Hr. injection Hr as <-.
    exists v, d, m1, d', m2. done.
Qed.

(** ** The loop over the vertices *)

Lemma pass_le_refl s : pass_le s s.
Proof.
  split; [apply graph_le_refl|]. split; [done|]. split; [apply canon_le_refl|].
  split; [exists []; by rewrite app_nil_r|]. done.
Qed.

Lemma pass_le_trans s1 s2 s3 : pass_le s1 s2 → pass_le s2 s3 → pass_le s1 s3.
Proof.
  intros (G1 & A1 & C1 & (l1 & L1) & W1 & R1) (G2 & A2 & C2 & (l2 & L2) & W2 & R2).
  split; [by eapply graph_le_trans|]. split; [congruence|].
  split; [by eapply canon_le_trans|].
  split; [exists (l1 ++ l2); by rewrite L2, L1, app_assoc|]. auto.
Qed.

Lemma withDomain_pass_le i v d dead m1 s :
  vertexAt (m_graph s) i = Some v → domainp v = nullptr →
  canon_le (mem s) m1 →
  (mem_wf (mem s) → d = m_deleteDomainp ∨ canonical (heap m1) d) →
  (dead = true → isLogic v = true ∧ d = m_deleteDomainp) →
  pass_le s (withDomain i v d dead m1 s).
Proof.
  intros Hv Hd Hle Hdom Hdead.
  assert (i < length (m_graph s))%nat as Hlt by by eapply vertexAt_Some_lt.
  split; [by apply graph_le_set_domainp|]. split; [done|]. split; [done|].
  split; [destruct dead; cbn; [eauto|exists []; by rewrite app_nil_r]|].
  split.
  - intros [Hwf Hdoms].
    assert (mem_wf m1) as Hwf1 by by eapply mem_wf_le.
    split; [done|]. cbn. intros j vj. rewrite vertexAt_insert by done.
    case_decide as Hij.
    + intros [= <-]. cbn. right. auto.
    + intros Hj. destruct (Hdoms j vj Hj) as [?|[?|Hc]]; [auto|auto|].
      right. right. by eapply canon_le_canonical.
  - intros [Hnd Hrec].
    assert (i ∉ m_logicpsToDelete s) as Hni.
    { intros (vi & Hvi & _ & Hdi)%Hrec. rewrite Hv in Hvi.
      injection Hvi as <-. rewrite Hd in Hdi. done. }
    assert (∀ k, k ∈ m_logicpsToDelete s →
              ∃ vk, vertexAt (<[i:=Some (set_domainp d v)]> (m_graph s)) k = Some vk ∧
                    isLogic vk = true ∧ domainp vk = m_deleteDomainp) as Hold.
    { intros k Hk. rewrite vertexAt_insert by done.
      rewrite decide_False; [auto|]. intros ->. done. }
    unfold recorded_ok, withDomain. destruct dead; cbn; split; try done.
    + apply NoDup_app. split; [done|]. split; [|apply NoDup_singleton].
      intros k Hk ->%list_elem_of_singleton. done.
    + intros k [Hk| ->%list_elem_of_singleton]%elem_of_app; [auto|].
      rewrite vertexAt_insert by done. rewrite decide_True by done.
      destruct Hdead as [Hl ->]; [done|]. eexists. done.
Qed.

Lemma processVertex_pass_le i s s' :
  processVertex i s = Ok (tt, s') → pass_le s s'.
Proof.
  intros [[_ ->]|[H|H]]%processVertex_Ok.
  - apply pass_le_refl.
  - destruct H as (v & m1 & Hv & Hd & Hw & ->).
    apply withDomain_pass_le; auto.
    by eapply workingDomain_canon_le.
  - destruct H as (v & d & m1 & d' & m2 & Hv & Hd & Hw & Hn & Hs & ->).
    apply simplifyDomain_Ok in Hs as (Hle & Hcan & _).
    apply workingDomain_canon_le in Hw.
    apply withDomain_pass_le; auto.
    + by eapply canon_le_trans.
    + intros Hwf. right. apply Hcan. by eapply mem_wf_le.
    + done.
Qed.

Lemma forEach_Ok {St A} (f : A → M St unit) x l s r :
  forEach f (x :: l) s = Ok r ↔
  ∃ s1, f x s = Ok (tt, s1) ∧ forEach f l s1 = Ok r.
Proof.
  cbn. rewrite bind_Ok. split.
  - intros ([] & s1 & H1 & H2). eauto.
  - intros (s1 & H1 & H2). exists tt, s1. done.
Qed.

Lemma forEach_app {St A} (f : A → M St unit) l1 l2 s :
  forEach f (l1 ++ l2) s = (forEach f l1 ;;; forEach f l2) s.
Proof.
  revert s. induction l1 as [|x l1 IH]; intros s; cbn; [done|].
  unfold bind in *. destruct (f x s) as [[[] s1]| |]; [|done|done].
  apply IH.
Qed.

Lemma forEach_pass_le l s s' :
  forEach processVertex l s = Ok (tt, s') → pass_le s s'.
Proof.
  revert s. induction l as [|i l IH]; intros s.
  - intros [= <-]. apply pass_le_refl.
  - intros (s1 & H1 & H2)%forEach_Ok.
    eapply pass_le_trans; [by eapply processVertex_pass_le|auto].
Qed.

Lemma processDomains_pass_le s s' :
  processDomains s = Ok (tt, s') → pass_le s s'.
Proof.
  unfold processDomains. intros Hr. inv_bind Hr. injection Hc as <- <-.
  by eapply forEach_pass_le.
Qed.

(** ** The sentinel in combineDomains *)

(** C9. combineDomains returns the delete sentinel only when both of its
    arguments are the sentinel, which it then returns by the identity
    short-circuit; so a working domain that is a real domain (neither unset
    nor the sentinel) is still a real domain after the iteration for any
    incoming edge, and after the loop over any list of incoming edges. *)
Theorem combineDomains_sentinel_only :
  (∀ ap bp m r m',
     combineDomains ap bp m = Ok (r, m') → r = m_deleteDomainp →
     ap = m_deleteDomainp ∧ bp = m_deleteDomainp) ∧
  (∀ m, combineDomains m_deleteDomainp m_deleteDomainp m = Ok (m_deleteDomainp, m)) ∧
  (∀ g e d0 m r m',
     realDomain d0 → processInEdge g e d0 m = Ok (r, m') → realDomain r) ∧
  (∀ g es d0 m r m',
     realDomain d0 → inEdgesLoop g es d0 m = Ok (r, m') → realDomain r).
Proof.
  split; [|split; [|split]].
  - intros ap bp m r m' Hr ->.
    assert (ap = m_deleteDomainp) as ->.
    { apply combineDomains_result in Hr as [?|[[_ ?]|Hn]]; [done|done|].
      symmetry in Hn. by apply newp_not_sentinel in Hn. }
    split; [done|]. revert Hr. rewrite combineDomains_eq.
    case_decide as Hab; [done|]. rewrite decide_True by done.
    by intros [= ->].
  - intros m. rewrite combineDomains_eq. by rewrite decide_True.
  - intros g e d0 m r m' Hd Hr.
    apply processInEdge_Ok in Hr as (_ & _ & Hreal). auto.
  - intros g es d0 m r m' Hd Hr.
    apply inEdgesLoop_Ok in Hr as (_ & _ & Hreal). auto.
Qed.

(** ** A vertex with a single contributing input *)

Lemma processInEdge_skip g e d m :
  contributesNothing g e → processInEdge g e d m = Ok (d, m).
Proof.
  intros (fv & Hfv & Hcase). unfold processInEdge. rewrite Hfv.
  case_decide as Hw; [done|].
  destruct (domainMatters fv) eqn:Hm; [|done]. cbn.
  destruct Hcase as [?|[?|[Hd Hext]]]; [done|done|].
  rewrite Hd. unfold bind, checkFromDomain. rewrite decide_True by done. cbn.
  destruct (kind fv) as [?|k vscp].
  - cbn. by rewrite decide_True.
  - rewrite Hext. cbn. by rewrite decide_True.
Qed.

Lemma inEdgesLoop_skip g es d m :
  Forall (contributesNothing g) es → inEdgesLoop g es d m = Ok (d, m).
Proof.
  induction 1 as [|e es He _ IH]; [done|].
  cbn. unfold bind. by rewrite processInEdge_skip.
Qed.

Lemma simplifyDomain_canonical p m :
  canonical (heap m) p → simplifyDomain p m = Ok (p, m).
Proof.
  intros (t & Ht & Hb). unfold simplifyDomain, bind, deref.
  by rewrite Ht, Hb.
Qed.

(** One iteration of the loop over the vertices, for a vertex without
    domain and without hybrid sensitivity whose only contributing edge
    comes from a vertex with a global tree without combinational term as
    domain and no external domain: the vertex is given that very domain,
    and the memory and the recorded dead logic are left as they were. *)
Lemma processVertex_single_input (s : State) (i : nat) (v fv : OrderEitherVertex)
    (pre post : list V3GraphEdge) (e : V3GraphEdge) (t : AstSenTree) :
  vertexAt (m_graph s) i = Some v →
  domainp v = nullptr →
  noHybrid v →
  inEdges v = pre ++ e :: post →
  Forall (contributesNothing (m_graph s)) pre →
  Forall (contributesNothing (m_graph s)) post →
  vertexAt (m_graph s) (fromp e) = Some fv →
  weight e ≠ 0 →
  domainMatters fv = true →
  noExternal fv →
  realDomain (domainp fv) →
  heap (mem s) !! domainp fv = Some t →
  backp t = true →
  hasCombo t = false →
  ∃ s', processVertex i s = Ok (tt, s') ∧
        domainp <$> vertexAt (m_graph s') i = Some (domainp fv) ∧
        mem s' = mem s ∧
        heap (mem s') !! domainp fv = Some t ∧
        (isMulti t = false →
         isMulti <$> heap (mem s') !! domainp fv = Some false) ∧
        m_logicpsToDelete s' = m_logicpsToDelete s.
Proof.
  intros Hv Hd Hhyb Hedges Hpre Hpost Hfv Hw Hm Hext [Hn Hs] Ht Hb Hcombo.
  assert (processInEdge (m_graph s) e nullptr (mem s) = Ok (domainp fv, mem s))
    as Hedge.
  { unfold processInEdge. rewrite Hfv, decide_False, Hm by done. cbn.
    unfold bind, checkFromDomain. rewrite decide_False by done.
    unfold bind, deref. rewrite Ht, Hcombo, Hb. cbn.
    assert (match kind fv with
            | OrderLogicVertex _ _ => ret (domainp fv)
            | OrderVarVertex _ vscp =>
                externalLoop (m_externalDomains vscp) (domainp fv)
            end (mem s) = Ok (domainp fv, mem s)) as ->.
    { unfold noExternal in Hext. destruct (kind fv); [done|]. by rewrite Hext. }
    rewrite decide_False by done. by rewrite decide_True. }
  assert (workingDomain (m_graph s) v (mem s) = Ok (domainp fv, mem s)) as Hwd.
  { unfold workingDomain, bind.
    assert (hybridSeed v (mem s) = Ok (nullptr, mem s)) as ->.
    { unfold hybridSeed, noHybrid in *. destruct (kind v); [|done].
      subst. done. }
    rewrite Hedges, inEdgesLoop_app. unfold bind.
    rewrite inEdgesLoop_skip by done. cbn. unfold bind.
    rewrite Hedge. by apply inEdgesLoop_skip. }
  exists (withDomain i v (domainp fv) false (mem s) s).
  split; [|split; [|split; [done|split; [done|split; [|done]]]]].
  - unfold processVertex, bind, get. rewrite Hv, decide_True by done.
    unfold liftMem. rewrite Hwd. rewrite decide_False by done.
    rewrite simplifyDomain_canonical by by exists t.
    unfold setDomain, modify, withDomain. cbn. by destruct s.
  - cbn. rewrite vertexAt_insert by by eapply vertexAt_Some_lt.
    by rewrite decide_True.
  - intros Hmulti. cbn. by rewrite Ht, <- Hmulti.
Qed.

(** ** Fatal assertions *)

Lemma bind_Fatal {St A B} (c : M St A) (k : A → M St B) s msg :
  c s = Fatal msg → bind c k s = Fatal msg.
Proof. unfold bind. by intros ->. Qed.

Lemma bind_step {St A B} (c : M St A) (k : A → M St B) s a s1 :
  c s = Ok (a, s1) → bind c k s = k a s1.
Proof. unfold bind. by intros ->. Qed.

Lemma seq_split_at (i n : nat) :
  (i < n)%nat → seq 0 n = seq 0 i ++ i :: seq (S i) (n - S i).
Proof.
  intros Hlt. replace n with (i + S (n - S i))%nat at 1 by lia.
  rewrite seq_app. done.
Qed.

Lemma processDomains_Fatal_at s i s1 msg :
  (i < length (m_graph s))%nat →
  forEach processVertex (seq 0 i) s = Ok (tt, s1) →
  processVertex i s1 = Fatal msg →
  processDomains s = Fatal msg.
Proof.
  intros Hlt Hpre Hi. unfold processDomains. rewrite (bind_step _ _ _ s s) by done.
  rewrite (seq_split_at i) by done. rewrite forEach_app.
  rewrite (bind_step _ _ _ _ _ Hpre). cbn. by apply bind_Fatal.
Qed.

Lemma processVertex_Fatal i s v msg :
  vertexAt (m_graph s) i = Some v → domainp v = nullptr →
  workingDomain (m_graph s) v (mem s) = Fatal msg →
  processVertex i s = Fatal msg.
Proof.
  intros Hv Hd Hw. unfold processVertex. rewrite (bind_step _ _ _ s s) by done.
  rewrite Hv, decide_True by done. apply bind_Fatal.
  unfold liftMem. by rewrite Hw.
Qed.

Lemma workingDomain_Fatal g v m pre e post d1 m1 msg :
  inEdges v = pre ++ e :: post →
  (d0 <- hybridSeed v ;; inEdgesLoop g pre d0) m = Ok (d1, m1) →
  processInEdge g e d1 m1 = Fatal msg →
  workingDomain g v m = Fatal msg.
Proof.
  intros He Hpre Hf. unfold workingDomain. inv_bind Hpre.
  rewrite (bind_step _ _ _ _ _ Hc). rewrite He, inEdgesLoop_app.
  rewrite (bind_step _ _ _ _ _ Hpre). cbn. by apply bind_Fatal.
Qed.

Lemma externalLoop_Fatal p rest d m t :
  heap m !! p = Some t →
  (hasCombo t = true →
   externalLoop (p :: rest) d m
   = Fatal "There should be no need for combinational domains") ∧
  (hasCombo t = false → backp t = false →
   externalLoop (p :: rest) d m = Fatal "External SenTree should have backp()").
Proof.
  intros Ht. cbn. unfold bind, deref. rewrite Ht.
  split; [by intros ->|]. by intros -> ->.
Qed.

(** C7. Let the loop over the vertices have reached the vertex of slot
    [i], which has no domain yet, and the loop over its incoming edges
    have reached the edge [e], which is not cut and comes from a vertex
    [fv] whose domain matters. If the domain of [fv] is not the sentinel
    and has a combinational term, processDomains fails with the fatal
    assertion of that name. If [fv] is a variable whose own domain passes
    the checks, and the loop over its external domains reaches one that
    has a combinational term or no back pointer, processDomains fails with
    the fatal assertion for the one or the other. A fatal failure of
    processDomains is the result of the constructor: there is no state
    left to continue from. *)
Theorem fatal_on_combinational (s s1 : State) (i : nat) (v fv : OrderEitherVertex)
    (pre post : list V3GraphEdge) (e : V3GraphEdge) (d1 : Z) (m1 : Mem) :
  (i < length (m_graph s))%nat →
  forEach processVertex (seq 0 i) s = Ok (tt, s1) →
  vertexAt (m_graph s1) i = Some v →
  domainp v = nullptr →
  inEdges v = pre ++ e :: post →
  (d0 <- hybridSeed v ;; inEdgesLoop (m_graph s1) pre d0) (mem s1) = Ok (d1, m1) →
  vertexAt (m_graph s1) (fromp e) = Some fv →
  weight e ≠ 0 →
  domainMatters fv = true →
  (∀ t, domainp fv ≠ m_deleteDomainp →
        heap m1 !! domainp fv = Some t → hasCombo t = true →
        processDomains s
        = Fatal "There should be no need for combinational domains") ∧
  (∀ k vscp xpre p xpost d2 m2 t,
     kind fv = OrderVarVertex k vscp →
     checkFromDomain (domainp fv) m1 = Ok (tt, m1) →
     m_externalDomains vscp = xpre ++ p :: xpost →
     externalLoop xpre (domainp fv) m1 = Ok (d2, m2) →
     heap m2 !! p = Some t →
     (hasCombo t = true →
      processDomains s
      = Fatal "There should be no need for combinational domains") ∧
     (hasCombo t = false → backp t = false →
      processDomains s = Fatal "External SenTree should have backp()")) ∧
  (∀ s0 dl msg,
     processDomains (resetState s0) = Fatal msg →
     V3OrderProcessDomains dl s0 = Fatal msg).
Proof.
  intros Hlt Hreach Hv Hd He Hpre Hfv Hw Hm.
  assert (∀ msg, processInEdge (m_graph s1) e d1 m1 = Fatal msg →
                 processDomains s = Fatal msg) as Hup.
  { intros msg Hf. eapply processDomains_Fatal_at; [done|done|].
    eapply processVertex_Fatal; [done|done|].
    by eapply workingDomain_Fatal. }
  split; [|split].
  - intros t Hns Ht Hcombo. apply Hup.
    unfold processInEdge. rewrite Hfv, decide_False, Hm by done. cbn.
    apply bind_Fatal. unfold checkFromDomain. rewrite decide_False by done.
    unfold bind, deref. by rewrite Ht, Hcombo.
  - intros k vscp xpre p xpost d2 m2 t Hk Hchk Hext Hx Ht.
    assert (∀ msg, externalLoop (p :: xpost) d2 m2 = Fatal msg →
                   processDomains s = Fatal msg) as Hup'.
    { intros msg Hf. apply Hup.
      unfold processInEdge. rewrite Hfv, decide_False, Hm by done. cbn.
      rewrite (bind_step _ _ _ _ _ Hchk). apply bind_Fatal.
      rewrite Hk, Hext, externalLoop_app.
      by rewrite (bind_step _ _ _ _ _ Hx). }
    destruct (externalLoop_Fatal p xpost d2 m2 t Ht) as [H1 H2].
    split; [intros Hc; apply Hup'; auto|].
    intros Hc Hb. apply Hup'. auto.
  - intros s0 dl msg Hf. unfold V3OrderProcessDomains.
    unfold bind at 1. cbn. apply bind_Fatal. exact Hf.
Qed.

(** ** Cut edges *)

Section CutEdge.

Variables (t k : nat) (e : V3GraphEdge).
Hypothesis cut : weight e = 0.

Lemma vertexAt_addInEdge g j :
  vertexAt (addInEdge t k e g) j
  = if decide (t = j) then insertEdge k e <$> vertexAt g j else vertexAt g j.
Proof.
  unfold vertexAt, addInEdge. rewrite list_lookup_alter. case_decide; [|done].
  subst j. by destruct (g !! t) as [[v|]|].
Qed.

Lemma processInEdge_addInEdge g e' d m :
  processInEdge (addInEdge t k e g) e' d m = processInEdge g e' d m.
Proof.
  unfold processInEdge. rewrite vertexAt_addInEdge. case_decide; [|done].
  by destruct (vertexAt g (fromp e')) as [fv|].
Qed.

Lemma inEdgesLoop_addInEdge g es d m :
  inEdgesLoop (addInEdge t k e g) es d m = inEdgesLoop g es d m.
Proof.
  revert d m. induction es as [|e' es IH]; intros d m; [done|].
  cbn. unfold bind. rewrite processInEdge_addInEdge.
  destruct (processInEdge g e' d m) as [[d' m']| |]; [|done|done]. apply IH.
Qed.

Lemma processInEdge_cut g d m :
  is_Some (vertexAt g (fromp e)) → processInEdge g e d m = Ok (d, m).
Proof using Type + cut.
  intros [fv Hfv]. unfold processInEdge. by rewrite Hfv, decide_True.
Qed.

Lemma inEdgesLoop_insert g es d m :
  is_Some (vertexAt g (fromp e)) →
  inEdgesLoop g (take k es ++ e :: drop k es) d m = inEdgesLoop g es d m.
Proof using Type + cut.
  intros Hfv. rewrite <- (take_drop k es) at 3. rewrite !inEdgesLoop_app.
  unfold bind. destruct (inEdgesLoop g (take k es) d m) as [[d' m']| |]; [|done|done].
  cbn. unfold bind. by rewrite processInEdge_cut.
Qed.

Lemma workingDomain_insertEdge g v m :
  is_Some (vertexAt g (fromp e)) →
  workingDomain (addInEdge t k e g) (insertEdge k e v) m = workingDomain g v m.
Proof using Type + cut.
  intros Hfv. unfold workingDomain, bind.
  change (hybridSeed (insertEdge k e v)) with (hybridSeed v).
  destruct (hybridSeed v m) as [[d m']| |]; [|done|done].
  rewrite inEdgesLoop_addInEdge. cbn. by apply inEdgesLoop_insert.
Qed.

Lemma workingDomain_addInEdge g v m :
  workingDomain (addInEdge t k e g) v m = workingDomain g v m.
Proof.
  unfold workingDomain, bind.
  destruct (hybridSeed v m) as [[d m']| |]; [|done|done].
  apply inEdgesLoop_addInEdge.
Qed.

Lemma addInEdge_insert_eq (g : OrderGraph) v :
  <[t := Some (insertEdge k e v)]> (addInEdge t k e g)
  = addInEdge t k e (<[t := Some v]> g).
Proof.
  apply list_eq. intros j. unfold addInEdge.
  rewrite list_lookup_alter, !list_lookup_insert, length_alter, list_lookup_alter.
  repeat case_decide; try done; exfalso; lia.
Qed.

Lemma addInEdge_insert_ne (g : OrderGraph) i x :
  i ≠ t →
  <[i := x]> (addInEdge t k e g) = addInEdge t k e (<[i := x]> g).
Proof.
  intros Hne. apply list_eq. intros j. unfold addInEdge.
  rewrite list_lookup_alter, !list_lookup_insert, length_alter, list_lookup_alter.
  repeat case_decide; try done; exfalso; lia.
Qed.

Lemma processVertex_withEdge i s :
  is_Some (vertexAt (m_graph s) (fromp e)) →
  processVertex i (withEdge t k e s)
  = mapState (withEdge t k e) (processVertex i s).
Proof using Type + cut.
  intros Hfv. unfold processVertex.
  rewrite !(bind_step _ _ _ _ _ eq_refl). cbn [m_graph withEdge].
  rewrite vertexAt_addInEdge. case_decide as Hti.
  - subst i. destruct (vertexAt (m_graph s) t) as [v|] eqn:Hv; [|done]. cbn.
    case_decide; [|done]. unfold bind, liftMem. cbn [mem withEdge m_graph].
    rewrite workingDomain_insertEdge by done.
    destruct (workingDomain (m_graph s) v (mem s)) as [[d m1]| |]; [|done|done].
    case_decide.
    + unfold setDomain, modify, withEdge. cbn. f_equal. f_equal. f_equal.
      by rewrite <- addInEdge_insert_eq.
    + cbn. destruct (simplifyDomain d m1) as [[d' m2]| |]; [|done|done].
      unfold setDomain, modify, withEdge. cbn. f_equal. f_equal. f_equal.
      by rewrite <- addInEdge_insert_eq.
  - destruct (vertexAt (m_graph s) i) as [v|] eqn:Hv; [|done].
    case_decide; [|done]. unfold bind, liftMem. cbn [mem withEdge m_graph].
    rewrite workingDomain_addInEdge.
    destruct (workingDomain (m_graph s) v (mem s)) as [[d m1]| |]; [|done|done].
    case_decide.
    + unfold setDomain, modify, withEdge. cbn. f_equal. f_equal. f_equal.
      by rewrite addInEdge_insert_ne.
    + cbn. destruct (simplifyDomain d m1) as [[d' m2]| |]; [|done|done].
      unfold setDomain, modify, withEdge. cbn. f_equal. f_equal. f_equal.
      by rewrite addInEdge_insert_ne.
Qed.

Lemma pass_le_live s s' j :
  pass_le s s' → is_Some (vertexAt (m_graph s) j) → is_Some (vertexAt (m_graph s') j).
Proof.
  intros ([_ Hg] & _) [v Hv]. specialize (Hg j). rewrite Hv in Hg.
  destruct Hg as (v' & -> & _). done.
Qed.

Lemma forEach_withEdge l s :
  is_Some (vertexAt (m_graph s) (fromp e)) →
  forEach processVertex l (withEdge t k e s)
  = mapState (withEdge t k e) (forEach processVertex l s).
Proof using Type + cut.
  revert s. induction l as [|i l IH]; intros s Hfv; [done|].
  cbn. unfold bind. rewrite processVertex_withEdge by done.
  destruct (processVertex i s) as [[[] s1]| |] eqn:Hi; [|done|done].
  cbn. apply IH. eapply pass_le_live; [|done]. by eapply processVertex_pass_le.
Qed.

End CutEdge.

(** C5. Adding a zero-weight incoming edge [e], anywhere among the
    incoming edges of any vertex, from a vertex of the graph, changes
    nothing to what processDomains does: it fails as before or it returns
    the same memory, the same recorded dead logic and the same graph, the
    added edge apart; so the domain assigned to every vertex is the same
    with and without the edge. *)
Theorem cut_edge_no_influence (s : State) (t k : nat) (e : V3GraphEdge) :
  weight e = 0 →
  is_Some (vertexAt (m_graph s) (fromp e)) →
  processDomains (withEdge t k e s)
  = mapState (withEdge t k e) (processDomains s) ∧
  ∀ s1 s2, processDomains s = Ok (tt, s1) →
           processDomains (withEdge t k e s) = Ok (tt, s2) →
           ∀ j, domainp <$> vertexAt (m_graph s2) j
                = domainp <$> vertexAt (m_graph s1) j.
Proof.
  intros Hcut Hfv.
  assert (processDomains (withEdge t k e s)
          = mapState (withEdge t k e) (processDomains s)) as Heq.
  { unfold processDomains. rewrite !(bind_step _ _ _ _ _ eq_refl).
    cbn [m_graph withEdge]. unfold addInEdge at 1. rewrite length_alter.
    by apply forEach_withEdge. }
  split; [done|]. intros s1 s2 H1 H2 j. rewrite Heq, H1 in H2.
  injection H2 as <-. cbn. rewrite vertexAt_addInEdge.
  case_decide; [|done]. by destruct (vertexAt (m_graph s1) j).
Qed.

(** ** The domain field is written once *)

Lemma processVertex_other i s s' j :
  processVertex i s = Ok (tt, s') → j ≠ i →
  vertexAt (m_graph s') j = vertexAt (m_graph s) j.
Proof.
  intros [[_ ->]|[H|H]]%processVertex_Ok Hne; [done| |].
  - destruct H as (v & m1 & Hv & _ & _ & ->). cbn.
    rewrite vertexAt_insert by by eapply vertexAt_Some_lt.
    by rewrite decide_False.
  - destruct H as (v & d & m1 & d' & m2 & Hv & _ & _ & _ & _ & ->). cbn.
    rewrite vertexAt_insert by by eapply vertexAt_Some_lt.
    by rewrite decide_False.
Qed.

Lemma processVertex_change i s s' j :
  processVertex i s = Ok (tt, s') → domainOf s' j ≠ domainOf s j →
  j = i ∧ domainOf s j = Some nullptr.
Proof.
  intros Hr Hch. destruct (decide (j = i)) as [->|Hne].
  2:{ exfalso. apply Hch. unfold domainOf.
      by rewrite (processVertex_other i s s' j). }
  split; [done|].
  apply processVertex_Ok in Hr as [[_ ->]|[H|H]]; [done| |].
  - destruct H as (v & m1 & Hv & Hd & _). unfold domainOf. by rewrite Hv, <- Hd.
  - destruct H as (v & d & m1 & d' & m2 & Hv & Hd & _).
    unfold domainOf. by rewrite Hv, <- Hd.
Qed.

Lemma writes_notin j l s : j ∉ l → writes j l s = 0%nat.
Proof.
  revert s. induction l as [|i l IH]; intros s Hj; [done|]. cbn [writes].
  destruct (processVertex i s) as [[[] s']| |] eqn:Hi; [|done|done].
  apply not_elem_of_cons in Hj as [Hji Hjl].
  rewrite IH by done. case_decide as Hch; [done|].
  by destruct (processVertex_change _ _ _ _ Hi Hch) as [-> _].
Qed.

Lemma writes_NoDup j l s : NoDup l → (writes j l s ≤ 1)%nat.
Proof.
  intros Hnd. revert s. induction Hnd as [|i l Hi Hnd IH]; intros s; [cbn; lia|].
  cbn [writes]. destruct (processVertex i s) as [[[] s']| |] eqn:Hr; [|lia|lia].
  case_decide as Hch; [apply IH|].
  destruct (processVertex_change _ _ _ _ Hr Hch) as [-> _].
  rewrite writes_notin by done. lia.
Qed.

Lemma canonical_not_null m p : mem_wf m → canonical (heap m) p → p ≠ nullptr.
Proof. intros (H0 & _) (t & Ht & _) ->. congruence. Qed.

Lemma processVertex_assigned i s s' v' :
  state_wf s → processVertex i s = Ok (tt, s') →
  vertexAt (m_graph s') i = Some v' → domainp v' ≠ nullptr.
Proof.
  intros Hwf Hr. pose proof (processVertex_pass_le _ _ _ Hr) as Hle.
  apply processVertex_Ok in Hr as [[Hcase ->]|[H|H]].
  - destruct Hcase as [->|(v & -> & Hd)]; [done|]. by intros [= <-].
  - destruct H as (v & m1 & Hv & _ & _ & ->). cbn.
    rewrite vertexAt_insert by by eapply vertexAt_Some_lt.
    rewrite decide_True by done. by intros [= <-].
  - destruct H as (v & d & m1 & d' & m2 & Hv & _ & Hw & _ & Hs & ->). cbn.
    rewrite vertexAt_insert by by eapply vertexAt_Some_lt.
    rewrite decide_True by done. intros [= <-]. cbn.
    destruct Hwf as [Hwf _].
    apply workingDomain_canon_le in Hw.
    apply simplifyDomain_Ok in Hs as (Hle2 & Hcan & _).
    eapply (canonical_not_null m2).
    + eapply mem_wf_le; [|exact Hle2]. by eapply mem_wf_le.
    + apply Hcan. by eapply mem_wf_le.
Qed.

Lemma graph_le_keeps g g' j v v' :
  graph_le g g' → vertexAt g j = Some v → vertexAt g' j = Some v' →
  domainp v ≠ nullptr → v' = v.
Proof.
  intros [_ Hg] Hv Hv' Hd. specialize (Hg j). rewrite Hv in Hg.
  destruct Hg as (v2 & Hv2 & K & Dm & E & D). rewrite Hv' in Hv2.
  injection Hv2 as <-. destruct v, v'; cbn in *. rewrite D by done. congruence.
Qed.

Lemma forEach_assigned l s s' j v' :
  state_wf s → forEach processVertex l s = Ok (tt, s') → j ∈ l →
  vertexAt (m_graph s') j = Some v' → domainp v' ≠ nullptr.
Proof.
  revert s. induction l as [|i l IH]; intros s Hwf Hr Hj Hv'.
  { by apply elem_of_nil in Hj. }
  apply forEach_Ok in Hr as (s1 & H1 & H2).
  pose proof (processVertex_pass_le _ _ _ H1) as (_ & _ & _ & _ & Hwf1 & _).
  apply elem_of_cons in Hj as [->|Hj]; [|by eapply (IH s1); auto].
  pose proof (forEach_pass_le _ _ _ H2) as (Hg & _).
  destruct (vertexAt (m_graph s1) i) as [v1|] eqn:Hv1.
  - assert (domainp v1 ≠ nullptr) as Hd1 by by eapply processVertex_assigned.
    by rewrite (graph_le_keeps _ _ _ _ _ Hg Hv1 Hv').
  - destruct Hg as [_ Hg]. specialize (Hg i). rewrite Hv1 in Hg. congruence.
Qed.

(** C6. From a state whose vertices have a domain that is unset, the
    sentinel or a global tree, in a well-formed memory, let processDomains
    return. Then at most one iteration of its loop changed the domain
    field of any one vertex; an iteration changes the domain field of the
    vertex it is for only, and only when that field was unset; a vertex
    that came with a domain is the same vertex afterwards; and afterwards
    the domain field of every vertex is set, to the sentinel or to a
    global tree. *)
Theorem domain_written_once (s s' : State) :
  state_wf s →
  processDomains s = Ok (tt, s') →
  (∀ j, writes j (seq 0 (length (m_graph s))) s ≤ 1)%nat ∧
  (∀ i s1 s2 j, processVertex i s1 = Ok (tt, s2) →
                domainOf s2 j ≠ domainOf s1 j →
                j = i ∧ domainOf s1 j = Some nullptr) ∧
  (∀ j v, vertexAt (m_graph s) j = Some v → domainp v ≠ nullptr →
          vertexAt (m_graph s') j = Some v) ∧
  (∀ j v', vertexAt (m_graph s') j = Some v' →
           domainp v' ≠ nullptr ∧
           (domainp v' = m_deleteDomainp ∨
            canonical (heap (mem s')) (domainp v'))).
Proof.
  intros Hwf Hr. pose proof (processDomains_pass_le _ _ Hr) as Hle.
  destruct Hle as (Hg & _ & _ & _ & Hwf' & _). specialize (Hwf' Hwf).
  split; [|split; [|split]].
  - intros j. apply writes_NoDup, NoDup_seq.
  - intros i s1 s2 j. apply processVertex_change.
  - intros j v Hv Hd. pose proof Hg as [_ Hg']. specialize (Hg' j).
    rewrite Hv in Hg'. destruct Hg' as (v' & Hv' & _).
    by rewrite Hv', (graph_le_keeps _ _ _ _ _ Hg Hv Hv').
  - intros j v' Hv'.
    assert (domainp v' ≠ nullptr) as Hn.
    { unfold processDomains in Hr. inv_bind Hr. injection Hc as <- <-.
      eapply (forEach_assigned _ s s' j); [done|done| |done].
      apply elem_of_seq. apply vertexAt_Some_lt in Hv'.
      destruct Hg as [Hlen _]. lia. }
    split; [done|]. destruct Hwf' as [_ Hdoms].
    destruct (Hdoms j v' Hv') as [?|[?|?]]; [done|auto|auto].
Qed.

(** ** The deletion of dead logic *)

Lemma vertexAt_unlinkDelete g i j :
  vertexAt (unlinkDelete i g) j
  = if decide (i = j) then None
    else (λ v, set_inEdges (filter (λ e, fromp e ≠ i) (inEdges v)) v)
           <$> vertexAt g j.
Proof.
  unfold vertexAt, unlinkDelete. rewrite list_lookup_fmap, list_lookup_insert.
  case_decide as Hij.
  - destruct Hij as [-> _]. by rewrite decide_True.
  - case_decide as Hij'.
    + subst j. rewrite lookup_ge_None_2; [done|]. lia.
    + by destruct (g !! j) as [[v|]|].
Qed.

Lemma deleteLogic_Ok i s v nodep hybridp :
  vertexAt (m_graph s) i = Some v →
  kind v = OrderLogicVertex nodep hybridp →
  domainp v = m_deleteDomainp →
  deleteLogic i s
  = Ok (tt, {| mem := mem s; m_graph := unlinkDelete i (m_graph s);
               m_logicpsToDelete := m_logicpsToDelete s;
               ast := ast s ∖ {[nodep]} |}).
Proof.
  intros Hv Hk Hd. unfold deleteLogic. rewrite (bind_step _ _ _ s s) by done.
  rewrite Hv. destruct v as [kd dm d es]. cbn in *. subst kd d. done.
Qed.

Lemma deleteLogic_Fatal i s v :
  vertexAt (m_graph s) i = Some v → isLogic v = true →
  domainp v ≠ m_deleteDomainp →
  deleteLogic i s = Fatal "Should have been marked as deleted".
Proof.
  intros Hv Hk Hd. unfold deleteLogic. rewrite (bind_step _ _ _ s s) by done.
  rewrite Hv. destruct v as [kd dm d es]. unfold isLogic in Hk. cbn in *.
  destruct kd; [|done]. apply bind_Fatal. unfold UASSERT.
  by rewrite bool_decide_eq_false_2.
Qed.

Lemma isLogic_kind v : isLogic v = true → ∃ nodep hybridp, kind v = OrderLogicVertex nodep hybridp.
Proof. unfold isLogic. destruct (kind v); [eauto|done]. Qed.

(** The loop over [l], a list of distinct logic vertices of the graph
    whose domain is the sentinel, returns; the vertices of [l] have left
    the graph, with the edges from them and with their logic; the other
    vertices remain. *)
Lemma deleteLoop_Ok l s :
  NoDup l →
  (∀ i, i ∈ l → ∃ v, vertexAt (m_graph s) i = Some v ∧ isLogic v = true ∧
                     domainp v = m_deleteDomainp) →
  ∃ s', forEach deleteLogic l s = Ok (tt, s') ∧
        mem s' = mem s ∧ m_logicpsToDelete s' = m_logicpsToDelete s ∧
        (∀ i, i ∈ l → vertexAt (m_graph s') i = None) ∧
        (∀ j, vertexAt (m_graph s) j = None → vertexAt (m_graph s') j = None) ∧
        (∀ j v, j ∉ l → vertexAt (m_graph s) j = Some v →
                ∃ v', vertexAt (m_graph s') j = Some v' ∧ kind v' = kind v ∧
                      domainp v' = domainp v ∧ domainMatters v' = domainMatters v ∧
                      ∀ e, e ∈ inEdges v' ↔ e ∈ inEdges v ∧ fromp e ∉ l) ∧
        (∀ n, n ∈ ast s' ↔
              n ∈ ast s ∧
              ∀ i v h, i ∈ l → vertexAt (m_graph s) i = Some v →
                       kind v ≠ OrderLogicVertex n h).
Proof.
  intros Hnd. revert s. induction Hnd as [|i l Hi Hnd IH]; intros s Hl.
  { exists s. split; [done|]. split; [done|]. split; [done|].
    split; [intros i Hi; by apply elem_of_nil in Hi|]. split; [done|]. split.
    - intros j v _ Hv. exists v. split; [done|]. split; [done|]. split; [done|].
      split; [done|]. intros e. split; [|by intros [? _]]. intros He.
      split; [done|]. apply not_elem_of_nil.
    - intros n. split; [|by intros [? _]]. intros Hn. split; [done|].
      intros i v h Hi. by apply elem_of_nil in Hi. }
  destruct (Hl i) as (vi & Hvi & Hlog & Hdi); [apply elem_of_cons; by left|].
  destruct (isLogic_kind _ Hlog) as (nodep & hybridp & Hki).
  pose proof (deleteLogic_Ok i s vi nodep hybridp Hvi Hki Hdi) as Hstep.
  set (s1 := {| mem := mem s; m_graph := unlinkDelete i (m_graph s);
                m_logicpsToDelete := m_logicpsToDelete s;
                ast := ast s ∖ {[nodep]} |}) in *.
  assert (∀ j, j ≠ i → vertexAt (m_graph s1) j
            = (λ v, set_inEdges (filter (λ e, fromp e ≠ i) (inEdges v)) v)
                <$> vertexAt (m_graph s) j) as Hother.
  { intros j Hj. cbn. rewrite vertexAt_unlinkDelete. by rewrite decide_False. }
  assert (vertexAt (m_graph s1) i = None) as Hgone.
  { cbn. rewrite vertexAt_unlinkDelete. by rewrite decide_True. }
  destruct (IH s1) as (s' & Hrun & Hmem & Hrec & Hdead & Hnone & Hkeep & Hast).
  { intros k Hk. destruct (Hl k) as (vk & Hvk & Hlk & Hdk); [apply elem_of_cons; by right|].
    rewrite Hother, Hvk by (intros ->; done). eexists. done. }
  exists s'. split; [|split; [done|split; [done|split; [|split; [|split]]]]].
  - apply forEach_Ok. eauto.
  - intros k [->|Hk]%elem_of_cons; auto.
  - intros j Hj. apply Hnone. destruct (decide (j = i)) as [->|Hne]; [done|].
    by rewrite Hother, Hj.
  - intros j v Hj Hv. apply not_elem_of_cons in Hj as [Hji Hjl].
    destruct (Hkeep j (set_inEdges (filter (λ e, fromp e ≠ i) (inEdges v)) v))
      as (v' & Hv' & K & D & Dm & E); [done|by rewrite Hother, Hv|].
    exists v'. repeat split; try done.
    + apply E in H as [H _]. cbn in H. by apply list_elem_of_filter in H as [_ ?].
    + apply E in H as [H1 H2]. cbn in H1. apply list_elem_of_filter in H1 as [? _].
      by apply not_elem_of_cons.
    + intros [He [Hn1 Hn2]%not_elem_of_cons]. apply E. split; [|done].
      cbn. by apply list_elem_of_filter.
  - intros n. rewrite Hast. cbn. rewrite elem_of_difference, elem_of_singleton. split.
    + intros [[Hn Hne] Hrest]. split; [done|]. intros k v h [->|Hk]%elem_of_cons Hv.
      * rewrite Hvi in Hv. injection Hv as <-. rewrite Hki. congruence.
      * assert (k ≠ i) as Hki' by (intros ->; done).
        apply (Hrest k (set_inEdges (filter (λ e, fromp e ≠ i) (inEdges v)) v) h Hk).
        by rewrite Hother, Hv.
    + intros [Hn Hrest]. split; [split; [done|]|].
      * intros ->. by eapply (Hrest i vi hybridp); [apply elem_of_cons; by left|done|].
      * intros k v h Hk Hv. assert (k ≠ i) as Hki' by (intros ->; done).
        rewrite Hother in Hv by done.
        destruct (vertexAt (m_graph s) k) as [vk|] eqn:Hvk; [|done].
        injection Hv as <-. cbn. eapply Hrest; [|done]. apply elem_of_cons. by right.
Qed.

(** ** The report *)

Lemma reportLine_Ok k vscp p m line m' :
  reportLine k vscp p m = Ok (line, m') → m' = m.
Proof.
  unfold reportLine. case_decide; [by intros [= _ <-]|].
  intros Hr. inv_bind Hr. apply deref_Ok in Hc as [_ ->]. by injection Hr as _ <-.
Qed.

Lemma reportLine_deleted k vscp m :
  reportLine k vscp m_deleteDomainp m = Ok (linePrefix k vscp +:+ "DELETED", m).
Proof. unfold reportLine. by rewrite decide_True. Qed.

Lemma reportOf_cons_skip x rest :
  slotKey x = None → reportOf (x :: rest) = reportOf rest.
Proof. destruct x as [[[] ? ? ?]|]; done. Qed.

Lemma reportOf_cons_var x rest k vscp d :
  slotKey x = Some (k, vscp, d) →
  reportOf (x :: rest)
  = (line <- reportLine k vscp d ;; lines <- reportOf rest ;; ret (line :: lines)).
Proof. destruct x as [[[] ? ? ?]|]; try done. by intros [= -> -> ->]. Qed.

Lemma reportOf_Ok vs m ls m' : reportOf vs m = Ok (ls, m') → m' = m.
Proof.
  revert ls m'. induction vs as [|x vs IH]; intros ls m'; [by intros [= _ <-]|].
  destruct (slotKey x) as [[[k vscp] d]|] eqn:Hx.
  - rewrite (reportOf_cons_var _ _ _ _ _ Hx). intros Hr. inv_bind Hr.
    apply reportLine_Ok in Hc as ->. inv_bind Hr. apply IH in Hc as ->.
    by injection Hr as _ <-.
  - rewrite (reportOf_cons_skip _ _ Hx). apply IH.
Qed.

Lemma reportOf_cons_inv x vs m ls :
  reportOf (x :: vs) m = Ok (ls, m) ↔
  match slotKey x with
  | None => reportOf vs m = Ok (ls, m)
  | Some (k, vscp, d) =>
      ∃ line ls', reportLine k vscp d m = Ok (line, m) ∧
                  reportOf vs m = Ok (ls', m) ∧ ls = line :: ls'
  end.
Proof.
  destruct (slotKey x) as [[[k vscp] d]|] eqn:Hx.
  - rewrite (reportOf_cons_var _ _ _ _ _ Hx). split.
    + intros Hr. inv_bind Hr. pose proof (reportLine_Ok _ _ _ _ _ _ Hc) as ->.
      inv_bind Hr. pose proof (reportOf_Ok _ _ _ _ Hc0) as ->.
      injection Hr as <-. eauto.
    + intros (line & ls' & H1 & H2 & ->).
      rewrite (bind_step _ _ _ _ _ H1), (bind_step _ _ _ _ _ H2). done.
  - by rewrite (reportOf_cons_skip _ _ Hx).
Qed.

Lemma reportOf_Permutation vs vs' m ls :
  vs ≡ₚ vs' → reportOf vs m = Ok (ls, m) →
  ∃ ls', reportOf vs' m = Ok (ls', m) ∧ ls ≡ₚ ls'.
Proof.
  intros Hp. revert ls. induction Hp as [|x l l' Hp IH|x y l|l1 l2 l3 _ IH1 _ IH2];
    intros ls Hr.
  - eauto.
  - apply reportOf_cons_inv in Hr. destruct (slotKey x) as [[[k vscp] d]|] eqn:Hx.
    + destruct Hr as (line & ls0 & H1 & H2 & ->).
      destruct (IH _ H2) as (ls' & H' & Hperm).
      exists (line :: ls'). split; [|by constructor].
      apply reportOf_cons_inv. rewrite Hx. eauto.
    + destruct (IH _ Hr) as (ls' & H' & Hperm).
      exists ls'. split; [|done]. apply reportOf_cons_inv. by rewrite Hx.
  - apply reportOf_cons_inv in Hr.
    destruct (slotKey y) as [[[ky vy] dy]|] eqn:Hy;
      [destruct Hr as (liney & ls0 & Hy1 & Hr & ->)|];
      apply reportOf_cons_inv in Hr;
      (destruct (slotKey x) as [[[kx vx] dx]|] eqn:Hx;
       [destruct Hr as (linex & ls1 & Hx1 & Hr & ->)|]).
    + exists (linex :: liney :: ls1). split; [|apply perm_swap].
      apply reportOf_cons_inv. rewrite Hx. eexists _, _. split; [done|].
      split; [|done]. apply reportOf_cons_inv. rewrite Hy. eauto.
    + exists (liney :: ls0). split; [|done].
      apply reportOf_cons_inv. rewrite Hx.
      apply reportOf_cons_inv. rewrite Hy. eauto.
    + exists (linex :: ls1). split; [|done].
      apply reportOf_cons_inv. rewrite Hx. eexists _, _. split; [done|].
      split; [|done]. apply reportOf_cons_inv. by rewrite Hy.
    + exists ls. split; [|done].
      apply reportOf_cons_inv. rewrite Hx.
      apply reportOf_cons_inv. by rewrite Hy.
  - destruct (IH1 _ Hr) as (ls2 & H2 & P12).
    destruct (IH2 _ H2) as (ls3 & H3 & P23).
    exists ls3. split; [done|]. by etrans.
Qed.

Lemma reportOf_elem vs m ls v k vscp :
  reportOf vs m = Ok (ls, m) → Some v ∈ vs → kind v = OrderVarVertex k vscp →
  ∃ line, reportLine k vscp (domainp v) m = Ok (line, m) ∧ line ∈ ls.
Proof.
  revert ls. induction vs as [|x vs IH]; intros ls Hr Hin Hk.
  { by apply elem_of_nil in Hin. }
  apply reportOf_cons_inv in Hr. apply elem_of_cons in Hin as [<-|Hin].
  - cbn in Hr. rewrite Hk in Hr. destruct Hr as (line & ls' & H1 & _ & ->).
    exists line. split; [done|]. apply elem_of_cons. by left.
  - destruct (slotKey x) as [[[k' vscp'] d']|].
    + destruct Hr as (line' & ls' & _ & H2 & ->).
      destruct (IH _ H2 Hin Hk) as (line & ? & ?). exists line. split; [done|].
      apply elem_of_cons. by right.
    + eauto.
Qed.

Lemma reportOf_total vs m :
  (∀ v k vscp, Some v ∈ vs → kind v = OrderVarVertex k vscp →
               domainp v = m_deleteDomainp ∨ is_Some (heap m !! domainp v)) →
  ∃ ls, reportOf vs m = Ok (ls, m).
Proof.
  induction vs as [|x vs IH]; intros Hall; [by exists []|].
  destruct IH as (ls & Hls).
  { intros v k vscp Hin. apply Hall. apply elem_of_cons. by right. }
  destruct (slotKey x) as [[[k vscp] d]|] eqn:Hx.
  - assert (∃ line, reportLine k vscp d m = Ok (line, m)) as (line & Hline).
    { destruct x as [v|]; [|done]. cbn in Hx.
      destruct (kind v) as [|k' vscp'] eqn:Hk; [done|]. injection Hx as -> -> <-.
      unfold reportLine. case_decide; [eauto|].
      destruct (Hall v k vscp) as [?|[t Ht]]; [apply elem_of_cons; by left|done|done|].
      unfold bind, deref. rewrite Ht. eauto. }
    exists (line :: ls). apply reportOf_cons_inv. rewrite Hx. eauto.
  - exists ls. apply reportOf_cons_inv. by rewrite Hx.
Qed.

Lemma processEdgeReport_Ok s lines s' :
  processEdgeReport s = Ok (lines, s') ↔
  s' = s ∧ new_ofstream_fails logFilename = false ∧
  ∃ report, reportOf (m_graph s) (mem s) = Ok (report, mem s) ∧
            lines = stable_sort report.
Proof.
  unfold processEdgeReport. cbv zeta.
  destruct (new_ofstream_fails logFilename).
  { split; [done|]. by intros (_ & ? & _). }
  rewrite (bind_step _ _ _ s s) by done.
  unfold bind, liftMem, ret. split.
  - destruct (reportOf (m_graph s) (mem s)) as [[report m']| |] eqn:Hr; [|done|done].
    pose proof (reportOf_Ok _ _ _ _ Hr) as ->. intros [= <- <-].
    split; [by destruct s|]. split; [done|]. eauto.
  - intros (-> & _ & report & -> & ->). by destruct s.
Qed.

Lemma processEdgeReport_fails s :
  new_ofstream_fails logFilename = true →
  processEdgeReport s = Fatal ("Can't write file: " +:+ logFilename).
Proof. intros Hf. unfold processEdgeReport. cbv zeta. by rewrite Hf. Qed.

Lemma StronglySorted_strict (l : list string) :
  StronglySorted String.le l → NoDup l → StronglySorted (strict String.le) l.
Proof.
  induction 1 as [|x l Hl IH Hx]; intros Hnd; [constructor|].
  apply NoDup_cons in Hnd as [Hx' Hnd]. constructor; [auto|].
  apply Forall_forall. intros y Hy. split.
  - by apply (Forall_forall (String.le x) l).
  - intros Hyx. assert (x = y) as ->; [|done].
    apply (anti_symm String.le); [|done]. by apply (Forall_forall (String.le x) l).
Qed.

(** C8. The lines of the report, as processEdgeReport writes them, are
    sorted by the lexicographic order of strings, and strictly so when no
    two lines are equal; they are the lines of the variable vertices, and
    they do not depend on the order in which the loop meets the vertices:
    from the same memory and any permutation of the vertices the lines
    written are the same. The state is left as it was. *)
Theorem report_sorted (s s' : State) (lines : list string) :
  processEdgeReport s = Ok (lines, s') →
  s' = s ∧
  StronglySorted String.le lines ∧
  (NoDup lines → StronglySorted (strict String.le) lines) ∧
  (∃ report, reportOf (m_graph s) (mem s) = Ok (report, mem s) ∧
             lines ≡ₚ report) ∧
  (∀ s2 lines2 s2',
     mem s2 = mem s → m_graph s2 ≡ₚ m_graph s →
     processEdgeReport s2 = Ok (lines2, s2') → lines2 = lines).
Proof.
  intros (-> & _ & report & Hrep & ->)%processEdgeReport_Ok.
  assert (StronglySorted String.le (stable_sort report)) as Hsorted.
  { apply StronglySorted_merge_sort; apply _. }
  split; [done|]. split; [done|]. split; [by apply StronglySorted_strict|].
  split; [exists report; split; [done|apply merge_sort_Permutation]|].
  intros s2 lines2 s2' Hmem Hperm (-> & _ & report2 & Hrep2 & ->)%processEdgeReport_Ok.
  rewrite Hmem in Hrep2.
  destruct (reportOf_Permutation _ _ _ _ Hperm Hrep2) as (report' & Hrep' & Hp).
  rewrite Hrep in Hrep'. injection Hrep' as <-.
  apply (Sorted_unique String.le).
  - apply Sorted_merge_sort. apply _.
  - apply Sorted_merge_sort. apply _.
  - unfold stable_sort. by rewrite !merge_sort_Permutation.
Qed.

(** ** The constructor *)

Lemma constructor_Ok dl s r s2 :
  V3OrderProcessDomains dl s = Ok (r, s2) →
  ∃ s1, processDomains (resetState s) = Ok (tt, s1) ∧
        match r with
        | Some lines => dl = true ∧ processEdgeReport s1 = Ok (lines, s1)
        | None => dl = false
        end ∧
        forEach deleteLogic (m_logicpsToDelete s1) s1 = Ok (tt, s2).
Proof.
  unfold V3OrderProcessDomains. intros Hr.
  apply bind_Ok in Hr as ([] & s0 & [= <-] & Hr).
  apply bind_Ok in Hr as ([] & s1 & Hpass & Hr).
  exists s1. split; [exact Hpass|].
  apply bind_Ok in Hr as (report & sa & Hrep & Hr).
  apply bind_Ok in Hr as (sb & sc & [= <- <-] & Hr).
  apply bind_Ok in Hr as ([] & sd & Hdel & [= <- <-]).
  destruct dl.
  - apply bind_Ok in Hrep as (lines & sr & Hrep & [= <- <-]).
    destruct (processEdgeReport_Ok s1 lines sr) as [Hinv _].
    destruct (Hinv Hrep) as (-> & _). done.
  - injection Hrep as <- <-. done.
Qed.

Lemma constructor_run s s1 s2 :
  processDomains (resetState s) = Ok (tt, s1) →
  forEach deleteLogic (m_logicpsToDelete s1) s1 = Ok (tt, s2) →
  V3OrderProcessDomains false s = Ok (None, s2).
Proof.
  intros H1 H2. unfold V3OrderProcessDomains.
  rewrite (bind_step _ _ _ tt (resetState s)) by done.
  rewrite (bind_step _ _ _ _ _ H1).
  rewrite (bind_step _ _ _ None s1) by done.
  rewrite (bind_step _ _ _ s1 s1) by done.
  rewrite (bind_step _ _ _ _ _ H2). done.
Qed.

Lemma recorded_ok_reset s : recorded_ok (resetState s).
Proof.
  split; [apply NoDup_nil_2|]. intros i Hi. by apply elem_of_nil in Hi.
Qed.

Lemma processDomains_recorded s s1 :
  processDomains (resetState s) = Ok (tt, s1) → recorded_ok s1.
Proof.
  intros (_ & _ & _ & _ & _ & Hrec)%processDomains_pass_le.
  apply Hrec, recorded_ok_reset.
Qed.

Lemma processVertex_dead i s v m1 :
  vertexAt (m_graph s) i = Some v → domainp v = nullptr →
  workingDomain (m_graph s) v (mem s) = Ok (nullptr, m1) →
  processVertex i s = Ok (tt, withDomain i v m_deleteDomainp (isLogic v) m1 s).
Proof.
  intros Hv Hd Hw. unfold processVertex. rewrite (bind_step _ _ _ s s) by done.
  rewrite Hv, decide_True by done. unfold bind, liftMem. rewrite Hw.
  by rewrite decide_True.
Qed.

(** C1. When the working domain of a vertex without domain is still unset
    after the loop over its incoming edges, processVertex assigns the
    delete sentinel to the vertex and, if it is a logic vertex, appends it
    to the recorded dead logic. processDomains itself removes no vertex and
    no logic. When the constructor returns, every recorded vertex was a
    logic vertex with the sentinel as its domain at the end of
    processDomains, and now it has left the graph, no vertex has an edge
    from it, and its logic has left the netlist. The loop over the
    recorded vertices fails with a fatal assertion on a logic vertex whose
    domain is not the sentinel; after processDomains it never does: the
    constructor returns whenever processDomains does. *)
Theorem dead_logic_removed :
  (∀ s i v m1,
     vertexAt (m_graph s) i = Some v → domainp v = nullptr →
     workingDomain (m_graph s) v (mem s) = Ok (nullptr, m1) →
     processVertex i s
     = Ok (tt, withDomain i v m_deleteDomainp (isLogic v) m1 s)) ∧
  (∀ s s1,
     processDomains s = Ok (tt, s1) →
     ast s1 = ast s ∧
     ∀ j, is_Some (vertexAt (m_graph s1) j) ↔ is_Some (vertexAt (m_graph s) j)) ∧
  (∀ dl s r s2,
     V3OrderProcessDomains dl s = Ok (r, s2) →
     ∃ s1, processDomains (resetState s) = Ok (tt, s1) ∧
           ∀ i, i ∈ m_logicpsToDelete s1 →
                ∃ v nodep hybridp,
                  vertexAt (m_graph s1) i = Some v ∧
                  kind v = OrderLogicVertex nodep hybridp ∧
                  domainp v = m_deleteDomainp ∧
                  vertexAt (m_graph s2) i = None ∧
                  (nodep ∉ ast s2) ∧
                  ∀ j vj e, vertexAt (m_graph s2) j = Some vj →
                            e ∈ inEdges vj → fromp e ≠ i) ∧
  (∀ s i v,
     vertexAt (m_graph s) i = Some v → isLogic v = true →
     domainp v ≠ m_deleteDomainp →
     deleteLogic i s = Fatal "Should have been marked as deleted") ∧
  (∀ s s1,
     processDomains (resetState s) = Ok (tt, s1) →
     ∃ s2, V3OrderProcessDomains false s = Ok (None, s2)).
Proof.
  split; [intros s i; apply processVertex_dead|]. split; [|split; [|split]].
  - intros s s1 (Hg & Hast & _)%processDomains_pass_le. split; [done|].
    intros j. destruct Hg as [_ Hg]. specialize (Hg j).
    destruct (vertexAt (m_graph s) j) as [v|].
    + destruct Hg as (v' & -> & _). split; eauto.
    + rewrite Hg. done.
  - intros dl s r s2 (s1 & Hpass & _ & Hdel)%constructor_Ok.
    exists s1. split; [done|]. intros i Hi.
    destruct (processDomains_recorded _ _ Hpass) as [Hnd Hrec].
    destruct (deleteLoop_Ok _ s1 Hnd Hrec)
      as (s2' & Hrun & _ & _ & Hdead & Hnone & Hkeep & Hast).
    rewrite Hdel in Hrun. injection Hrun as <-.
    destruct (Hrec i Hi) as (v & Hv & Hlog & Hd).
    destruct (isLogic_kind _ Hlog) as (nodep & hybridp & Hk).
    exists v, nodep, hybridp. split; [done|]. split; [done|]. split; [done|].
    split; [auto|]. split.
    + intros [_ Hn]%Hast. by eapply Hn.
    + intros j vj e Hvj He Heq.
      destruct (decide (j ∈ m_logicpsToDelete s1)) as [Hj|Hj].
      { rewrite Hdead in Hvj by done. done. }
      destruct (vertexAt (m_graph s1) j) as [vj1|] eqn:Hvj1.
      * destruct (Hkeep j vj1 Hj Hvj1) as (v' & Hv' & _ & _ & _ & E).
        rewrite Hvj in Hv'. injection Hv' as <-. apply E in He as [_ Hne].
        apply Hne. by rewrite Heq.
      * rewrite Hnone in Hvj by done. done.
  - intros s i v. apply deleteLogic_Fatal.
  - intros s s1 Hpass.
    destruct (processDomains_recorded _ _ Hpass) as [Hnd Hrec].
    destruct (deleteLoop_Ok _ s1 Hnd Hrec) as (s2 & Hrun & _).
    exists s2. by eapply constructor_run.
Qed.

Lemma vertexAt_elem (g : OrderGraph) j v : vertexAt g j = Some v → Some v ∈ g.
Proof.
  unfold vertexAt. destruct (g !! j) as [[v'|]|] eqn:Hj; try done.
  intros [= ->]. by eapply list_elem_of_lookup_2.
Qed.

(** C10. When the constructor returns, the recorded dead logic holds logic
    vertices only; a variable vertex of the graph is not recorded, and it
    is still a vertex of the graph afterwards, of the same kind and with
    the domain that processDomains left it, the sentinel included; and the
    report, when there is one, has for each variable vertex whose domain is
    the sentinel the line that ends in DELETED. *)
Theorem variables_not_deleted (dl : bool) (s s2 : State) (r : option (list string)) :
  V3OrderProcessDomains dl s = Ok (r, s2) →
  ∃ s1, processDomains (resetState s) = Ok (tt, s1) ∧
        (∀ i, i ∈ m_logicpsToDelete s1 →
              ∃ v, vertexAt (m_graph s1) i = Some v ∧ isLogic v = true) ∧
        (∀ j v, vertexAt (m_graph s) j = Some v → isLogic v = false →
                (j ∉ m_logicpsToDelete s1) ∧
                ∃ v1 v2, vertexAt (m_graph s1) j = Some v1 ∧
                         vertexAt (m_graph s2) j = Some v2 ∧
                         kind v1 = kind v ∧ kind v2 = kind v ∧
                         domainp v2 = domainp v1) ∧
        (∀ lines j v1 k vscp,
           r = Some lines → vertexAt (m_graph s1) j = Some v1 →
           kind v1 = OrderVarVertex k vscp →
           domainp v1 = m_deleteDomainp →
           linePrefix k vscp +:+ "DELETED" ∈ lines).
Proof.
  intros (s1 & Hpass & Hrep & Hdel)%constructor_Ok. exists s1.
  split; [done|].
  destruct (processDomains_recorded _ _ Hpass) as [Hnd Hrec].
  destruct (deleteLoop_Ok _ s1 Hnd Hrec)
    as (s2' & Hrun & _ & _ & Hdead & Hnone & Hkeep & Hast).
  rewrite Hdel in Hrun. injection Hrun as <-.
  split; [|split].
  - intros i (v & Hv & Hlog & _)%Hrec. eauto.
  - intros j v Hv Hvar.
    destruct (processDomains_pass_le _ _ Hpass) as ([_ Hg] & _).
    specialize (Hg j). cbn in Hg. rewrite Hv in Hg.
    destruct Hg as (v1 & Hv1 & Hk1 & _).
    assert (j ∉ m_logicpsToDelete s1) as Hj.
    { intros (v' & Hv' & Hlog & _)%Hrec. rewrite Hv1 in Hv'. injection Hv' as <-.
      unfold isLogic in *. rewrite Hk1 in Hlog. congruence. }
    split; [done|].
    destruct (Hkeep j v1 Hj Hv1) as (v2 & Hv2 & Hk2 & Hd2 & _).
    exists v1, v2. repeat split; try done. congruence.
  - intros lines j v1 k vscp -> Hv1 Hk Hd. destruct Hrep as [_ Hrep].
    apply processEdgeReport_Ok in Hrep as (_ & _ & report & Hrep & ->).
    destruct (reportOf_elem _ _ _ v1 k vscp Hrep) as (line & Hline & Hin);
      [by eapply vertexAt_elem|done|].
    rewrite Hd, reportLine_deleted in Hline. injection Hline as <-.
    unfold stable_sort. by rewrite merge_sort_Permutation.
Qed.

(** ** Merging in either order *)



Lemma find_None_elem {A} (f : A → bool) (l : list A) x :
  List.find f l = None → x ∈ l → f x = false.
Proof.
  intros Hn Hx. apply list_elem_of_In in Hx. by eapply List.find_none in Hn.
Qed.



(** * Further properties *)

(** ** What combineDomains does to the memory *)

(** The three ways combineDomains returns, with the memory it leaves. *)
Lemma combineDomains_shape ap bp m r m' :
  combineDomains ap bp m = Ok (r, m') →
  is_Some (heap m !! bp) →
  (ap = bp ∧ r = ap ∧ m' = m) ∨
  (ap ≠ bp ∧ ap = m_deleteDomainp ∧ r = bp ∧ m' = m) ∨
  (ap ≠ bp ∧ ap ≠ m_deleteDomainp ∧
   ∃ ta tb, heap m !! ap = Some ta ∧ heap m !! bp = Some tb ∧
            sensesp tb ≠ [] ∧
            r = (if backp ta then newp (heap m) else ap) ∧
            r ≠ bp ∧
            m' = set_heap
                   ((if backp tb then id else delete bp)
                      (<[r := {| backp := false;
                                 sensesp := sensesp ta ++ sensesp tb;
                                 isMulti := isMulti ta |}]> (heap m))) m).
Proof.
  intros Hr [tb Hb]. revert Hr. rewrite combineDomains_eq.
  case_decide as Hab; [intros [= <- <-]; by left|].
  case_decide as Ha; [intros [= <- <-]; right; by left|].
  case_decide as Hbd; [intros Hr; by apply assert_obj_Ok in Hr|].
  intros Hr. right. right. split; [done|]. split; [done|].
  apply bind_Ok in Hr as (ta & m0 & Hd & Hr). apply deref_Ok in Hd as [Hta ->].
  apply bind_Ok in Hr as (sen & m1 & Hsen & Hr).
  exists ta, tb. split; [done|]. split; [done|].
  assert (sen = (if backp ta then newp (heap m) else ap) ∧ sen ≠ bp ∧
          heap m1 !! bp = Some tb ∧
          heap m1 !! sen = Some {| backp := false; sensesp := sensesp ta;
                                   isMulti := isMulti ta |} ∧
          ∀ T, <[sen := T]> (heap m1) = <[sen := T]> (heap m)) as
    (Hs & Hsb & Hb1 & Hs1 & Hins).
  { destruct (backp ta) eqn:Hbt.
    - unfold cloneTree, alloc in Hsen. injection Hsen as <- <-.
      assert (newp (heap m) ≠ bp) as Hne.
      { intros Heq. pose proof (newp_fresh (heap m)) as Hf. congruence. }
      split; [done|]. split; [done|]. cbn.
      rewrite lookup_insert_ne by done. rewrite lookup_insert_eq.
      split; [done|]. split; [done|]. intros T. apply insert_insert_eq.
    - injection Hsen as <- <-. split; [done|]. split; [done|].
      split; [done|]. split; [|done]. rewrite Hta. f_equal.
      destruct ta; cbn in *. by subst. }
  apply bind_Ok in Hr as (tb' & m2 & Hd & Hr). apply deref_Ok in Hd as [Htb' ->].
  rewrite Hb1 in Htb'. injection Htb' as <-.
  assert (∃ m3, addSensesp sen (sensesp tb) m1 = Ok (tt, m3) ∧
                sensesp tb ≠ [] ∧
                heap m3 = <[sen := {| backp := false;
                                      sensesp := sensesp ta ++ sensesp tb;
                                      isMulti := isMulti ta |}]> (heap m) ∧
                m_finder m3 = m_finder m1 ∧
                ((if backp tb then ret sen
                  else deleteTree bp ;;; ret sen) m3 = Ok (r, m'))) as
    (m3 & _ & Hne & Hh3 & Hf3 & Hrest).
  { destruct (backp tb);
      apply bind_Ok in Hr as ([] & m3 & Hadd & Hr);
      pose proof (addSensesp_Ok _ _ _ _ Hadd) as (t & Hne & Ht & [= ->]);
      rewrite Hs1 in Ht; injection Ht as <-; cbn;
      (eexists; split; [exact Hadd|split; [done|split; [apply Hins|split; [done|exact Hr]]]]). }
  assert (m_finder m1 = m_finder m) as Hf1.
  { destruct (backp ta); [unfold cloneTree, alloc in Hsen|]; by injection Hsen as _ <-. }
  split; [done|]. rewrite <- Hs.
  destruct (backp tb).
  - injection Hrest as <- <-. split; [done|]. split; [done|].
    destruct m3 as [h3 f3]. cbn in *. unfold set_heap. cbn. congruence.
  - apply bind_Ok in Hrest as ([] & m4 & [= <-] & [= <- <-]).
    split; [done|]. split; [done|].
    destruct m3 as [h3 f3]. cbn in *. unfold set_heap. cbn. congruence.
Qed.

Lemma itemsAt_sentinel h : h !! m_deleteDomainp = None → itemsAt h m_deleteDomainp = [].
Proof. unfold itemsAt. by intros ->. Qed.

Lemma combineDomains_mem (ap bp r : Z) (m m' : Mem) :
  combineDomains ap bp m = Ok (r, m') →
  heap m !! m_deleteDomainp = None →
  is_Some (heap m !! bp) →
  (∀ x, x ∈ itemsAt (heap m') r ↔
        x ∈ itemsAt (heap m) ap ∨ x ∈ itemsAt (heap m) bp) ∧
  (∀ q t, backp t = true → heap m' !! q = Some t ↔ heap m !! q = Some t) ∧
  (∀ q t, backp t = false → heap m' !! q = Some t →
          q = r ∨ (heap m !! q = Some t ∧ q ≠ ap ∧ q ≠ bp)) ∧
  (∀ q t, heap m !! q = Some t → q ≠ ap → q ≠ bp → heap m' !! q = Some t) ∧
  is_Some (heap m' !! r) ∧
  m_finder m' = m_finder m.
Proof.
  intros Hr Hdel Hb.
  destruct (combineDomains_shape _ _ _ _ _ Hr Hb) as
    [(-> & -> & ->)|[(Hab & -> & -> & ->)|(Hab & Ha & ta & tb & Hta & Htb & Hne & Hrr & Hrb & ->)]].
  - split; [intros x; by split; [left|intros [?|?]]|]. split; [done|].
    split; [|done]. intros q t Hbt Hq. destruct (decide (q = bp)); auto.
  - split.
    { intros x. rewrite (itemsAt_sentinel _ Hdel). split; [by right|].
      intros [Hx|?]; [by apply elem_of_nil in Hx|done]. }
    split; [done|]. split; [|done]. intros q t Hbt Hq.
    destruct (decide (q = bp)) as [|Hqb]; [by left|]. right.
    split; [done|]. split; [|done]. intros ->. congruence.
  - set (T := {| backp := false; sensesp := sensesp ta ++ sensesp tb;
                 isMulti := isMulti ta |}) in *.
    assert (∀ q, heap (set_heap ((if backp tb then id else delete bp)
                                   (<[r := T]> (heap m))) m) !! q
                 = if decide (q = bp ∧ backp tb = false) then None
                   else if decide (q = r) then Some T else heap m !! q) as Hlook.
    { intros q. cbn. destruct (backp tb) eqn:Hbb; cbn.
      - rewrite decide_False by (intros [_ ?]; done).
        rewrite lookup_insert. by repeat case_decide.
      - rewrite lookup_delete. case_decide as Hq.
        + subst q. by rewrite decide_True.
        + rewrite decide_False by (intros [? _]; done).
          rewrite lookup_insert. by repeat case_decide. }
    assert (r ≠ ap → heap m !! r = None ∧ backp ta = true) as Hfresh.
    { intros Hra. destruct (backp ta); [|done]. subst r. split; [apply newp_fresh|done]. }
    split; [|split; [|split; [|split; [|split]]]].
    + intros x. unfold itemsAt at 1. rewrite Hlook.
      rewrite decide_False by (intros [? _]; done). rewrite decide_True by done.
      unfold itemsAt. rewrite Hta, Htb. cbn. apply elem_of_app.
    + intros q t Hbt. rewrite Hlook.
      destruct (decide (q = bp ∧ backp tb = false)) as [[-> Hbb]|Hq1].
      { split; [done|]. intros Hq. congruence. }
      destruct (decide (q = r)) as [Hq2|Hq2]; [|done]. subst q. split; [intros [= <-]; done|].
      intros Hq. destruct (decide (r = ap)) as [->|Hra].
      * destruct (backp ta) eqn:Hbta; [|congruence].
        pose proof (newp_fresh (heap m)). congruence.
      * destruct (Hfresh Hra). congruence.
    + intros q t Hbt. rewrite Hlook.
      destruct (decide (q = bp ∧ backp tb = false)) as [|Hq1]; [done|].
      destruct (decide (q = r)) as [Hq2|Hq2]; [by left|]. intros Hq. right. split; [done|]. split.
      * intros ->. destruct (backp ta) eqn:Hbta; congruence.
      * intros ->. apply Hq1. split; [done|]. congruence.
    + intros q t Hq Hqa Hqb. rewrite Hlook.
      rewrite decide_False by (intros [? _]; done).
      destruct (decide (q = r)) as [Hq2|Hq2]; [|done]. subst q.
      destruct (Hfresh Hqa). congruence.
    + rewrite Hlook. rewrite decide_False by (intros [? _]; done).
      by rewrite decide_True.
    + done.
Qed.

(** X1. Let combineDomains return, for a second argument that addresses a
    tree, in a memory without object at the sentinel address. The items of
    the tree it returns are those of its two arguments; the global trees of
    the memory are the same before and after, content included; a
    transient tree of the memory afterwards is the result or was there
    before with the same content, and is none of the arguments: a
    transient second argument is gone; a tree that is none of the arguments
    is kept; the result addresses a tree; the finder is unchanged. *)
Theorem combineDomains_effect (ap bp r : Z) (m m' : Mem) :
  combineDomains ap bp m = Ok (r, m') →
  heap m !! m_deleteDomainp = None →
  is_Some (heap m !! bp) →
  (∀ x, x ∈ itemsAt (heap m') r ↔
        x ∈ itemsAt (heap m) ap ∨ x ∈ itemsAt (heap m) bp) ∧
  (∀ q t, backp t = true → heap m' !! q = Some t ↔ heap m !! q = Some t) ∧
  (∀ q t, backp t = false → heap m' !! q = Some t →
          q = r ∨ (heap m !! q = Some t ∧ q ≠ ap ∧ q ≠ bp)) ∧
  (∀ q t, heap m !! q = Some t → q ≠ ap → q ≠ bp → heap m' !! q = Some t) ∧
  is_Some (heap m' !! r) ∧
  m_finder m' = m_finder m.
Proof. apply combineDomains_mem. Qed.

(** ** What the loops do to the memory *)

Lemma same_canon_refl m : same_canon m m.
Proof. by intros q t _. Qed.

Lemma same_canon_trans m1 m2 m3 :
  same_canon m1 m2 → same_canon m2 m3 → same_canon m1 m3.
Proof. intros H12 H23 q t Hb. rewrite (H23 q t Hb). by apply H12. Qed.

Lemma same_canon_itemsAt m m' p t :
  same_canon m m' → heap m' !! p = Some t → backp t = true →
  itemsAt (heap m') p = itemsAt (heap m) p.
Proof.
  intros Hsc Hp Hb. unfold itemsAt. rewrite Hp.
  apply (Hsc p t Hb) in Hp. by rewrite Hp.
Qed.

Lemma mem_wf_live_real m p : mem_wf m → is_Some (heap m !! p) → realDomain p.
Proof.
  intros (H0 & H1 & _) [t Ht]. split; intros ->; congruence.
Qed.

Lemma externalLoop_mem exts acc m r m' :
  externalLoop exts acc m = Ok (r, m') →
  mem_wf m →
  acc = m_deleteDomainp ∨ is_Some (heap m !! acc) →
  (∀ x, x ∈ itemsAt (heap m') r ↔
        x ∈ itemsAt (heap m) acc ∨ ∃ p, p ∈ exts ∧ x ∈ itemsAt (heap m) p) ∧
  same_canon m m' ∧
  (∀ q t, backp t = false → heap m' !! q = Some t →
          q = r ∨ (heap m !! q = Some t ∧ q ≠ acc)) ∧
  (∀ q t, heap m !! q = Some t → backp t = true ∨ q ≠ acc →
          heap m' !! q = Some t) ∧
  (r = m_deleteDomainp ∨ is_Some (heap m' !! r)) ∧
  (r = m_deleteDomainp → acc = m_deleteDomainp ∧ exts = []) ∧
  Forall (λ p, ∃ t, heap m !! p = Some t ∧ backp t = true ∧ hasCombo t = false)
         exts ∧
  mem_wf m' ∧ m_finder m' = m_finder m.
Proof.
  revert acc m. induction exts as [|e rest IH]; intros acc m Hr Hwf Hacc.
  { injection Hr as <- <-.
    split; [intros x; split; [by left|intros [?|(p & Hp & _)]; [done|by apply elem_of_nil in Hp]]|].
    split; [apply same_canon_refl|].
    split; [intros q t _ Hq; destruct (decide (q = acc)); auto|].
    split; [done|]. split; [done|]. split; [done|]. split; [constructor|]. done. }
  cbn in Hr.
  apply bind_Ok in Hr as (te & m0 & Hd & Hr). apply deref_Ok in Hd as [Hte ->].
  apply bind_Ok in Hr as ([] & m0 & Hu & Hr). apply UASSERT_Ok in Hu as [Hcombo [= ->]].
  apply bind_Ok in Hr as ([] & m0 & Hu & Hr). apply UASSERT_Ok in Hu as [Hback [= ->]].
  apply bind_Ok in Hr as (r1 & m1 & Hcomb & Hr).
  apply negb_true_iff in Hcombo.
  pose proof Hwf as (_ & Hdel & _).
  destruct (combineDomains_mem _ _ _ _ _ Hcomb Hdel ltac:(eauto))
    as (C1 & C2 & C3 & C4 & C5 & C6).
  assert (mem_wf m1) as Hwf1.
  { eapply mem_wf_le; [exact Hwf|]. by eapply combineDomains_canon_le. }
  destruct (IH _ _ Hr Hwf1 ltac:(by right))
    as (E1 & E2 & E3 & E4 & E5 & E6 & E7 & E8 & E9).
  assert (r1 = acc ∨ (r1 = e ∧ acc = m_deleteDomainp) ∨ r1 = newp (heap m)) as Hr1
    by by eapply combineDomains_result.
  assert (∀ p, p ∈ rest → ∃ t, heap m !! p = Some t ∧ backp t = true ∧
                               hasCombo t = false) as Hrest.
  { intros p Hp. rewrite Forall_forall in E7.
    destruct (E7 p Hp) as (t & Ht & Hb & Hc). exists t. split; [|done].
    by apply (C2 p t Hb). }
  split; [|split; [|split; [|split; [|split; [|split; [|split; [|split]]]]]]].
  - intros x. rewrite E1, C1. split.
    + intros [[?|?]|(p & Hp & Hx)]; [by left| |].
      * right. exists e. split; [apply elem_of_cons; by left|done].
      * right. exists p. split; [apply elem_of_cons; by right|].
        destruct (Hrest p Hp) as (t & Ht & Hb & _).
        rewrite <- (same_canon_itemsAt m m1 p t); [done|done| |done].
        by apply (C2 p t Hb).
    + intros [?|(p & [->|Hp]%elem_of_cons & Hx)]; [left; by left|left; by right|].
      right. exists p. split; [done|].
      destruct (Hrest p Hp) as (t & Ht & Hb & _).
      rewrite (same_canon_itemsAt m m1 p t); [done|done| |done].
      by apply (C2 p t Hb).
  - by eapply same_canon_trans.
  - intros q t Hb Hq. destruct (E3 q t Hb Hq) as [?|[Hq1 Hne]]; [by left|].
    destruct (C3 q t Hb Hq1) as [?|(? & ? & ?)]; [done|by right].
  - intros q t Hq Hcase. destruct (backp t) eqn:Hb.
    + apply (E2 q t Hb). by apply (C2 q t Hb).
    + destruct Hcase as [?|Hqa]; [done|].
      assert (q ≠ e) as Hqe by (intros ->; congruence).
      apply E4; [by apply C4|]. right.
      destruct Hr1 as [->|[[-> _]| ->]]; [done|done|].
      intros ->. pose proof (newp_fresh (heap m)). congruence.
  - done.
  - intros ->. destruct (E6 eq_refl) as [-> _].
    destruct C5 as [t Ht]. destruct Hwf1 as (_ & Hd1 & _). congruence.
  - constructor; [eauto|]. by apply Forall_forall.
  - done.
  - congruence.
Qed.

Lemma elem_of_concat_itemsAt h ps x :
  x ∈ concat (itemsAt h <$> ps) ↔ ∃ p, p ∈ ps ∧ x ∈ itemsAt h p.
Proof.
  induction ps as [|p ps IH]; cbn.
  - split; [by intros ?%elem_of_nil|by intros (p & ?%elem_of_nil & _)].
  - rewrite elem_of_app, IH. split.
    + intros [?|(q & ? & ?)].
      * exists p. split; [apply elem_of_cons; by left|done].
      * exists q. split; [apply elem_of_cons; by right|done].
    + intros (q & [->|?]%elem_of_cons & ?); [by left|right; eauto].
Qed.

Lemma itemsAt_null m : mem_wf m → itemsAt (heap m) nullptr = [].
Proof. intros (H0 & _). unfold itemsAt. by rewrite H0. Qed.

(** The external domains that the loop reads for a source vertex. *)
Lemma processInEdge_unfold g e d0 m fv :
  vertexAt g (fromp e) = Some fv → weight e ≠ 0 → domainMatters fv = true →
  processInEdge g e d0 m
  = (checkFromDomain (domainp fv) ;;;
     fromDomainp <- externalLoop
                      match kind fv with
                      | OrderVarVertex _ vscp => m_externalDomains vscp
                      | OrderLogicVertex _ _ => []
                      end (domainp fv) ;;
     if decide (fromDomainp = m_deleteDomainp) then ret d0
     else if decide (d0 = nullptr) then ret fromDomainp
     else combineDomains d0 fromDomainp) m.
Proof.
  intros Hfv Hw Hm. unfold processInEdge. rewrite Hfv, decide_False, Hm by done.
  cbn. by destruct (kind fv).
Qed.

Lemma edgeItems_unfold h g e fv :
  vertexAt g (fromp e) = Some fv → weight e ≠ 0 → domainMatters fv = true →
  edgeItems h g e
  = itemsAt h (domainp fv)
    ++ concat (itemsAt h <$> match kind fv with
                             | OrderVarVertex _ vscp => m_externalDomains vscp
                             | OrderLogicVertex _ _ => []
                             end).
Proof.
  intros Hfv Hw Hm. unfold edgeItems. rewrite Hfv, decide_False, Hm by done.
  cbn. by destruct (kind fv).
Qed.

Lemma edgeItems_cut h g e fv :
  vertexAt g (fromp e) = Some fv → weight e = 0 ∨ domainMatters fv = false →
  edgeItems h g e = [].
Proof.
  intros Hfv Hcase. unfold edgeItems. rewrite Hfv.
  case_decide; [done|]. destruct Hcase as [?|Hm]; [done|]. by rewrite Hm.
Qed.

Lemma processInEdge_mem g e d0 m d m' :
  processInEdge g e d0 m = Ok (d, m') →
  mem_wf m →
  liveOrNull m d0 →
  (∀ x, x ∈ itemsAt (heap m') d ↔
        x ∈ itemsAt (heap m) d0 ∨ x ∈ edgeItems (heap m) g e) ∧
  same_canon m m' ∧
  (∀ q t, backp t = false → heap m' !! q = Some t →
          q = d ∨ (heap m !! q = Some t ∧ q ≠ d0)) ∧
  liveOrNull m' d ∧
  (d = nullptr ↔ d0 = nullptr ∧ contributesNothing g e) ∧
  mem_wf m' ∧ m_finder m' = m_finder m ∧
  (∀ m0, same_canon m0 m → heap m0 !! m_deleteDomainp = None →
         edgeItems (heap m) g e = edgeItems (heap m0) g e).
Proof.
  intros Hr Hwf Hd0.
  assert (d0 = nullptr ∧ contributesNothing g e → d = nullptr) as Hback.
  { intros [-> Hskip]. rewrite (processInEdge_skip _ _ _ _ Hskip) in Hr.
    by injection Hr as <- _. }
  destruct (vertexAt g (fromp e)) as [fv|] eqn:Hfv;
    [|unfold processInEdge in Hr; by rewrite Hfv in Hr].
  assert (weight e = 0 ∨ domainMatters fv = false →
          d = d0 ∧ m' = m ∧ edgeItems (heap m) g e = [] ∧
          (∀ m0 : Mem, edgeItems (heap m) g e = edgeItems (heap m0) g e) ∧
          contributesNothing g e) as Hskipcase.
  { intros Hcase.
    assert (contributesNothing g e) as Hcn.
    { exists fv. split; [done|]. destruct Hcase; auto. }
    rewrite (edgeItems_cut _ _ _ _ Hfv Hcase).
    assert (d = d0 ∧ m' = m) as [-> ->].
    { rewrite (processInEdge_skip _ _ _ _ Hcn) in Hr. by injection Hr as <- <-. }
    split; [done|]. split; [done|]. split; [done|]. split; [|done].
    intros m0. by rewrite (edgeItems_cut _ _ _ _ Hfv Hcase). }
  destruct (decide (weight e = 0 ∨ domainMatters fv = false)) as [Hcase|Hcase].
  { destruct (Hskipcase Hcase) as (-> & -> & Hnil & Hall & Hcn).
    split; [intros x; rewrite Hnil; split; [by left|intros [?|?%elem_of_nil]; done]|].
    split; [apply same_canon_refl|].
    split; [intros q t _ Hq; destruct (decide (q = d0)); auto|].
    split; [done|]. split; [split; [done|by intros [? _]]|].
    split; [done|]. split; [done|]. intros m0 _ _. apply Hall. }
  assert (weight e ≠ 0 ∧ domainMatters fv = true) as [Hw Hm].
  { split; [intros ?; apply Hcase; by left|].
    destruct (domainMatters fv); [done|]. exfalso. apply Hcase. by right. }
  clear Hcase Hskipcase.
  rewrite (processInEdge_unfold _ _ _ _ _ Hfv Hw Hm) in Hr.
  rewrite (edgeItems_unfold _ _ _ _ Hfv Hw Hm).
  set (exts := match kind fv with
               | OrderVarVertex _ vscp => m_externalDomains vscp
               | OrderLogicVertex _ _ => []
               end) in *.
  apply bind_Ok in Hr as ([] & m0 & Hchk & Hr).
  apply checkFromDomain_Ok in Hchk as [[= ->] Hfrom].
  apply bind_Ok in Hr as (r1 & m1 & Hx & Hr).
  assert (domainp fv = m_deleteDomainp ∨ is_Some (heap m !! domainp fv)) as Hacc.
  { destruct Hfrom as [?|(t & Ht & _)]; eauto. }
  destruct (externalLoop_mem _ _ _ _ _ Hx Hwf Hacc)
    as (E1 & E2 & E3 & E4 & E5 & E6 & E7 & E8 & E9).
  pose proof Hwf as (Hnull & Hdel & _).
  assert (∀ x, x ∈ itemsAt (heap m1) r1 ↔
               x ∈ itemsAt (heap m) (domainp fv)
                   ++ concat (itemsAt (heap m) <$> exts)) as Hitems.
  { intros x. by rewrite E1, elem_of_app, elem_of_concat_itemsAt. }
  assert (∀ m0, same_canon m0 m → heap m0 !! m_deleteDomainp = None →
                itemsAt (heap m) (domainp fv)
                  ++ concat (itemsAt (heap m) <$> exts)
                = itemsAt (heap m0) (domainp fv)
                    ++ concat (itemsAt (heap m0) <$> exts)) as Hm0.
  { intros m0 Hsc Hdel0. f_equal.
    - destruct Hfrom as [->|(t & Ht & _ & Hb)].
      + by rewrite !itemsAt_sentinel.
      + by eapply same_canon_itemsAt.
    - f_equal. apply Forall_fmap_ext. eapply Forall_impl; [exact E7|].
      intros p (t & Ht & Hb & _). by eapply same_canon_itemsAt. }
  assert (∀ m0, same_canon m0 m → heap m0 !! m_deleteDomainp = None →
                itemsAt (heap m) (domainp fv)
                  ++ concat (itemsAt (heap m) <$> exts)
                = edgeItems (heap m0) g e) as Hm0'.
  { intros m0 Hsc Hdel0. rewrite (edgeItems_unfold _ _ _ _ Hfv Hw Hm).
    by apply Hm0. }
  clear Hm0.
  assert (∀ t0, heap m !! d0 = Some t0 → heap m1 !! d0 = Some t0) as Hkeep.
  { intros t0 Ht0. apply E4; [done|]. destruct (backp t0) eqn:Hb0; [by left|].
    right. destruct Hfrom as [->|(t & Ht & _ & Hb)]; intros ->; congruence. }
  case_decide as Hr1.
  { injection Hr as <- <-. subst r1. destruct (E6 eq_refl) as [Hfd Hex].
    assert (m1 = m) as ->.
    { rewrite Hex in Hx. by injection Hx as _ <-. }
    split.
    { intros x. rewrite <- Hitems, itemsAt_sentinel by done.
      split; [by left|intros [?|?%elem_of_nil]; done]. }
    split; [done|].
    split; [intros q t _ Hq; destruct (decide (q = d0)); auto|].
    split; [done|]. split; [|done]. split; [|done]. intros ->. split; [done|].
    exists fv. split; [done|]. right. right. split; [done|].
    subst exts. by destruct (kind fv). }
  assert (is_Some (heap m1 !! r1)) as Hlive1 by (by destruct E5).
  case_decide as Hd0n.
  { injection Hr as <- <-. subst d0. split.
    { intros x. rewrite Hitems, (itemsAt_null m Hwf).
      split; [by right|intros [?%elem_of_nil|?]; done]. }
    split; [done|]. split.
    { intros q t Hb Hq. destruct (E3 q t Hb Hq) as [?|[Hq0 _]]; [by left|].
      right. split; [done|]. intros ->. congruence. }
    split; [by right|]. split; [|done]. split; [|done].
    intros ->. destruct E8 as (H0 & _). destruct Hlive1. congruence. }
  destruct Hd0 as [?|[t0 Ht0]]; [done|].
  destruct E8 as (Hnull1 & Hdel1 & Hfin1).
  destruct (combineDomains_mem _ _ _ _ _ Hr Hdel1 Hlive1)
    as (C1 & C2 & C3 & C4 & C5 & C6).
  assert (mem_wf m') as Hwf'.
  { eapply mem_wf_le; [|by eapply combineDomains_canon_le]. done. }
  split.
  { assert (itemsAt (heap m1) d0 = itemsAt (heap m) d0) as Heq.
    { unfold itemsAt. by rewrite (Hkeep _ Ht0), Ht0. }
    intros x. by rewrite C1, Hitems, Heq. }
  split; [by eapply same_canon_trans|]. split.
  { intros q t Hb Hq. destruct (C3 q t Hb Hq) as [?|(Hq1 & Hqd & Hqr)]; [by left|].
    right. destruct (E3 q t Hb Hq1) as [?|[? _]]; done. }
  split; [by right|]. split; [|split; [done|split; [congruence|done]]].
  split; [|done]. intros ->. destruct Hwf' as (H0' & _). destruct C5. congruence.
Qed.

Lemma inEdgesLoop_mem g es d0 m d m' :
  inEdgesLoop g es d0 m = Ok (d, m') →
  mem_wf m →
  liveOrNull m d0 →
  (∀ x, x ∈ itemsAt (heap m') d ↔
        x ∈ itemsAt (heap m) d0 ∨ x ∈ concat (edgeItems (heap m) g <$> es)) ∧
  same_canon m m' ∧
  (∀ q t, backp t = false → heap m' !! q = Some t →
          q = d ∨ (heap m !! q = Some t ∧ q ≠ d0)) ∧
  liveOrNull m' d ∧
  (d = nullptr ↔ d0 = nullptr ∧ Forall (contributesNothing g) es) ∧
  mem_wf m' ∧ m_finder m' = m_finder m ∧
  (∀ m0, same_canon m0 m → heap m0 !! m_deleteDomainp = None →
         concat (edgeItems (heap m) g <$> es)
         = concat (edgeItems (heap m0) g <$> es)).
Proof.
  revert d0 m. induction es as [|e es IH]; intros d0 m Hr Hwf Hd0.
  { injection Hr as <- <-.
    split; [intros x; split; [by left|intros [?|?%elem_of_nil]; done]|].
    split; [apply same_canon_refl|].
    split; [intros q t _ Hq; destruct (decide (q = d0)); auto|].
    split; [done|]. split; [split; [done|by intros [? _]]|]. done. }
  cbn in Hr. apply bind_Ok in Hr as (d1 & m1 & He & Hr).
  destruct (processInEdge_mem _ _ _ _ _ _ He Hwf Hd0)
    as (P1 & P2 & P3 & P4 & P5 & P6 & P7 & P8).
  destruct (IH _ _ Hr P6 P4) as (I1 & I2 & I3 & I4 & I5 & I6 & I7 & I8).
  pose proof Hwf as (_ & Hdel & _).
  assert (concat (edgeItems (heap m1) g <$> es)
          = concat (edgeItems (heap m) g <$> es)) as Hes.
  { by apply I8. }
  split; [|split; [|split; [|split; [|split; [|split; [|split]]]]]].
  - intros x. cbn. rewrite I1, P1, Hes, elem_of_app. split.
    + intros [[?|?]|?]; auto.
    + intros [?|[?|?]]; auto.
  - by eapply same_canon_trans.
  - intros q t Hb Hq. destruct (I3 q t Hb Hq) as [?|[Hq1 Hne]]; [by left|].
    destruct (P3 q t Hb Hq1) as [?|?]; [done|by right].
  - done.
  - rewrite I5, P5, Forall_cons. split.
    + intros [[? ?] ?]. done.
    + intros [? [? ?]]. done.
  - done.
  - congruence.
  - intros m0 Hsc Hdel0. cbn. f_equal; [by apply P8|].
    rewrite <- Hes. apply I8; [|done]. by eapply same_canon_trans.
Qed.

Lemma noHybrid_hybridOf v : noHybrid v ↔ hybridOf v = nullptr.
Proof. unfold noHybrid, hybridOf. by destruct (kind v). Qed.

Lemma workingDomain_mem g v m d m' :
  workingDomain g v m = Ok (d, m') →
  mem_wf m →
  (∀ x, x ∈ itemsAt (heap m') d ↔ x ∈ inputItems (heap m) g v) ∧
  same_canon m m' ∧
  (∀ q t, backp t = false → heap m' !! q = Some t →
          q = d ∨ heap m !! q = Some t) ∧
  liveOrNull m' d ∧
  (d = nullptr ↔ noHybrid v ∧ Forall (contributesNothing g) (inEdges v)) ∧
  mem_wf m' ∧ m_finder m' = m_finder m.
Proof.
  intros Hr Hwf. unfold workingDomain in Hr.
  apply bind_Ok in Hr as (d0 & m0 & Hseed & Hr).
  apply hybridSeed_Ok in Hseed as (-> & Hd0 & Hd0eq).
  fold (hybridOf v) in Hd0eq. subst d0.
  assert (liveOrNull m (hybridOf v)) as Hlive.
  { destruct Hd0 as [?|(t & Ht & _)]; [by left|right; eauto]. }
  destruct (inEdgesLoop_mem _ _ _ _ _ _ Hr Hwf Hlive)
    as (I1 & I2 & I3 & I4 & I5 & I6 & I7 & _).
  split; [intros x; unfold inputItems; by rewrite I1, elem_of_app|].
  split; [done|].
  split; [intros q t Hb Hq; destruct (I3 q t Hb Hq) as [?|[? _]]; auto|].
  split; [done|]. split; [by rewrite I5, noHybrid_hybridOf|]. done.
Qed.

(** ** Which trees the loops keep *)

Lemma externalLoop_result exts acc m r m' :
  externalLoop exts acc m = Ok (r, m') →
  mem_wf m →
  acc = m_deleteDomainp ∨ is_Some (heap m !! acc) →
  r = acc ∨ canonical (heap m') r ∨ heap m !! r = None.
Proof.
  revert acc m. induction exts as [|e rest IH]; intros acc m Hr Hwf Hacc.
  { injection Hr as <- _. by left. }
  pose proof (externalLoop_mem _ _ _ _ _ Hr Hwf Hacc) as (_ & Hsc & _).
  cbn in Hr.
  apply bind_Ok in Hr as (te & m0 & Hd & Hr). apply deref_Ok in Hd as [Hte ->].
  apply bind_Ok in Hr as ([] & m0 & Hu & Hr). apply UASSERT_Ok in Hu as [_ [= ->]].
  apply bind_Ok in Hr as ([] & m0 & Hu & Hr). apply UASSERT_Ok in Hu as [Hback [= ->]].
  apply bind_Ok in Hr as (r1 & m1 & Hcomb & Hr).
  pose proof Hwf as (_ & Hdel & _).
  destruct (combineDomains_mem _ _ _ _ _ Hcomb Hdel ltac:(eauto))
    as (_ & C2 & _ & C4 & C5 & _).
  assert (mem_wf m1) as Hwf1.
  { eapply mem_wf_le; [exact Hwf|]. by eapply combineDomains_canon_le. }
  destruct (IH _ _ Hr Hwf1 ltac:(by right)) as [->|[?|Hnone]]; [|auto|].
  - apply combineDomains_result in Hcomb as [->|[[-> _]| ->]]; [by left| |].
    + right. left. exists te. split; [|done]. by apply (Hsc e te Hback).
    + right. right. apply newp_fresh.
  - destruct (heap m !! r) as [t|] eqn:Ht; [|auto].
    destruct (backp t) eqn:Hb.
    { apply (C2 r t Hb) in Ht. congruence. }
    destruct (decide (r = acc)) as [|Hra]; [by left|].
    assert (r ≠ e) as Hre by (intros ->; congruence).
    rewrite (C4 r t Ht Hra Hre) in Hnone. done.
Qed.

Lemma processInEdge_frame g e d0 m d m' :
  processInEdge g e d0 m = Ok (d, m') →
  mem_wf m →
  liveOrNull m d0 →
  (∀ q t, heap m !! q = Some t → backp t = true ∨ q ≠ d0 →
          heap m' !! q = Some t) ∧
  (d = d0 ∨ canonical (heap m') d ∨ heap m !! d = None).
Proof.
  intros Hr Hwf Hd0.
  destruct (vertexAt g (fromp e)) as [fv|] eqn:Hfv;
    [|unfold processInEdge in Hr; by rewrite Hfv in Hr].
  destruct (decide (weight e = 0 ∨ domainMatters fv = false)) as [Hcase|Hcase].
  { assert (contributesNothing g e) as Hcn.
    { exists fv. split; [done|]. destruct Hcase; auto. }
    rewrite (processInEdge_skip _ _ _ _ Hcn) in Hr. injection Hr as <- <-.
    split; [done|by left]. }
  assert (weight e ≠ 0 ∧ domainMatters fv = true) as [Hw Hm].
  { split; [intros ?; apply Hcase; by left|].
    destruct (domainMatters fv); [done|]. exfalso. apply Hcase. by right. }
  rewrite (processInEdge_unfold _ _ _ _ _ Hfv Hw Hm) in Hr.
  set (exts := match kind fv with
               | OrderVarVertex _ vscp => m_externalDomains vscp
               | OrderLogicVertex _ _ => []
               end) in *.
  apply bind_Ok in Hr as ([] & m0 & Hchk & Hr).
  apply checkFromDomain_Ok in Hchk as [[= ->] Hfrom].
  apply bind_Ok in Hr as (r1 & m1 & Hx & Hr).
  assert (domainp fv = m_deleteDomainp ∨ is_Some (heap m !! domainp fv)) as Hacc.
  { destruct Hfrom as [?|(t & Ht & _)]; eauto. }
  destruct (externalLoop_mem _ _ _ _ _ Hx Hwf Hacc)
    as (_ & E2 & _ & E4 & E5 & _ & _ & E8 & _).
  pose proof (externalLoop_result _ _ _ _ _ Hx Hwf Hacc) as Hres.
  pose proof Hwf as (Hnull & Hdel & _).
  assert (∀ q t, heap m !! q = Some t → heap m1 !! q = Some t) as Hkeep.
  { intros q t Hq. apply E4; [done|]. destruct (backp t) eqn:Hb; [by left|].
    right. destruct Hfrom as [->|(tf & Htf & _ & Hbf)]; intros ->; congruence. }
  assert (r1 ≠ m_deleteDomainp →
          canonical (heap m1) r1 ∨ heap m !! r1 = None) as Hr1kind.
  { intros Hne. destruct Hres as [->|[?|?]]; [|auto|auto].
    destruct Hfrom as [?|(tf & Htf & _ & Hbf)]; [done|].
    left. exists tf. split; [|done]. by apply Hkeep. }
  case_decide as Hr1.
  { injection Hr as <- <-. split; [|by left]. intros q t Hq _. by apply Hkeep. }
  case_decide as Hd0n.
  { injection Hr as <- <-. split; [intros q t Hq _; by apply Hkeep|].
    right. by apply Hr1kind. }
  destruct E8 as (Hnull1 & Hdel1 & Hfin1).
  assert (is_Some (heap m1 !! r1)) as Hlive1 by (by destruct E5).
  destruct (combineDomains_mem _ _ _ _ _ Hr Hdel1 Hlive1)
    as (_ & C2 & _ & C4 & _ & _).
  split.
  - intros q t Hq Hcase'. destruct (backp t) eqn:Hb.
    { apply (C2 q t Hb). by apply Hkeep. }
    destruct Hcase' as [?|Hqd]; [done|]. apply C4; [by apply Hkeep|done|].
    intros ->. destruct (Hr1kind Hr1) as [(t1 & Ht1 & Hb1)|Hnone]; [|congruence].
    rewrite (Hkeep _ _ Hq) in Ht1. congruence.
  - apply combineDomains_result in Hr as [->|[[_ ->]| ->]]; [by left| |].
    + destruct Hd0 as [?|[t0 Ht0]]; [done|]. congruence.
    + right. right. destruct (heap m !! newp (heap m1)) as [t|] eqn:Ht; [|done].
      pose proof (newp_fresh (heap m1)) as Hf. rewrite (Hkeep _ _ Ht) in Hf. done.
Qed.

Lemma inEdgesLoop_frame g es d0 m d m' :
  inEdgesLoop g es d0 m = Ok (d, m') →
  mem_wf m →
  liveOrNull m d0 →
  (∀ q t, heap m !! q = Some t → backp t = true ∨ q ≠ d0 →
          heap m' !! q = Some t) ∧
  (d = d0 ∨ canonical (heap m') d ∨ heap m !! d = None).
Proof.
  revert d0 m. induction es as [|e es IH]; intros d0 m Hr Hwf Hd0.
  { injection Hr as <- <-. split; [done|by left]. }
  cbn in Hr. apply bind_Ok in Hr as (d1 & m1 & He & Hr).
  destruct (processInEdge_mem _ _ _ _ _ _ He Hwf Hd0)
    as (_ & P2 & _ & P4 & _ & P6 & _).
  destruct (processInEdge_frame _ _ _ _ _ _ He Hwf Hd0) as [F1 F2].
  destruct (IH _ _ Hr P6 P4) as [G1 G2].
  destruct (inEdgesLoop_mem _ _ _ _ _ _ Hr P6 P4) as (_ & I2 & _).
  assert (∀ q t, heap m !! q = Some t → backp t = true ∨ q ≠ d0 →
                 heap m' !! q = Some t) as Hframe.
  { intros q t Hq Hcase. apply G1; [by apply F1|].
    destruct (backp t) eqn:Hb; [by left|]. right.
    destruct Hcase as [?|Hqd]; [done|].
    destruct F2 as [->|[(t1 & Ht1 & Hb1)|Hnone]]; [done| |].
    - intros ->. rewrite (F1 _ _ Hq ltac:(by right)) in Ht1. congruence.
    - intros ->. congruence. }
  split; [done|].
  destruct G2 as [->|[?|Hnone]]; [|auto|].
  - destruct F2 as [?|[(t1 & Ht1 & Hb1)|?]]; [auto| |auto].
    right. left. exists t1. split; [|done]. by apply (I2 d1 t1 Hb1).
  - destruct (heap m !! d) as [t|] eqn:Ht; [|auto].
    destruct (decide (d = d0)) as [|Hne]; [by left|].
    rewrite (F1 _ _ Ht ltac:(by right)) in Hnone. done.
Qed.

Lemma workingDomain_frame g v m d m' :
  workingDomain g v m = Ok (d, m') →
  mem_wf m →
  (∀ q t, heap m !! q = Some t → heap m' !! q = Some t) ∧
  (d = nullptr ∨ canonical (heap m') d ∨ heap m !! d = None).
Proof.
  intros Hr Hwf. pose proof (workingDomain_mem _ _ _ _ _ Hr Hwf) as (_ & Hsc & _).
  unfold workingDomain in Hr.
  apply bind_Ok in Hr as (d0 & m0 & Hseed & Hr).
  apply hybridSeed_Ok in Hseed as (-> & Hd0 & _).
  assert (liveOrNull m d0) as Hlive.
  { destruct Hd0 as [?|(t & Ht & _)]; [by left|right; eauto]. }
  destruct (inEdgesLoop_frame _ _ _ _ _ _ Hr Hwf Hlive) as [F1 F2].
  split.
  - intros q t Hq. apply F1; [done|]. destruct (backp t) eqn:Hb; [by left|].
    right. destruct Hd0 as [->|(t0 & Ht0 & Hb0)]; intros ->.
    + destruct Hwf as (H0 & _). congruence.
    + congruence.
  - destruct F2 as [->|[?|?]]; [|auto|auto].
    destruct Hd0 as [?|(t0 & Ht0 & Hb0)]; [by left|].
    right. left. exists t0. split; [|done]. by apply (Hsc d0 t0 Hb0).
Qed.

(** ** simplifyDomain: what it does to the memory *)

Lemma simplifyDomain_mem p m r m' :
  simplifyDomain p m = Ok (r, m') →
  mem_wf m →
  ∃ t, heap m !! p = Some t ∧
    ((backp t = true ∧ r = p ∧ m' = m) ∨
     (backp t = false ∧
      (∃ tr, heap m' !! r = Some tr ∧ backp tr = true ∧
             sensesp tr = constifyExpensiveEdit (sensesp t)) ∧
      heap m' !! p = None ∧
      (∀ q tq, q ≠ p → heap m !! q = Some tq → heap m' !! q = Some tq) ∧
      (∀ q tq, heap m' !! q = Some tq →
               (q ≠ p ∧ heap m !! q = Some tq) ∨
               (q = r ∧ heap m !! q = None ∧ backp tq = true ∧ isMulti tq = true)) ∧
      r ∈ m_finder m')).
Proof.
  intros Hr Hwf. unfold simplifyDomain in Hr.
  apply bind_Ok in Hr as (t & m0 & Hd & Hr). apply deref_Ok in Hd as [Hp ->].
  exists t. split; [done|]. destruct (backp t) eqn:Hb.
  { injection Hr as <- <-. by left. }
  right. split; [done|].
  unfold bind, store, getSenTree, deleteTree, ret in Hr. cbn in Hr.
  rewrite insert_insert_eq in Hr.
  set (nf := constifyExpensiveEdit (sensesp t)) in *.
  set (t2 := {| backp := false; sensesp := nf; isMulti := true |}) in *.
  destruct (List.find _ _) as [f|] eqn:Hfind.
  - injection Hr as <- <-. cbn.
    apply List.find_some in Hfind as [Hin Hsame].
    apply list_elem_of_In in Hin. unfold sameTree in Hsame.
    pose proof Hwf as (_ & _ & Hfin). destruct (Hfin _ Hin) as (tf & Htf & Hbf).
    assert (f ≠ p) as Hfp by (intros ->; congruence).
    rewrite lookup_insert_ne in Hsame by done. rewrite Htf in Hsame.
    apply bool_decide_eq_true in Hsame.
    split; [|split; [|split; [|split]]].
    + exists tf. rewrite lookup_delete_ne, lookup_insert_ne by done. done.
    + by rewrite lookup_delete_eq.
    + intros q tq Hq Hqm. by rewrite lookup_delete_ne, lookup_insert_ne.
    + intros q tq Hq. left. apply lookup_delete_Some in Hq as [Hqp Hq].
      rewrite lookup_insert_ne in Hq by done. done.
    + done.
  - injection Hr as <- <-. cbn.
    set (h3 := <[p := t2]> (heap m)) in *.
    assert (newp h3 ≠ p) as Hnp.
    { intros Heq. pose proof (newp_fresh h3) as Hf. rewrite Heq in Hf.
      unfold h3 in Hf. by rewrite lookup_insert_eq in Hf. }
    assert (heap m !! newp h3 = None) as Hnm.
    { pose proof (newp_fresh h3) as Hf. unfold h3 in Hf at 2.
      by rewrite lookup_insert_ne in Hf. }
    split; [|split; [|split; [|split]]].
    + eexists. rewrite lookup_delete_ne, lookup_insert_eq by done. done.
    + by rewrite lookup_delete_eq.
    + intros q tq Hq Hqm. rewrite lookup_delete_ne by done.
      rewrite lookup_insert_ne by (intros <-; congruence).
      unfold h3. by rewrite lookup_insert_ne.
    + intros q tq Hq. apply lookup_delete_Some in Hq as [Hqp Hq].
      apply lookup_insert_Some in Hq as [[<- <-]|[Hne Hq]].
      * right. done.
      * left. unfold h3 in Hq. rewrite lookup_insert_ne in Hq by done. done.
    + apply elem_of_app. right. by apply list_elem_of_singleton.
Qed.

(** ** What a run has checked of the inputs of a vertex *)

Lemma edge_settled_canon h h' g e :
  (∀ p, canonical h p → canonical h' p) →
  edge_settled h g e → edge_settled h' g e.
Proof.
  intros Hc (fv & Hfv & Hcase). exists fv. split; [done|].
  destruct Hcase as [?|[?|[Hd Hx]]]; [by left|right; by left|].
  right. right. split.
  - destruct Hd; [by left|right; auto].
  - destruct (kind fv); [done|]. eapply Forall_impl; [exact Hx|]. auto.
Qed.

Lemma same_canon_canonical m m' p :
  same_canon m m' → canonical (heap m') p ↔ canonical (heap m) p.
Proof.
  intros Hsc. split; intros (t & Ht & Hb); exists t; (split; [|done]);
    by apply (Hsc p t Hb).
Qed.

Lemma processInEdge_settled g e d0 m d m' :
  processInEdge g e d0 m = Ok (d, m') →
  mem_wf m →
  edge_settled (heap m) g e.
Proof.
  intros Hr Hwf.
  destruct (vertexAt g (fromp e)) as [fv|] eqn:Hfv;
    [|unfold processInEdge in Hr; by rewrite Hfv in Hr].
  exists fv. split; [done|].
  destruct (decide (weight e = 0)) as [|Hw]; [by left|].
  destruct (domainMatters fv) eqn:Hm; [|right; by left].
  right. right.
  rewrite (processInEdge_unfold _ _ _ _ _ Hfv Hw Hm) in Hr.
  apply bind_Ok in Hr as ([] & m0 & Hchk & Hr).
  apply checkFromDomain_Ok in Hchk as [[= ->] Hfrom].
  apply bind_Ok in Hr as (r1 & m1 & Hx & Hr).
  assert (domainp fv = m_deleteDomainp ∨ is_Some (heap m !! domainp fv)) as Hacc.
  { destruct Hfrom as [?|(t & Ht & _)]; eauto. }
  destruct (externalLoop_mem _ _ _ _ _ Hx Hwf Hacc)
    as (_ & _ & _ & _ & _ & _ & E7 & _).
  split.
  - destruct Hfrom as [?|(t & Ht & _ & Hb)]; [by left|right; by exists t].
  - destruct (kind fv); [done|]. eapply Forall_impl; [exact E7|].
    intros p (t & Ht & Hb & _). by exists t.
Qed.

Lemma inEdgesLoop_settled g es d0 m d m' :
  inEdgesLoop g es d0 m = Ok (d, m') →
  mem_wf m →
  liveOrNull m d0 →
  Forall (edge_settled (heap m) g) es.
Proof.
  revert d0 m. induction es as [|e es IH]; intros d0 m Hr Hwf Hd0; [done|].
  cbn in Hr. apply bind_Ok in Hr as (d1 & m1 & He & Hr).
  destruct (processInEdge_mem _ _ _ _ _ _ He Hwf Hd0)
    as (_ & P2 & _ & P4 & _ & P6 & _).
  constructor; [by eapply processInEdge_settled|].
  eapply Forall_impl; [exact (IH _ _ Hr P6 P4)|].
  intros e'. apply edge_settled_canon. intros p.
  apply (same_canon_canonical _ _ _ P2).
Qed.

Lemma workingDomain_settled g v m d m' :
  workingDomain g v m = Ok (d, m') →
  mem_wf m →
  vertex_settled (heap m) g v.
Proof.
  intros Hr Hwf. unfold workingDomain in Hr.
  apply bind_Ok in Hr as (d0 & m0 & Hseed & Hr).
  apply hybridSeed_Ok in Hseed as (-> & Hd0 & Heq).
  change (d0 = hybridOf v) in Heq. subst d0. split; [done|].
  eapply inEdgesLoop_settled; [exact Hr|done|].
  destruct Hd0 as [?|(t & Ht & _)]; [by left|right; eauto].
Qed.

(** ** The inputs of a settled vertex stay what they are *)

Lemma itemsAt_weaken (h h' : gmap Z AstSenTree) p :
  h ⊆ h' → is_Some (h !! p) → itemsAt h' p = itemsAt h p.
Proof.
  intros Hsub [t Ht]. unfold itemsAt.
  by rewrite Ht, (lookup_weaken _ _ _ _ Ht Hsub).
Qed.

Lemma canonical_weaken (h h' : gmap Z AstSenTree) p :
  h ⊆ h' → canonical h p → canonical h' p.
Proof.
  intros Hsub (t & Ht & Hb). exists t. split; [|done].
  by eapply lookup_weaken.
Qed.

Lemma edge_stable h g h' g' e :
  edge_settled h g e →
  h ⊆ h' →
  h' !! nullptr = None →
  h' !! m_deleteDomainp = None →
  graph_le g g' →
  edgeItems h' g' e = edgeItems h g e ∧
  edge_settled h' g' e ∧
  (contributesNothing g' e ↔ contributesNothing g e).
Proof.
  intros (fv & Hfv & Hcase) Hsub Hnull Hdel [_ Hg].
  specialize (Hg (fromp e)). rewrite Hfv in Hg.
  destruct Hg as (fv' & Hfv' & Hk & Hdm & _ & Hdom).
  assert (h !! m_deleteDomainp = None) as Hdel0.
  { destruct (h !! m_deleteDomainp) as [t|] eqn:Ht; [|done].
    by rewrite (lookup_weaken _ _ _ _ Ht Hsub) in Hdel. }
  assert (h !! nullptr = None) as Hnull0.
  { destruct (h !! nullptr) as [t|] eqn:Ht; [|done].
    by rewrite (lookup_weaken _ _ _ _ Ht Hsub) in Hnull. }
  unfold edgeItems, contributesNothing. rewrite Hfv, Hfv'.
  destruct Hcase as [Hw|[Hm|[Hd Hx]]].
  - rewrite !decide_True by done. split; [done|]. split.
    + exists fv'. split; [done|]. by left.
    + split; intros _; eexists; (split; [done|by left]).
  - rewrite Hdm, Hm. cbn. split; [by repeat case_decide|]. split.
    + exists fv'. split; [done|]. right. left. congruence.
    + split; intros _; eexists; (split; [done|right; left; congruence]).
  - assert (domainp fv ≠ nullptr) as Hnn.
    { destruct Hd as [->|(t & Ht & _)]; [done|]. intros Heq.
      rewrite Heq in Ht. congruence. }
    rewrite (Hdom Hnn), Hdm, Hk.
    assert (itemsAt h' (domainp fv) = itemsAt h (domainp fv)) as Hit.
    { destruct Hd as [->|(t & Ht & _)]; [|apply itemsAt_weaken; eauto].
      unfold itemsAt. by rewrite Hdel, Hdel0. }
    split; [|split].
    + case_decide; [done|]. destruct (negb (domainMatters fv)); [done|].
      rewrite Hit. f_equal. destruct (kind fv) as [|k vscp]; [done|]. f_equal.
      apply Forall_fmap_ext_1. eapply Forall_impl; [exact Hx|].
      intros p (t & Ht & _). cbn. apply itemsAt_weaken; eauto.
    + exists fv'. split; [done|]. right. right. rewrite (Hdom Hnn), Hk. split.
      * destruct Hd; [by left|right; by eapply canonical_weaken].
      * destruct (kind fv); [done|]. eapply Forall_impl; [exact Hx|].
        intros p. by apply canonical_weaken.
    + split; intros (fv0 & Hfv0 & Hc0); injection Hfv0 as <-;
        eexists; (split; [done|]).
      * rewrite <- Hdm, <- (Hdom Hnn), <- Hk. done.
      * rewrite Hdm, (Hdom Hnn), Hk. done.
Qed.

Lemma inputItems_stable h g v h' g' v' :
  vertex_settled h g v →
  h ⊆ h' →
  h' !! nullptr = None →
  h' !! m_deleteDomainp = None →
  graph_le g g' →
  kind v' = kind v →
  inEdges v' = inEdges v →
  inputItems h' g' v' = inputItems h g v ∧
  vertex_settled h' g' v' ∧
  (Forall (contributesNothing g') (inEdges v')
   ↔ Forall (contributesNothing g) (inEdges v)).
Proof.
  intros [Hh He] Hsub Hnull Hdel Hg Hk Hin.
  assert (hybridOf v' = hybridOf v) as Hhy by (unfold hybridOf; by rewrite Hk).
  unfold inputItems, vertex_settled. rewrite Hhy, Hin.
  assert (itemsAt h' (hybridOf v) = itemsAt h (hybridOf v)) as ->.
  { destruct Hh as [->|(t & Ht & _)]; [|apply itemsAt_weaken; eauto].
    unfold itemsAt. rewrite Hnull.
    destruct (h !! nullptr) as [t|] eqn:Ht; [|done].
    by rewrite (lookup_weaken _ _ _ _ Ht Hsub) in Hnull. }
  clear Hin. revert He. generalize (inEdges v). intros es He.
  induction He as [|e es He _ IH].
  { split; [done|]. split; [|done]. split; [|done].
    destruct Hh; [by left|right; by eapply canonical_weaken]. }
  destruct IH as (IH1 & [_ IH2] & IH3).
  destruct (edge_stable _ _ _ _ _ He Hsub Hnull Hdel Hg) as (S1 & S2 & S3).
  apply app_inv_head in IH1.
  split; [|split; [split|]].
  - cbn. by rewrite S1, IH1.
  - destruct Hh; [by left|right; by eapply canonical_weaken].
  - by constructor.
  - rewrite !Forall_cons. by rewrite S3, IH3.
Qed.

(** ** One iteration of the loop over the vertices *)

Lemma processVertex_step i s s' :
  processVertex i s = Ok (tt, s') →
  mem_wf (mem s) →
  heap (mem s) ⊆ heap (mem s') ∧
  mem_wf (mem s') ∧
  (∀ q t, heap (mem s') !! q = Some t →
          heap (mem s) !! q = Some t ∨
          (backp t = true ∧ isMulti t = true ∧ q ∈ m_finder (mem s'))) ∧
  (∀ v, vertexAt (m_graph s) i = Some v → domainp v = nullptr →
        ∃ d', vertexAt (m_graph s') i = Some (set_domainp d' v) ∧
              d' ≠ nullptr ∧
              vertex_settled (heap (mem s)) (m_graph s) v ∧
              (d' = m_deleteDomainp ↔
               noHybrid v ∧ Forall (contributesNothing (m_graph s)) (inEdges v)) ∧
              (d' ≠ m_deleteDomainp →
               ∃ t l, heap (mem s') !! d' = Some t ∧ backp t = true ∧
                      (∀ x, x ∈ l ↔ x ∈ inputItems (heap (mem s)) (m_graph s) v) ∧
                      (sensesp t = l ∨ sensesp t = constifyExpensiveEdit l)) ∧
              (d' = m_deleteDomainp → isLogic v = true →
               i ∈ m_logicpsToDelete s')).
Proof.
  intros Hr Hwf.
  assert (mem_wf (mem s')) as Hwf'.
  { apply processVertex_pass_le in Hr as (_ & _ & Hle & _).
    by eapply mem_wf_le. }
  split; [|split; [done|]]; revert Hwf'.
  all: apply processVertex_Ok in Hr
    as [[Hskip ->]|[(v & m1 & Hv & Hd & Hw & ->)|
                    (v & d & m1 & d' & m2 & Hv & Hd & Hw & Hdn & Hs & ->)]];
    cbn [mem m_graph m_logicpsToDelete withDomain]; intros Hwf'.
  - done.
  - apply map_subseteq_spec. by apply (workingDomain_frame _ _ _ _ _ Hw Hwf).
  - destruct (workingDomain_frame _ _ _ _ _ Hw Hwf) as [F1 F2].
    destruct (workingDomain_mem _ _ _ _ _ Hw Hwf) as (_ & _ & _ & _ & _ & Hwf1 & _).
    destruct (simplifyDomain_mem _ _ _ _ Hs Hwf1)
      as (t & Ht & [(Hb & -> & ->)|(Hb & _ & _ & S3 & _)]).
    { apply map_subseteq_spec. exact F1. }
    apply map_subseteq_spec. intros q tq Hq. apply S3; [|by apply F1].
    intros ->. destruct F2 as [?|[(t' & Ht' & Hb')|Hnone]]; congruence.
  - split; [auto|]. intros v Hv Hd.
    destruct Hskip as [?|(v0 & Hv0 & Hd0)]; congruence.
  - destruct (workingDomain_mem _ _ _ _ _ Hw Hwf)
      as (W1 & W2 & W3 & _ & W5 & Hwf1 & _).
    split.
    + intros q t Hq. left. destruct (backp t) eqn:Hb; [by apply (W2 q t Hb)|].
      destruct (W3 q t Hb Hq) as [->|?]; [|done].
      destruct Hwf1 as (H0 & _). congruence.
    + intros v0 Hv0 _. assert (v0 = v) as -> by congruence.
      exists m_deleteDomainp. split; [|split; [done|split; [|split; [|split]]]].
      * rewrite vertexAt_insert by (by eapply vertexAt_Some_lt).
        by rewrite decide_True.
      * by eapply workingDomain_settled.
      * split; [intros _; by apply W5|done].
      * done.
      * intros _ ->. apply elem_of_app. right. by apply list_elem_of_singleton.
  - destruct (workingDomain_mem _ _ _ _ _ Hw Hwf)
      as (W1 & W2 & W3 & _ & W5 & Hwf1 & _).
    destruct (workingDomain_frame _ _ _ _ _ Hw Hwf) as [F1 F2].
    assert (∀ q t, heap m1 !! q = Some t → q ≠ d ∨ backp t = true →
                   heap (mem s) !! q = Some t) as Hold.
    { intros q t Hq Hcase. destruct (backp t) eqn:Hb; [by apply (W2 q t Hb)|].
      destruct (W3 q t Hb Hq) as [->|?]; [|done]. by destruct Hcase. }
    destruct (simplifyDomain_mem _ _ _ _ Hs Hwf1)
      as (t & Ht & [(Hb & -> & ->)|(Hb & (tr & Htr & Hbr & Hsr) & _ & _ & S4 & S5)]).
    + split.
      * intros q tq Hq. left. apply Hold; [done|].
        destruct (decide (q = d)) as [->|]; [right; congruence|by left].
      * intros v0 Hv0 _. assert (v0 = v) as -> by congruence.
        assert (d ≠ m_deleteDomainp) as Hdd.
        { intros ->. destruct Hwf1 as (_ & H1 & _). congruence. }
        exists d. split; [|split; [done|split; [|split; [|split]]]].
        -- rewrite vertexAt_insert by (by eapply vertexAt_Some_lt).
           by rewrite decide_True.
        -- by eapply workingDomain_settled.
        -- split; [done|]. intros Hnone. by apply W5 in Hnone.
        -- intros _. exists t, (sensesp t). split; [done|]. split; [done|].
           split; [|by left]. intros x. rewrite <- W1. unfold itemsAt.
           by rewrite Ht.
        -- done.
    + split.
      * intros q tq Hq. destruct (S4 q tq Hq) as [[Hqd Hq1]|(-> & _ & ? & ?)].
        -- left. apply Hold; [done|by left].
        -- right. done.
      * intros v0 Hv0 _. assert (v0 = v) as -> by congruence.
        assert (canonical (heap m2) d') as Hcan by (by exists tr).
        assert (d' ≠ m_deleteDomainp) as Hdd.
        { intros ->. destruct Hwf' as (_ & H1 & _). congruence. }
        exists d'. split; [|split; [|split; [|split; [|split]]]].
        -- rewrite vertexAt_insert by (by eapply vertexAt_Some_lt).
           by rewrite decide_True.
        -- by apply (canonical_not_null m2).
        -- by eapply workingDomain_settled.
        -- split; [done|]. intros Hnone. by apply W5 in Hnone.
        -- intros _. exists tr, (sensesp t). split; [done|]. split; [done|].
           split; [|by right]. intros x. rewrite <- W1. unfold itemsAt.
           by rewrite Ht.
        -- done.
Qed.

(** ** The loop over the vertices *)

Lemma forEach_step l s s' :
  forEach processVertex l s = Ok (tt, s') →
  mem_wf (mem s) →
  heap (mem s) ⊆ heap (mem s') ∧
  mem_wf (mem s') ∧
  (∀ q t, heap (mem s') !! q = Some t →
          heap (mem s) !! q = Some t ∨
          (backp t = true ∧ isMulti t = true ∧ q ∈ m_finder (mem s'))).
Proof.
  revert s. induction l as [|i l IH]; intros s Hr Hwf.
  { injection Hr as <-. split; [done|]. split; [done|]. auto. }
  apply forEach_Ok in Hr as (s1 & H1 & Hr).
  destruct (processVertex_step _ _ _ H1 Hwf) as (A1 & A2 & A3 & _).
  destruct (IH _ Hr A2) as (B1 & B2 & B3).
  split; [by etrans|]. split; [done|].
  intros q t Hq. destruct (B3 q t Hq) as [Hq1|?]; [|by right].
  destruct (A3 q t Hq1) as [?|(? & ? & Hfin)]; [by left|right].
  split; [done|]. split; [done|].
  apply forEach_pass_le in Hr as (_ & _ & (_ & (l' & -> & _) & _) & _).
  apply elem_of_app. by left.
Qed.

Lemma forEach_other l s s' j :
  forEach processVertex l s = Ok (tt, s') → j ∉ l →
  vertexAt (m_graph s') j = vertexAt (m_graph s) j.
Proof.
  revert s. induction l as [|i l IH]; intros s Hr Hj.
  { by injection Hr as <-. }
  apply forEach_Ok in Hr as (s1 & H1 & Hr).
  apply not_elem_of_cons in Hj as [Hji Hjl].
  rewrite (IH _ Hr Hjl). by eapply processVertex_other.
Qed.

Lemma pass_vertex_result s s' i v :
  processDomains s = Ok (tt, s') →
  mem_wf (mem s) →
  vertexAt (m_graph s) i = Some v →
  domainp v = nullptr →
  ∃ d', vertexAt (m_graph s') i = Some (set_domainp d' v) ∧
        d' ≠ nullptr ∧
        vertex_settled (heap (mem s')) (m_graph s') v ∧
        (d' = m_deleteDomainp ↔
         noHybrid v ∧ Forall (contributesNothing (m_graph s')) (inEdges v)) ∧
        (d' ≠ m_deleteDomainp →
         ∃ t l, heap (mem s') !! d' = Some t ∧ backp t = true ∧
                (∀ x, x ∈ l ↔ x ∈ inputItems (heap (mem s')) (m_graph s') v) ∧
                (sensesp t = l ∨ sensesp t = constifyExpensiveEdit l)) ∧
        (d' = m_deleteDomainp → isLogic v = true → i ∈ m_logicpsToDelete s').
Proof.
  intros Hr Hwf Hv Hd. pose proof (vertexAt_Some_lt _ _ _ Hv) as Hlt.
  change (forEach processVertex (seq 0 (length (m_graph s))) s = Ok (tt, s')) in Hr.
  rewrite (seq_split_at _ _ Hlt), forEach_app in Hr.
  apply bind_Ok in Hr as ([] & s1 & Hpre & Hr).
  apply forEach_Ok in Hr as (s2 & Hi & Hpost).
  assert (vertexAt (m_graph s1) i = Some v) as Hv1.
  { rewrite (forEach_other _ _ _ _ Hpre); [done|].
    rewrite elem_of_seq. lia. }
  destruct (forEach_step _ _ _ Hpre Hwf) as (_ & Hwf1 & _).
  destruct (processVertex_step _ _ _ Hi Hwf1) as (A1 & Hwf2 & _ & A4).
  destruct (A4 v Hv1 Hd) as (d' & Hv2 & Hdn & Hset & Hdead & Hlive & Hrec).
  destruct (forEach_step _ _ _ Hpost Hwf2) as (B1 & Hwf' & _).
  assert (graph_le (m_graph s1) (m_graph s')) as Hg.
  { eapply graph_le_trans.
    - by apply processVertex_pass_le in Hi as (? & _).
    - by apply forEach_pass_le in Hpost as (? & _). }
  assert (vertexAt (m_graph s') i = Some (set_domainp d' v)) as Hv'.
  { pose proof (forEach_pass_le _ _ _ Hpost) as (Hg2 & _).
    pose proof Hg2 as [_ Hg2'].
    specialize (Hg2' i). rewrite Hv2 in Hg2'. destruct Hg2' as (v' & Hv' & _).
    rewrite Hv'. f_equal. exact (graph_le_keeps _ _ _ _ _ Hg2 Hv2 Hv' Hdn). }
  assert (heap (mem s1) ⊆ heap (mem s')) as Hsub by (by etrans).
  pose proof Hwf' as (Hnull' & Hdel' & _).
  destruct (inputItems_stable _ _ v _ _ v Hset Hsub Hnull' Hdel' Hg eq_refl eq_refl)
    as (I1 & I2 & I3).
  exists d'. split; [done|]. split; [done|]. split; [done|].
  split; [|split].
  - by rewrite I3.
  - intros Hne. destruct (Hlive Hne) as (t & l & Ht & Hb & Hl & Hcase).
    exists t, l. split; [by eapply lookup_weaken|]. split; [done|].
    split; [|done]. intros x. by rewrite I1.
  - intros Hdd Hlog.
    apply forEach_pass_le in Hpost as (_ & _ & _ & (l' & ->) & _).
    apply elem_of_app. left. by apply Hrec.
Qed.

(** ** After the pass *)

Lemma pass_all_assigned s s' j v' :
  processDomains s = Ok (tt, s') →
  mem_wf (mem s) →
  vertexAt (m_graph s') j = Some v' →
  domainp v' ≠ nullptr.
Proof.
  intros Hr Hwf Hv'.
  pose proof (processDomains_pass_le _ _ Hr) as ([_ Hg] & _).
  specialize (Hg j). destruct (vertexAt (m_graph s) j) as [v|] eqn:Hv; [|congruence].
  destruct Hg as (v'' & Hv'' & _ & _ & _ & Hkeep).
  assert (v'' = v') as -> by congruence.
  destruct (decide (domainp v = nullptr)) as [Hd|Hd].
  - destruct (pass_vertex_result _ _ _ _ Hr Hwf Hv Hd) as (d' & Hvd & Hdn & _).
    rewrite Hvd in Hv'. by injection Hv' as <-.
  - by rewrite (Hkeep Hd).
Qed.

Lemma processVertex_skip i s :
  (∀ v, vertexAt (m_graph s) i = Some v → domainp v ≠ nullptr) →
  processVertex i s = Ok (tt, s).
Proof.
  intros Hi. unfold processVertex. rewrite (bind_step _ _ _ s s) by done.
  destruct (vertexAt (m_graph s) i) as [v|]; [|done].
  by rewrite decide_False by auto.
Qed.

Lemma forEach_skip l s :
  (∀ j v, j ∈ l → vertexAt (m_graph s) j = Some v → domainp v ≠ nullptr) →
  forEach processVertex l s = Ok (tt, s).
Proof.
  induction l as [|i l IH]; intros Hl; [done|].
  apply forEach_Ok. exists s. split.
  - apply processVertex_skip. intros v. apply Hl, elem_of_cons. by left.
  - apply IH. intros j v Hj. apply Hl, elem_of_cons. by right.
Qed.


Lemma pass_heap s s' :
  processDomains s = Ok (tt, s') →
  mem_wf (mem s) →
  heap (mem s) ⊆ heap (mem s') ∧
  (∀ q t, heap (mem s') !! q = Some t →
          heap (mem s) !! q = Some t ∨
          (heap (mem s) !! q = None ∧ backp t = true ∧ isMulti t = true ∧
           q ∈ m_finder (mem s'))) ∧
  (all_canonical (heap (mem s)) → all_canonical (heap (mem s'))) ∧
  mem_wf (mem s').
Proof.
  intros Hr Hwf.
  change (forEach processVertex (seq 0 (length (m_graph s))) s = Ok (tt, s')) in Hr.
  destruct (forEach_step _ _ _ Hr Hwf) as (A1 & A2 & A3).
  split; [done|]. split; [|split; [|done]].
  - intros q t Hq. destruct (A3 q t Hq) as [?|(? & ? & ?)]; [by left|].
    destruct (heap (mem s) !! q) as [t0|] eqn:Hq0; [|by right].
    left. by rewrite (lookup_weaken _ _ _ _ Hq0 A1) in Hq.
  - intros Hall q t Hq. destruct (A3 q t Hq) as [?|(? & _)]; [|done].
    by eapply Hall.
Qed.

(** ** The fatal assertions that can fail *)

Lemma bind_Fatal_inv {St A B} (c : M St A) (k : A → M St B) s msg :
  bind c k s = Fatal msg →
  c s = Fatal msg ∨ ∃ a s1, c s = Ok (a, s1) ∧ k a s1 = Fatal msg.
Proof.
  unfold bind. destruct (c s) as [[a s1]|msg'|].
  - intros Hk. right. eauto.
  - intros [= ->]. by left.
  - done.
Qed.

Lemma UASSERT_Fatal {St} (b : bool) msg (s : St) msg' :
  UASSERT b msg s = Fatal msg' → b = false ∧ msg' = msg.
Proof. destruct b; [done|]. by intros [= ->]. Qed.

Lemma deref_Fatal p m msg : deref p m ≠ Fatal msg.
Proof. unfold deref. by destruct (heap m !! p). Qed.

Lemma addSensesp_Fatal p items m msg : addSensesp p items m ≠ Fatal msg.
Proof.
  destruct items as [|i items]; [done|]. cbn. unfold bind, deref.
  by destruct (heap m !! p).
Qed.

Lemma combineDomains_Fatal_inv ap bp m msg :
  combineDomains ap bp m = Fatal msg → bp = m_deleteDomainp.
Proof.
  rewrite combineDomains_eq. repeat case_decide; [done|done|done|].
  intros Hr. exfalso.
  apply bind_Fatal_inv in Hr as [Hr|(a & m1 & _ & Hr)]; [by apply deref_Fatal in Hr|].
  apply bind_Fatal_inv in Hr as [Hr|(p & m2 & _ & Hr)]; [by destruct (backp a)|].
  apply bind_Fatal_inv in Hr as [Hr|(b & m3 & _ & Hr)]; [by apply deref_Fatal in Hr|].
  destruct (backp b).
  - apply bind_Fatal_inv in Hr as [Hr|(? & ? & _ & Hr)];
      [by apply addSensesp_Fatal in Hr|done].
  - apply bind_Fatal_inv in Hr as [Hr|(? & ? & _ & Hr)];
      [by apply addSensesp_Fatal in Hr|].
    apply bind_Fatal_inv in Hr as [Hr|(? & ? & _ & Hr)]; done.
Qed.

Lemma externalLoop_Fatal_inv exts acc m msg :
  externalLoop exts acc m = Fatal msg →
  mem_wf m →
  acc = m_deleteDomainp ∨ is_Some (heap m !! acc) →
  inputAssertion msg.
Proof.
  revert acc m. induction exts as [|e rest IH]; intros acc m Hr Hwf Hacc; [done|].
  cbn in Hr.
  apply bind_Fatal_inv in Hr as [Hr|(te & m0 & Hd & Hr)]; [by apply deref_Fatal in Hr|].
  apply deref_Ok in Hd as [Hte ->].
  apply bind_Fatal_inv in Hr as [Hr|([] & m0 & Hu & Hr)].
  { apply UASSERT_Fatal in Hr as [_ ->]. right. by left. }
  apply UASSERT_Ok in Hu as [_ [= ->]].
  apply bind_Fatal_inv in Hr as [Hr|([] & m0 & Hu & Hr)].
  { apply UASSERT_Fatal in Hr as [_ ->]. right. right. by right. }
  apply UASSERT_Ok in Hu as [_ [= ->]].
  pose proof Hwf as (_ & Hdel & _).
  apply bind_Fatal_inv in Hr as [Hr|(r1 & m1 & Hcomb & Hr)].
  { apply combineDomains_Fatal_inv in Hr as ->. congruence. }
  destruct (combineDomains_mem _ _ _ _ _ Hcomb Hdel ltac:(eauto))
    as (_ & _ & _ & _ & C5 & _).
  apply (IH _ _ Hr); [|by right].
  eapply mem_wf_le; [exact Hwf|]. by eapply combineDomains_canon_le.
Qed.

Lemma checkFromDomain_Fatal_inv p m msg :
  checkFromDomain p m = Fatal msg → inputAssertion msg.
Proof.
  unfold checkFromDomain. case_decide; [done|]. intros Hr.
  apply bind_Fatal_inv in Hr as [Hr|(t & m0 & _ & Hr)]; [by apply deref_Fatal in Hr|].
  apply bind_Fatal_inv in Hr as [Hr|([] & m1 & _ & Hr)].
  - apply UASSERT_Fatal in Hr as [_ ->]. right. by left.
  - apply UASSERT_Fatal in Hr as [_ ->]. right. right. by left.
Qed.

Lemma processInEdge_Fatal_inv g e d0 m msg :
  processInEdge g e d0 m = Fatal msg →
  mem_wf m →
  inputAssertion msg.
Proof.
  intros Hr Hwf.
  destruct (vertexAt g (fromp e)) as [fv|] eqn:Hfv;
    [|unfold processInEdge in Hr; by rewrite Hfv in Hr].
  destruct (decide (weight e = 0)) as [Hw|Hw].
  { unfold processInEdge in Hr. by rewrite Hfv, decide_True in Hr. }
  destruct (domainMatters fv) eqn:Hm.
  2:{ unfold processInEdge in Hr. by rewrite Hfv, decide_False, Hm in Hr. }
  rewrite (processInEdge_unfold _ _ _ _ _ Hfv Hw Hm) in Hr.
  apply bind_Fatal_inv in Hr as [Hr|([] & m0 & Hchk & Hr)];
    [by eapply checkFromDomain_Fatal_inv|].
  apply checkFromDomain_Ok in Hchk as [[= ->] Hfrom].
  assert (domainp fv = m_deleteDomainp ∨ is_Some (heap m !! domainp fv)) as Hacc.
  { destruct Hfrom as [?|(t & Ht & _)]; eauto. }
  apply bind_Fatal_inv in Hr as [Hr|(r1 & m1 & Hx & Hr)];
    [by eapply externalLoop_Fatal_inv|].
  case_decide as Hr1; [done|]. case_decide; [done|].
  by apply combineDomains_Fatal_inv in Hr.
Qed.

Lemma inEdgesLoop_Fatal_inv g es d0 m msg :
  inEdgesLoop g es d0 m = Fatal msg →
  mem_wf m →
  liveOrNull m d0 →
  inputAssertion msg.
Proof.
  revert d0 m. induction es as [|e es IH]; intros d0 m Hr Hwf Hd0; [done|].
  cbn in Hr. apply bind_Fatal_inv in Hr as [Hr|(d1 & m1 & He & Hr)];
    [by eapply processInEdge_Fatal_inv|].
  destruct (processInEdge_mem _ _ _ _ _ _ He Hwf Hd0)
    as (_ & _ & _ & P4 & _ & P6 & _).
  by apply (IH _ _ Hr).
Qed.

Lemma processVertex_Fatal_inv i s msg :
  processVertex i s = Fatal msg →
  mem_wf (mem s) →
  inputAssertion msg.
Proof.
  intros Hr Hwf. unfold processVertex in Hr.
  rewrite (bind_step _ _ _ s s) in Hr by done.
  destruct (vertexAt (m_graph s) i) as [v|]; [|done].
  case_decide; [|done].
  apply bind_Fatal_inv in Hr as [Hr|(d & s1 & Hw & Hr)].
  - unfold liftMem in Hr.
    destruct (workingDomain (m_graph s) v (mem s)) as [[??]|msg'|] eqn:Hw; [done| |done].
    injection Hr as ->. unfold workingDomain in Hw.
    apply bind_Fatal_inv in Hw as [Hw|(d0 & m0 & Hseed & Hw)].
    + unfold hybridSeed in Hw. case_decide; [done|].
      apply bind_Fatal_inv in Hw as [Hw|(t & m0 & _ & Hw)];
        [by apply deref_Fatal in Hw|].
      apply bind_Fatal_inv in Hw as [Hw|(? & ? & _ & Hw)]; [|done].
      apply UASSERT_Fatal in Hw as [_ ->]. by left.
    + apply hybridSeed_Ok in Hseed as (-> & Hd0 & _).
      eapply inEdgesLoop_Fatal_inv; [exact Hw|done|].
      destruct Hd0 as [?|(t & Ht & _)]; [by left|right; eauto].
  - case_decide; [done|].
    apply bind_Fatal_inv in Hr as [Hr|(? & ? & _ & Hr)]; [|done].
    exfalso. unfold liftMem in Hr.
    destruct (simplifyDomain d (mem s1)) as [[??]|msg'|] eqn:Hs; [done| |done].
    clear Hr. unfold simplifyDomain in Hs.
    apply bind_Fatal_inv in Hs as [Hs|(t & m0 & _ & Hs)];
      [by apply deref_Fatal in Hs|].
    destruct (backp t); [done|].
    unfold bind, store, getSenTree, deleteTree, ret in Hs. cbn in Hs.
    by destruct (List.find _ _).
Qed.

Lemma forEach_Fatal_inv l s msg :
  forEach processVertex l s = Fatal msg →
  mem_wf (mem s) →
  inputAssertion msg.
Proof.
  revert s. induction l as [|i l IH]; intros s Hr Hwf; [done|].
  cbn in Hr. apply bind_Fatal_inv in Hr as [Hr|([] & s1 & Hi & Hr)];
    [by eapply processVertex_Fatal_inv|].
  apply (IH _ Hr). by apply (processVertex_step _ _ _ Hi Hwf).
Qed.

Lemma constructor_Fatal_inv dl s msg :
  V3OrderProcessDomains dl s = Fatal msg →
  mem_wf (mem s) →
  inputAssertion msg ∨
  (dl = true ∧ new_ofstream_fails logFilename = true ∧
   msg = "Can't write file: " +:+ logFilename).
Proof.
  intros Hr Hwf. unfold V3OrderProcessDomains in Hr.
  rewrite (bind_step _ _ _ tt (resetState s)) in Hr by done.
  apply bind_Fatal_inv in Hr as [Hr|([] & s1 & Hpass & Hr)].
  { left. by apply (forEach_Fatal_inv _ _ _ Hr). }
  apply bind_Fatal_inv in Hr as [Hr|(rep & sa & Hrep & Hr)].
  { destruct dl; [|done]. right. split; [done|].
    apply bind_Fatal_inv in Hr as [Hr|(? & ? & _ & Hr)]; [|done].
    destruct (new_ofstream_fails logFilename) eqn:Hf.
    { rewrite (processEdgeReport_fails _ Hf) in Hr. by injection Hr as <-. }
    exfalso. unfold processEdgeReport in Hr. cbv zeta in Hr. rewrite Hf in Hr.
    rewrite (bind_step _ _ _ s1 s1) in Hr by done.
    apply bind_Fatal_inv in Hr as [Hr|(? & ? & _ & Hr)]; [|done].
    unfold liftMem in Hr.
    destruct (reportOf (m_graph s1) (mem s1)) as [[??]|msg'|] eqn:Hrp; [done| |done].
    clear Hr. revert Hrp. generalize (m_graph s1). intros vs.
    induction vs as [|[[[nodep hyb|k vscp] dm d es]|] vs IH]; cbn; [done|done| |done].
    intros Hrp. apply bind_Fatal_inv in Hrp as [Hrp|(? & m1 & Hl & Hrp)].
    - unfold reportLine in Hrp. case_decide; [done|].
      apply bind_Fatal_inv in Hrp as [Hrp|(? & ? & _ & Hrp)]; [|done].
      by apply deref_Fatal in Hrp.
    - apply reportLine_Ok in Hl as ->.
      apply bind_Fatal_inv in Hrp as [Hrp|(? & ? & _ & Hrp)]; [|done]. auto. }
  exfalso.
  assert (sa = s1) as ->.
  { destruct dl; [|by injection Hrep as _ <-].
    apply bind_Ok in Hrep as (lines & sr & Hrep & [= _ <-]).
    by apply processEdgeReport_Ok in Hrep as [-> _]. }
  rewrite (bind_step _ _ _ s1 s1) in Hr by done.
  apply bind_Fatal_inv in Hr as [Hr|(? & ? & _ & Hr)]; [|done].
  pose proof (processDomains_recorded _ _ Hpass) as [Hnd Hrec].
  destruct (deleteLoop_Ok _ s1 Hnd Hrec) as (s2 & Hrun & _). congruence.
Qed.

(** ** Every tree that the pass makes has items *)

Lemma canonical_items h p :
  all_items h → canonical h p → itemsAt h p ≠ [].
Proof.
  intros Hall (t & Ht & _). unfold itemsAt. rewrite Ht. by eapply Hall.
Qed.

Lemma edge_settled_nonempty h g e :
  edge_settled h g e → all_items h → h !! m_deleteDomainp = None →
  contributesNothing g e ∨ edgeItems h g e ≠ [].
Proof.
  intros (fv & Hfv & Hcase) Hall Hdel. unfold edgeItems, contributesNothing.
  rewrite Hfv.
  destruct Hcase as [Hw|[Hm|[Hd Hx]]].
  { left. exists fv. split; [done|]. by left. }
  { left. exists fv. split; [done|]. right. by left. }
  destruct (decide (weight e = 0)) as [Hw|Hw].
  { left. exists fv. split; [done|]. by left. }
  destruct (domainMatters fv) eqn:Hm.
  2:{ left. exists fv. split; [done|]. right. by left. }
  cbn. destruct Hd as [Hd|Hd].
  - destruct (kind fv) as [|k vscp] eqn:Hk.
    { left. exists fv. split; [done|]. right. right. by rewrite Hk. }
    destruct (m_externalDomains vscp) as [|p exts] eqn:Hexts.
    { left. exists fv. split; [done|]. right. right. by rewrite Hk. }
    right. apply Forall_cons in Hx as [Hp _].
    apply (canonical_items _ _ Hall) in Hp. cbn.
    destruct (itemsAt h p); [done|]. intros Hnil.
    apply app_eq_nil in Hnil as [_ Hnil]. done.
  - right. apply (canonical_items _ _ Hall) in Hd.
    destruct (itemsAt h (domainp fv)); done.
Qed.

Lemma settled_items_nonempty h g v :
  vertex_settled h g v → all_items h → h !! m_deleteDomainp = None →
  (noHybrid v ∧ Forall (contributesNothing g) (inEdges v)) ∨
  inputItems h g v ≠ [].
Proof.
  intros [Hh Hes] Hall Hdel. unfold inputItems.
  destruct Hh as [Hh|Hh].
  2:{ right. apply (canonical_items _ _ Hall) in Hh.
      destruct (itemsAt h (hybridOf v)); done. }
  assert (noHybrid v) as Hnh.
  { unfold noHybrid. unfold hybridOf in Hh. by destruct (kind v). }
  induction Hes as [|e es He _ IH]; [left; by split|].
  destruct (edge_settled_nonempty _ _ _ He Hall Hdel) as [Hc|Hne].
  - destruct IH as [[_ IH]|IH]; [left; split; [done|by constructor]|].
    right. intros Hnil. apply IH.
    apply app_eq_nil in Hnil as [Hn1 Hn2]. cbn in Hn2.
    apply app_eq_nil in Hn2 as [_ Hn2]. by rewrite Hn1, Hn2.
  - right. intros Hnil. apply app_eq_nil in Hnil as [_ Hn2]. cbn in Hn2.
    apply app_eq_nil in Hn2 as [Hn2 _]. done.
Qed.

Lemma processVertex_items i s s' :
  processVertex i s = Ok (tt, s') →
  mem_wf (mem s) →
  simplifier_keeps_items →
  all_items (heap (mem s)) →
  all_items (heap (mem s')).
Proof.
  intros Hr Hwf Hkeeps Hall.
  apply processVertex_Ok in Hr
    as [[Hskip ->]|[(v & m1 & Hv & Hd & Hw & ->)|
                    (v & d & m1 & d' & m2 & Hv & Hd & Hw & Hdn & Hs & ->)]];
    cbn [mem withDomain]; [done| |].
  - destruct (workingDomain_mem _ _ _ _ _ Hw Hwf) as (_ & W2 & W3 & _ & _ & Hwf1 & _).
    intros q t Hq. destruct (backp t) eqn:Hb.
    + apply (Hall q). by apply (W2 q t Hb).
    + destruct (W3 q t Hb Hq) as [->|?]; [|by eapply Hall].
      destruct Hwf1 as (H0 & _). congruence.
  - destruct (workingDomain_mem _ _ _ _ _ Hw Hwf)
      as (W1 & W2 & W3 & _ & W5 & Hwf1 & _).
    pose proof (workingDomain_settled _ _ _ _ _ Hw Hwf) as Hset.
    pose proof Hwf as (_ & Hdel & _).
    assert (∀ q t, heap m1 !! q = Some t → sensesp t ≠ []) as Hall1.
    { intros q t Hq. destruct (backp t) eqn:Hb.
      { apply (Hall q). by apply (W2 q t Hb). }
      destruct (W3 q t Hb Hq) as [->|?]; [|by eapply Hall].
      destruct (settled_items_nonempty _ _ _ Hset Hall Hdel) as [Hnone|Hne].
      { by apply W5 in Hnone. }
      intros Hnil. apply Hne.
      destruct (inputItems (heap (mem s)) (m_graph s) v) as [|x l]; [done|].
      assert (x ∈ itemsAt (heap m1) d) as Hx by (apply W1, elem_of_cons; by left).
      unfold itemsAt in Hx. rewrite Hq, Hnil in Hx. by apply elem_of_nil in Hx. }
    destruct (simplifyDomain_mem _ _ _ _ Hs Hwf1)
      as (t & Ht & [(_ & _ & ->)|(Hb & (tr & Htr & _ & Hsr) & _ & _ & S4 & _)]);
      [done|].
    intros q tq Hq. destruct (S4 q tq Hq) as [[_ Hq1]|(-> & _)]; [by eapply Hall1|].
    assert (tq = tr) as -> by congruence. rewrite Hsr.
    apply Hkeeps. by eapply Hall1.
Qed.

Lemma forEach_items l s s' :
  forEach processVertex l s = Ok (tt, s') →
  mem_wf (mem s) →
  simplifier_keeps_items →
  all_items (heap (mem s)) →
  all_items (heap (mem s')).
Proof.
  revert s. induction l as [|i l IH]; intros s Hr Hwf Hkeeps Hall.
  { by injection Hr as <-. }
  apply forEach_Ok in Hr as (s1 & H1 & Hr).
  apply (IH _ Hr); [|done|by eapply processVertex_items].
  by apply (processVertex_step _ _ _ H1 Hwf).
Qed.

(** ** When the loops return *)

Lemma combineDomains_total ap bp m :
  ap = m_deleteDomainp ∨ is_Some (heap m !! ap) →
  (∃ tb, heap m !! bp = Some tb ∧ sensesp tb ≠ []) →
  heap m !! m_deleteDomainp = None →
  ∃ r m', combineDomains ap bp m = Ok (r, m').
Proof.
  intros Hap (tb & Htb & Hne) Hdel. rewrite combineDomains_eq.
  case_decide as Hab; [by eexists _, _|].
  case_decide as Had; [by eexists _, _|].
  case_decide as Hbd; [congruence|].
  destruct Hap as [?|[ta Hta]]; [done|].
  rewrite (bind_step _ _ _ ta m) by (by apply deref_Ok).
  destruct (sensesp tb) as [|x items] eqn:Hitems; [done|].
  destruct (backp ta) eqn:Hba.
  - unfold cloneTree, alloc.
    set (p := newp (heap m)).
    set (m1 := set_heap (<[p := {| backp := false; sensesp := sensesp ta;
                                   isMulti := isMulti ta |}]> (heap m)) m).
    rewrite (bind_step _ _ _ p m1) by done.
    assert (p ≠ bp) as Hpb.
    { intros Heq. pose proof (newp_fresh (heap m)) as Hf. fold p in Hf. congruence. }
    assert (heap m1 !! bp = Some tb) as Htb1.
    { unfold m1. cbn. by rewrite lookup_insert_ne. }
    rewrite (bind_step _ _ _ tb m1) by (by apply deref_Ok).
    rewrite Hitems.
    assert (∃ m2, addSensesp p (x :: items) m1 = Ok (tt, m2)) as [m2 Hadd].
    { cbn. unfold bind, deref, store. unfold m1 at 1. cbn.
      rewrite lookup_insert_eq. eauto. }
    destruct (backp tb).
    + rewrite (bind_step _ _ _ _ _ Hadd). by eexists _, _.
    + rewrite (bind_step _ _ _ _ _ Hadd).
      unfold bind, deleteTree, ret. by eexists _, _.
  - rewrite (bind_step _ _ _ ap m) by done.
    rewrite (bind_step _ _ _ tb m) by (by apply deref_Ok).
    rewrite Hitems.
    assert (∃ m2, addSensesp ap (x :: items) m = Ok (tt, m2)) as [m2 Hadd].
    { cbn. unfold bind, deref, store. rewrite Hta. eauto. }
    destruct (backp tb).
    + rewrite (bind_step _ _ _ _ _ Hadd). by eexists _, _.
    + rewrite (bind_step _ _ _ _ _ Hadd).
      unfold bind, deleteTree, ret. by eexists _, _.
Qed.

Lemma goodDomain_same_canon m m' p :
  same_canon m m' → goodDomain (heap m) p → goodDomain (heap m') p.
Proof.
  intros Hsc (t & Ht & Hb & Hrest). exists t. split; [|done].
  by apply (Hsc p t Hb).
Qed.

Lemma externalLoop_total exts acc m :
  mem_wf m →
  acc = m_deleteDomainp ∨ is_Some (heap m !! acc) →
  Forall (goodDomain (heap m)) exts →
  ∃ r m', externalLoop exts acc m = Ok (r, m').
Proof.
  revert acc m. induction exts as [|e rest IH]; intros acc m Hwf Hacc Hgood.
  { by eexists _, _. }
  apply Forall_cons in Hgood as [(te & Hte & Hb & Hc & Hne) Hrest].
  pose proof Hwf as (_ & Hdel & _).
  destruct (combineDomains_total acc e m Hacc ltac:(eauto) Hdel) as (r1 & m1 & Hcomb).
  destruct (combineDomains_mem _ _ _ _ _ Hcomb Hdel ltac:(eauto))
    as (_ & C2 & _ & _ & C5 & _).
  assert (mem_wf m1) as Hwf1.
  { eapply mem_wf_le; [exact Hwf|]. by eapply combineDomains_canon_le. }
  destruct (IH r1 m1 Hwf1 ltac:(by right)) as (r & m' & Hr).
  { eapply Forall_impl; [exact Hrest|]. intros p.
    apply goodDomain_same_canon. intros q t Hbt. apply (C2 q t Hbt). }
  exists r, m'. cbn.
  rewrite (bind_step _ _ _ te m) by (by apply deref_Ok).
  rewrite (bind_step _ _ _ tt m) by (apply UASSERT_Ok; by rewrite Hc).
  rewrite (bind_step _ _ _ tt m) by (apply UASSERT_Ok; by rewrite Hb).
  by rewrite (bind_step _ _ _ _ _ Hcomb).
Qed.

Lemma processInEdge_total g e d0 m :
  mem_wf m →
  liveOrNull m d0 →
  edge_ok (heap m) g e →
  ∃ d m', processInEdge g e d0 m = Ok (d, m').
Proof.
  intros Hwf Hd0 (fv & Hfv & Hcase).
  destruct (decide (weight e = 0 ∨ domainMatters fv = false)) as [Hskip|Hmain].
  { exists d0, m. apply processInEdge_skip. exists fv. split; [done|].
    destruct Hskip; auto. }
  assert (weight e ≠ 0 ∧ domainMatters fv = true) as [Hw Hm].
  { split; [intros ?; apply Hmain; by left|].
    destruct (domainMatters fv); [done|]. exfalso. apply Hmain. by right. }
  destruct Hcase as [?|[?|[Hfrom Hexts]]]; [done|congruence|].
  rewrite (processInEdge_unfold _ _ _ _ _ Hfv Hw Hm).
  set (exts := match kind fv with
               | OrderVarVertex _ vscp => m_externalDomains vscp
               | OrderLogicVertex _ _ => []
               end).
  assert (Forall (goodDomain (heap m)) exts) as Hgood.
  { unfold exts. by destruct (kind fv). }
  assert (checkFromDomain (domainp fv) m = Ok (tt, m)) as Hchk.
  { unfold checkFromDomain. case_decide; [done|].
    destruct Hfrom as [?|(t & Ht & Hb & Hc & _)]; [done|].
    rewrite (bind_step _ _ _ t m) by (by apply deref_Ok).
    rewrite (bind_step _ _ _ tt m) by (apply UASSERT_Ok; by rewrite Hc).
    apply UASSERT_Ok. by rewrite Hb. }
  assert (domainp fv = m_deleteDomainp ∨ is_Some (heap m !! domainp fv)) as Hacc.
  { destruct Hfrom as [?|(t & Ht & _)]; eauto. }
  destruct (externalLoop_total exts (domainp fv) m Hwf Hacc Hgood) as (r1 & m1 & Hx).
  rewrite (bind_step _ _ _ _ _ Hchk), (bind_step _ _ _ _ _ Hx).
  case_decide as Hr1; [by eexists _, _|].
  case_decide as Hd0n; [by eexists _, _|].
  destruct (externalLoop_mem _ _ _ _ _ Hx Hwf Hacc)
    as (E1 & _ & _ & E4 & E5 & _ & _ & E8 & _).
  destruct E8 as (_ & Hdel1 & _).
  apply combineDomains_total; [right| |done].
  - destruct Hd0 as [?|[t0 Ht0]]; [done|]. exists t0. apply E4; [done|].
    destruct (backp t0) eqn:Hb0; [by left|right].
    destruct Hfrom as [->|(t & Ht & Hb & _)]; intros ->; [|congruence].
    destruct Hwf as (_ & H1 & _). congruence.
  - destruct E5 as [?|[t1 Ht1]]; [done|]. exists t1. split; [done|].
    assert (∃ x, x ∈ itemsAt (heap m1) r1) as [x Hx1].
    { destruct Hfrom as [Hfd|(t & Ht & _ & _ & Hne)].
      - destruct exts as [|p exts'] eqn:Hexts'.
        { injection Hx as <- _. done. }
        apply Forall_cons in Hgood as [(tp & Htp & _ & _ & Hnep) _].
        destruct (sensesp tp) as [|x l] eqn:Hsp; [done|].
        exists x. apply E1. right. exists p. split; [apply elem_of_cons; by left|].
        unfold itemsAt. rewrite Htp, Hsp. apply elem_of_cons. by left.
      - destruct (sensesp t) as [|x l] eqn:Hst; [done|].
        exists x. apply E1. left. unfold itemsAt. rewrite Ht, Hst.
        apply elem_of_cons. by left. }
    unfold itemsAt in Hx1. rewrite Ht1 in Hx1. intros Hnil.
    rewrite Hnil in Hx1. by apply elem_of_nil in Hx1.
Qed.

Lemma edge_ok_same_canon m m' g e :
  same_canon m m' → edge_ok (heap m) g e → edge_ok (heap m') g e.
Proof.
  intros Hsc (fv & Hfv & Hcase). exists fv. split; [done|].
  destruct Hcase as [?|[?|[Hd Hx]]]; [by left|right; by left|].
  right. right. split.
  - destruct Hd; [by left|right; by eapply goodDomain_same_canon].
  - destruct (kind fv); [done|]. eapply Forall_impl; [exact Hx|].
    intros p. by apply goodDomain_same_canon.
Qed.

Lemma inEdgesLoop_total g es d0 m :
  mem_wf m →
  liveOrNull m d0 →
  Forall (edge_ok (heap m) g) es →
  ∃ d m', inEdgesLoop g es d0 m = Ok (d, m').
Proof.
  revert d0 m. induction es as [|e es IH]; intros d0 m Hwf Hd0 Hes.
  { by eexists _, _. }
  apply Forall_cons in Hes as [He Hes].
  destruct (processInEdge_total g e d0 m Hwf Hd0 He) as (d1 & m1 & H1).
  destruct (processInEdge_mem _ _ _ _ _ _ H1 Hwf Hd0)
    as (_ & P2 & _ & P4 & _ & P6 & _).
  destruct (IH d1 m1 P6 P4) as (d & m' & Hr).
  { eapply Forall_impl; [exact Hes|]. intros e'. by apply edge_ok_same_canon. }
  exists d, m'. cbn. by rewrite (bind_step _ _ _ _ _ H1).
Qed.

Lemma workingDomain_total g v m :
  mem_wf m →
  inputs_ok (heap m) g v →
  ∃ d m', workingDomain g v m = Ok (d, m').
Proof.
  intros Hwf [Hh Hes].
  assert (hybridSeed v m = Ok (hybridOf v, m)) as Hseed.
  { unfold hybridSeed. fold (hybridOf v). case_decide; [done|].
    destruct Hh as [?|(t & Ht & Hb)]; [done|].
    rewrite (bind_step _ _ _ t m) by (by apply deref_Ok).
    rewrite (bind_step _ _ _ tt m) by (apply UASSERT_Ok; by rewrite Hb). done. }
  destruct (inEdgesLoop_total g (inEdges v) (hybridOf v) m Hwf) as (d & m' & Hr).
  - destruct Hh as [?|(t & Ht & _)]; [by left|right; eauto].
  - done.
  - exists d, m'. unfold workingDomain. by rewrite (bind_step _ _ _ _ _ Hseed).
Qed.

Lemma simplifyDomain_total p m :
  is_Some (heap m !! p) → ∃ r m', simplifyDomain p m = Ok (r, m').
Proof.
  intros [t Ht]. unfold simplifyDomain.
  rewrite (bind_step _ _ _ t m) by (by apply deref_Ok).
  destruct (backp t); [by eexists _, _|].
  unfold bind, store, getSenTree, deleteTree, ret. cbn.
  destruct (List.find _ _); by eexists _, _.
Qed.

Lemma processVertex_total i s :
  mem_wf (mem s) →
  (∀ v, vertexAt (m_graph s) i = Some v → domainp v = nullptr →
        inputs_ok (heap (mem s)) (m_graph s) v) →
  ∃ s', processVertex i s = Ok (tt, s').
Proof.
  intros Hwf Hin. unfold processVertex. rewrite (bind_step _ _ _ s s) by done.
  destruct (vertexAt (m_graph s) i) as [v|] eqn:Hv; [|by eexists].
  case_decide as Hd; [|by eexists].
  destruct (workingDomain_total _ _ _ Hwf (Hin v eq_refl Hd)) as (d & m1 & Hw).
  unfold bind at 1. unfold liftMem at 1. rewrite Hw.
  case_decide as Hdn; [by eexists|].
  destruct (workingDomain_mem _ _ _ _ _ Hw Hwf) as (_ & _ & _ & W4 & _).
  destruct W4 as [?|Hlive]; [done|].
  destruct (simplifyDomain_total d m1 Hlive) as (d' & m2 & Hs).
  unfold bind at 1. unfold liftMem at 1. cbn [mem]. rewrite Hs. by eexists.
Qed.

(** ** When the pass returns *)

Lemma hasCombo_false t :
  hasCombo t = false ↔ ∀ x, x ∈ sensesp t → isCombo x = false.
Proof.
  unfold hasCombo. split.
  - intros Hex x Hx. destruct (isCombo x) eqn:Hc; [|done].
    assert (existsb isCombo (sensesp t) = true) as Ht; [|congruence].
    apply existsb_exists. exists x. split; [|done]. by apply list_elem_of_In.
  - intros Hall. destruct (existsb isCombo (sensesp t)) eqn:Hex; [|done].
    apply existsb_exists in Hex as (x & Hx & Hc).
    apply list_elem_of_In in Hx. rewrite (Hall x Hx) in Hc. done.
Qed.

Lemma goodDomain_weaken (h h' : gmap Z AstSenTree) p :
  h ⊆ h' → goodDomain h p → goodDomain h' p.
Proof.
  intros Hsub (t & Ht & Hrest). exists t. split; [|done]. by eapply lookup_weaken.
Qed.

Lemma goodDomain_items h p x :
  goodDomain h p → x ∈ itemsAt h p → isCombo x = false.
Proof.
  intros (t & Ht & _ & Hc & _). unfold itemsAt. rewrite Ht.
  by apply hasCombo_false.
Qed.

Lemma goodDomain_nonempty h p : goodDomain h p → itemsAt h p ≠ [].
Proof. intros (t & Ht & _ & _ & Hne). unfold itemsAt. by rewrite Ht. Qed.

Lemma edge_ok_items h g e x :
  edge_ok h g e → h !! m_deleteDomainp = None →
  x ∈ edgeItems h g e → isCombo x = false.
Proof.
  intros (fv & Hfv & Hcase) Hdel. unfold edgeItems. rewrite Hfv.
  case_decide as Hw; [by intros ?%elem_of_nil|].
  destruct (domainMatters fv) eqn:Hm; [|by intros ?%elem_of_nil]. cbn.
  destruct Hcase as [?|[?|[Hd Hx]]]; [done|done|].
  intros [Hin|Hin]%elem_of_app.
  - destruct Hd as [Hd|Hd]; [|by eapply goodDomain_items].
    rewrite Hd in Hin. unfold itemsAt in Hin. rewrite Hdel in Hin.
    by apply elem_of_nil in Hin.
  - destruct (kind fv) as [|k vscp]; [by apply elem_of_nil in Hin|].
    apply elem_of_concat_itemsAt in Hin as (p & Hp & Hin).
    rewrite Forall_forall in Hx. by eapply goodDomain_items; [apply Hx|].
Qed.

Lemma edge_ok_nonempty h g e :
  edge_ok h g e → h !! m_deleteDomainp = None →
  contributesNothing g e ∨ edgeItems h g e ≠ [].
Proof.
  intros (fv & Hfv & Hcase) Hdel. unfold edgeItems, contributesNothing.
  rewrite Hfv.
  destruct Hcase as [Hw|[Hm|[Hd Hx]]].
  { left. exists fv. split; [done|]. by left. }
  { left. exists fv. split; [done|]. right. by left. }
  destruct (decide (weight e = 0)) as [Hw|Hw].
  { left. exists fv. split; [done|]. by left. }
  destruct (domainMatters fv) eqn:Hm.
  2:{ left. exists fv. split; [done|]. right. by left. }
  cbn. destruct Hd as [Hd|Hd].
  - destruct (kind fv) as [|k vscp] eqn:Hk.
    { left. exists fv. split; [done|]. right. right. by rewrite Hk. }
    destruct (m_externalDomains vscp) as [|p exts] eqn:Hexts.
    { left. exists fv. split; [done|]. right. right. by rewrite Hk. }
    right. apply Forall_cons in Hx as [Hp _].
    apply goodDomain_nonempty in Hp. cbn.
    destruct (itemsAt h p); [done|]. intros Hnil.
    apply app_eq_nil in Hnil as [_ Hnil]. done.
  - right. apply goodDomain_nonempty in Hd.
    destruct (itemsAt h (domainp fv)); done.
Qed.

Lemma inputItems_combo_free h g v x :
  hybridOf v = nullptr ∨ goodDomain h (hybridOf v) →
  Forall (edge_ok h g) (inEdges v) →
  h !! nullptr = None → h !! m_deleteDomainp = None →
  x ∈ inputItems h g v → isCombo x = false.
Proof.
  intros Hh Hes Hnull Hdel. unfold inputItems.
  intros [Hin|Hin]%elem_of_app.
  - destruct Hh as [Hh|Hh]; [|by eapply goodDomain_items].
    rewrite Hh in Hin. unfold itemsAt in Hin. rewrite Hnull in Hin.
    by apply elem_of_nil in Hin.
  - revert Hin. induction Hes as [|e es He _ IH]; cbn; [by intros ?%elem_of_nil|].
    intros [Hin|Hin]%elem_of_app; [by eapply edge_ok_items|auto].
Qed.

Lemma inputItems_nonempty h g v :
  hybridOf v = nullptr ∨ goodDomain h (hybridOf v) →
  Forall (edge_ok h g) (inEdges v) →
  h !! m_deleteDomainp = None →
  (noHybrid v ∧ Forall (contributesNothing g) (inEdges v)) ∨
  inputItems h g v ≠ [].
Proof.
  intros Hh Hes Hdel. unfold inputItems.
  destruct Hh as [Hh|Hh].
  2:{ right. apply goodDomain_nonempty in Hh.
      destruct (itemsAt h (hybridOf v)); done. }
  assert (noHybrid v) as Hnh.
  { unfold noHybrid. unfold hybridOf in Hh. by destruct (kind v). }
  induction Hes as [|e es He _ IH]; [left; by split|].
  destruct (edge_ok_nonempty _ _ _ He Hdel) as [Hc|Hne].
  - destruct IH as [[_ IH]|IH]; [left; split; [done|by constructor]|].
    right. intros Hnil. apply IH.
    apply app_eq_nil in Hnil as [Hn1 Hn2]. cbn in Hn2.
    apply app_eq_nil in Hn2 as [_ Hn2]. by rewrite Hn1, Hn2.
  - right. intros Hnil. apply app_eq_nil in Hnil as [_ Hn2]. cbn in Hn2.
    apply app_eq_nil in Hn2 as [Hn2 _]. done.
Qed.

Section Total.

Variable s0 : State.
Hypothesis keeps : simplifier_keeps_good.
Hypothesis ordered : inputs_ordered (heap (mem s0)) (m_graph s0).

Lemma ordered_inputs_ok k s v :
  mem_wf (mem s) →
  graph_le (m_graph s0) (m_graph s) →
  heap (mem s0) ⊆ heap (mem s) →
  domains_good (heap (mem s)) (m_graph s) →
  (∀ j vj, (j < k)%nat → vertexAt (m_graph s) j = Some vj → domainp vj ≠ nullptr) →
  vertexAt (m_graph s) k = Some v →
  domainp v = nullptr →
  (hybridOf v = nullptr ∨ goodDomain (heap (mem s)) (hybridOf v)) ∧
  Forall (edge_ok (heap (mem s)) (m_graph s)) (inEdges v).
Proof using Type + ordered.
  intros Hwf Hg Hsub Hgood Hbefore Hv Hd.
  pose proof Hg as [_ Hgl]. pose proof (Hgl k) as Hgk.
  destruct (vertexAt (m_graph s0) k) as [v0|] eqn:Hv0; [|congruence].
  destruct Hgk as (v' & Hv' & Hk & _ & Hin & Hdom).
  assert (v' = v) as -> by congruence.
  assert (domainp v0 = nullptr) as Hd0.
  { destruct (decide (domainp v0 = nullptr)) as [|Hne]; [done|].
    rewrite <- (Hdom Hne). done. }
  destruct (ordered k v0 Hv0 Hd0) as [Hh Hes].
  assert (hybridOf v = hybridOf v0) as Hhy by (unfold hybridOf; by rewrite Hk).
  rewrite Hhy, Hin. split.
  { destruct Hh; [by left|right; by eapply goodDomain_weaken]. }
  eapply Forall_impl; [exact Hes|]. cbn. intros e (fv0 & Hfv0 & Hcase).
  pose proof (Hgl (fromp e)) as Hgf. rewrite Hfv0 in Hgf.
  destruct Hgf as (fv & Hfv & Hfk & Hfm & _ & Hfd).
  exists fv. split; [done|]. rewrite Hfm, Hfk.
  destruct Hcase as [?|[?|[Hset Hx]]]; [by left|right; by left|].
  right. right. split.
  - assert (domainp fv ≠ nullptr) as Hne.
    { destruct Hset as [Hne|Hlt]; [by rewrite (Hfd Hne)|by eapply Hbefore]. }
    destruct (Hgood _ _ Hfv) as [?|[?|?]]; [done|by left|by right].
  - destruct (kind fv0); [done|]. eapply Forall_impl; [exact Hx|].
    intros p. by apply goodDomain_weaken.
Qed.

Lemma forEach_total n k s :
  mem_wf (mem s) →
  graph_le (m_graph s0) (m_graph s) →
  heap (mem s0) ⊆ heap (mem s) →
  domains_good (heap (mem s)) (m_graph s) →
  (∀ j vj, (j < k)%nat → vertexAt (m_graph s) j = Some vj → domainp vj ≠ nullptr) →
  ∃ s', forEach processVertex (seq k n) s = Ok (tt, s') ∧
        domains_good (heap (mem s')) (m_graph s').
Proof using Type + keeps + ordered.
  revert k s. induction n as [|n IH]; intros k s Hwf Hg Hsub Hgood Hbefore.
  { by exists s. }
  destruct (processVertex_total k s Hwf) as (s1 & H1).
  { intros v Hv Hd.
    destruct (ordered_inputs_ok k s v Hwf Hg Hsub Hgood Hbefore Hv Hd) as [Hh Hes].
    split; [|done]. destruct Hh as [?|(t & Ht & Hb & _)]; [by left|right].
    by exists t. }
  destruct (processVertex_step _ _ _ H1 Hwf) as (A1 & Hwf1 & _ & A4).
  pose proof (processVertex_pass_le _ _ _ H1) as (Hg1 & _).
  destruct (IH (S k) s1) as (s' & Hr & Hgood'); [done| | | | |].
  - by eapply graph_le_trans.
  - by etrans.
  - intros j vj Hvj.
    destruct (decide (j = k)) as [->|Hjk].
    2:{ rewrite (processVertex_other _ _ _ _ H1 Hjk) in Hvj.
        destruct (Hgood _ _ Hvj) as [?|[?|?]]; [by left|right; by left|].
        right. right. by eapply goodDomain_weaken. }
    pose proof Hg1 as [_ Hgl]. pose proof (Hgl k) as Hgk.
    destruct (vertexAt (m_graph s) k) as [v|] eqn:Hv; [|congruence].
    destruct (decide (domainp v = nullptr)) as [Hd|Hd].
    2:{ destruct Hgk as (v' & Hv' & _ & _ & _ & Hkeep).
        assert (v' = vj) as -> by congruence. rewrite (Hkeep Hd).
        destruct (Hgood _ _ Hv) as [?|[?|?]]; [done|right; by left|].
        right. right. by eapply goodDomain_weaken. }
    destruct (A4 v eq_refl Hd) as (d' & Hv1 & _ & _ & Hdead & Hlive & _).
    rewrite Hv1 in Hvj. injection Hvj as <-. cbn.
    destruct (decide (d' = m_deleteDomainp)) as [|Hne]; [right; by left|].
    right. right. destruct (Hlive Hne) as (t & l & Ht & Hb & Hl & Hcase).
    destruct (ordered_inputs_ok k s v Hwf Hg Hsub Hgood Hbefore Hv Hd) as [Hh Hes].
    pose proof Hwf as (Hnull & Hdel & _).
    assert (∀ x, x ∈ l → isCombo x = false) as Hfree.
    { intros x Hx. apply Hl in Hx. by eapply inputItems_combo_free. }
    assert (l ≠ []) as Hlne.
    { destruct (inputItems_nonempty _ _ _ Hh Hes Hdel) as [Hnone|Hne'].
      - by apply Hdead in Hnone.
      - intros ->. destruct (inputItems (heap (mem s)) (m_graph s) v) as [|x l'];
          [done|].
        assert (x ∈ @nil AstSenItem) as Hx; [|by apply elem_of_nil in Hx].
        apply Hl, elem_of_cons. by left. }
    exists t. split; [done|]. split; [done|].
    destruct (keeps l Hlne Hfree) as [Hk1 Hk2].
    destruct Hcase as [Heq|Heq].
    + split; [apply hasCombo_false|]; by rewrite Heq.
    + split; [apply hasCombo_false|]; by rewrite Heq.
  - intros j vj Hlt Hvj.
    destruct (decide (j = k)) as [->|Hjk].
    2:{ rewrite (processVertex_other _ _ _ _ H1 Hjk) in Hvj.
        eapply Hbefore; [|done]. lia. }
    pose proof Hg1 as [_ Hgl]. pose proof (Hgl k) as Hgk.
    destruct (vertexAt (m_graph s) k) as [v|] eqn:Hv; [|congruence].
    destruct (decide (domainp v = nullptr)) as [Hd|Hd].
    + destruct (A4 v eq_refl Hd) as (d' & Hv1 & Hdn & _).
      rewrite Hv1 in Hvj. by injection Hvj as <-.
    + destruct Hgk as (v' & Hv' & _ & _ & _ & Hkeep).
      assert (v' = vj) as -> by congruence. by rewrite (Hkeep Hd).
  - exists s'. split; [|done]. apply forEach_Ok. eauto.
Qed.

End Total.

Lemma pass_total s :
  simplifier_keeps_good →
  mem_wf (mem s) →
  domains_good (heap (mem s)) (m_graph s) →
  inputs_ordered (heap (mem s)) (m_graph s) →
  ∃ s', processDomains s = Ok (tt, s') ∧
        domains_good (heap (mem s')) (m_graph s').
Proof.
  intros Hkeeps Hwf Hgood Hord.
  apply (forEach_total s Hkeeps Hord); [done|apply graph_le_refl|done|done|].
  intros j vj Hlt. lia.
Qed.

(** ** The report after the pass *)

Lemma reportOf_length vs m ls m' :
  reportOf vs m = Ok (ls, m') → length ls = length (omap slotKey vs).
Proof.
  revert ls. induction vs as [|x vs IH]; intros ls Hr.
  { by injection Hr as <- _. }
  pose proof (reportOf_Ok _ _ _ _ Hr) as ->.
  apply reportOf_cons_inv in Hr. cbn [omap list_omap].
  destruct (slotKey x) as [[[k vscp] d]|]; [|auto].
  destruct Hr as (line & ls' & _ & Hrest & ->). cbn. f_equal. auto.
Qed.

Lemma graph_le_slots g g' :
  graph_le g g' → length (omap slotKey g') = length (omap slotKey g).
Proof.
  intros [Hlen Hg].
  assert (Forall2 (λ x' x, is_Some (slotKey x') ↔ is_Some (slotKey x)) g' g) as Hall.
  { apply Forall2_same_length_lookup. split; [done|].
    intros j x' x Hx' Hx. specialize (Hg j). unfold vertexAt in Hg.
    rewrite Hx, Hx' in Hg. cbn in Hg. destruct x as [v|].
    - destruct Hg as (v' & -> & Hk & _). cbn. rewrite Hk.
      destruct (kind v); split; intros [y Hy]; try done; eauto.
    - by rewrite Hg. }
  clear Hlen Hg. induction Hall as [|x' x g' g Hx _ IH]; [done|].
  cbn [omap list_omap].
  destruct (slotKey x') as [k'|], (slotKey x) as [k|]; cbn; auto.
  - exfalso. destruct Hx as [Hx _]. by destruct Hx.
  - exfalso. destruct Hx as [_ Hx]. by destruct Hx.
Qed.

Lemma stable_sort_length l : length (stable_sort l) = length l.
Proof. unfold stable_sort. by rewrite merge_sort_Permutation. Qed.

Lemma pass_report s s1 :
  processDomains s = Ok (tt, s1) →
  state_wf s →
  new_ofstream_fails logFilename = false →
  ∃ lines, processEdgeReport s1 = Ok (lines, s1) ∧
           length lines = length (omap slotKey (m_graph s)).
Proof.
  intros Hpass Hwf Hopen.
  pose proof (processDomains_pass_le _ _ Hpass) as (Hg & _ & _ & _ & Hswf & _).
  destruct (Hswf Hwf) as [Hwf1 Hdoms].
  destruct (reportOf_total (m_graph s1) (mem s1)) as (ls & Hls).
  { intros v k vscp Hin _.
    apply list_elem_of_lookup in Hin as (j & Hj).
    assert (vertexAt (m_graph s1) j = Some v) as Hv.
    { unfold vertexAt. by rewrite Hj. }
    destruct (Hdoms j v Hv) as [Hn|[?|(t & Ht & _)]]; [|by left|right; eauto].
    destruct Hwf as [Hwfm _].
    by apply (pass_all_assigned _ _ _ _ Hpass Hwfm) in Hv. }
  exists (stable_sort ls). split.
  - apply processEdgeReport_Ok. split; [done|]. split; [done|]. eauto.
  - rewrite stable_sort_length, (reportOf_length _ _ _ _ Hls).
    by apply graph_le_slots.
Qed.

Lemma constructor_report_run s s1 :
  processDomains (resetState s) = Ok (tt, s1) →
  state_wf s →
  (new_ofstream_fails logFilename = false →
   ∃ lines s2, V3OrderProcessDomains true s = Ok (Some lines, s2) ∧
               length lines = length (omap slotKey (m_graph s))) ∧
  (new_ofstream_fails logFilename = true →
   V3OrderProcessDomains true s = Fatal ("Can't write file: " +:+ logFilename)).
Proof.
  intros Hpass Hwf. split; intros Hopen.
  - destruct (pass_report (resetState s) s1 Hpass Hwf Hopen) as (lines & Hrep & Hlen).
    pose proof (processDomains_recorded _ _ Hpass) as [Hnd Hrec].
    destruct (deleteLoop_Ok _ s1 Hnd Hrec) as (s2 & Hrun & _).
    exists lines, s2. split; [|done]. unfold V3OrderProcessDomains.
    rewrite (bind_step _ _ _ tt (resetState s)) by done.
    rewrite (bind_step _ _ _ _ _ Hpass).
    rewrite (bind_step _ _ _ (Some lines) s1)
      by (by rewrite (bind_step _ _ _ _ _ Hrep)).
    rewrite (bind_step _ _ _ s1 s1) by done.
    by rewrite (bind_step _ _ _ _ _ Hrun).
  - unfold V3OrderProcessDomains.
    rewrite (bind_step _ _ _ tt (resetState s)) by done.
    rewrite (bind_step _ _ _ _ _ Hpass).
    apply bind_Fatal. apply bind_Fatal. by apply processEdgeReport_fails.
Qed.

Lemma domains_good_state_wf s :
  mem_wf (mem s) → domains_good (heap (mem s)) (m_graph s) → state_wf s.
Proof.
  intros Hwf Hgood. split; [done|]. intros j v Hv.
  destruct (Hgood j v Hv) as [?|[?|(t & Ht & Hb & _)]];
    [by left|right; by left|right; right; by exists t].
Qed.

Lemma constructor_total dl s :
  simplifier_keeps_good →
  mem_wf (mem s) →
  domains_good (heap (mem s)) (m_graph s) →
  inputs_ordered (heap (mem s)) (m_graph s) →
  (dl = true → new_ofstream_fails logFilename = false) →
  ∃ r s2, V3OrderProcessDomains dl s = Ok (r, s2).
Proof.
  intros Hkeeps Hwf Hgood Hord Hopen.
  destruct (pass_total (resetState s) Hkeeps Hwf Hgood Hord) as (s1 & Hpass & _).
  destruct dl.
  - destruct (constructor_report_run s s1 Hpass) as [Hrep _].
    { by apply domains_good_state_wf. }
    destruct (Hrep (Hopen eq_refl)) as (lines & s2 & Hrun & _). eauto.
  - pose proof (processDomains_recorded _ _ Hpass) as [Hnd Hrec].
    destruct (deleteLoop_Ok _ s1 Hnd Hrec) as (s2 & Hrun & _).
    exists None, s2. by eapply constructor_run.
Qed.

(** ** The inputs of a vertex after the deletion of the dead logic *)

Lemma elem_of_inputItems h g v x :
  x ∈ inputItems h g v ↔
  x ∈ itemsAt h (hybridOf v) ∨ ∃ e, e ∈ inEdges v ∧ x ∈ edgeItems h g e.
Proof.
  unfold inputItems. rewrite elem_of_app. apply or_iff_compat_l.
  induction (inEdges v) as [|e es IH]; cbn.
  - split; [by intros ?%elem_of_nil|by intros (e & ?%elem_of_nil & _)].
  - rewrite elem_of_app, IH. split.
    + intros [?|(e' & ? & ?)].
      * exists e. split; [apply elem_of_cons; by left|done].
      * exists e'. split; [apply elem_of_cons; by right|done].
    + intros (e' & [->|?]%elem_of_cons & ?); [by left|right; eauto].
Qed.


(** ** The working domain of a vertex *)

(** X2. Let the loop over the incoming edges of a vertex return, from a
    well-formed memory. The items of the working domain it returns are the
    items of the inputs of the vertex: of its hybrid sensitivity, of the
    domains of the sources of its edges that are not passed over, and of
    the external domains of the source variables. The working domain is
    unset exactly when the vertex has no hybrid sensitivity and every
    incoming edge is passed over. Every tree of the memory is kept as it
    was, the loop leaves no tree of its own behind but the working domain,
    and it does not touch the finder. *)
Theorem working_domain_items (g : OrderGraph) (v : OrderEitherVertex)
    (m m' : Mem) (d : Z) :
  workingDomain g v m = Ok (d, m') →
  mem_wf m →
  (∀ x, x ∈ itemsAt (heap m') d ↔ x ∈ inputItems (heap m) g v) ∧
  (d = nullptr ↔ noHybrid v ∧ Forall (contributesNothing g) (inEdges v)) ∧
  heap m ⊆ heap m' ∧
  (∀ q t, heap m' !! q = Some t → q = d ∨ heap m !! q = Some t) ∧
  m_finder m' = m_finder m.
Proof.
  intros Hr Hwf.
  destruct (workingDomain_mem _ _ _ _ _ Hr Hwf) as (W1 & W2 & W3 & _ & W5 & _ & W7).
  destruct (workingDomain_frame _ _ _ _ _ Hr Hwf) as [F1 _].
  split; [done|]. split; [done|]. split; [by apply map_subseteq_spec|].
  split; [|done]. intros q t Hq. destruct (backp t) eqn:Hb.
  - right. by apply (W2 q t Hb).
  - by apply W3.
Qed.

(** ** What the pass does to the heap *)

(** X3. Let processDomains return, from a well-formed memory. Every tree
    of the memory is still there, unchanged; a tree that was not there is
    a global tree, marked as made of several domains and known to the
    finder; so the pass frees all its intermediate trees, and from a heap
    of global trees it returns a heap of global trees. *)
Theorem pass_only_adds_global_trees (s s' : State) :
  processDomains s = Ok (tt, s') →
  mem_wf (mem s) →
  heap (mem s) ⊆ heap (mem s') ∧
  (∀ q t, heap (mem s') !! q = Some t →
          heap (mem s) !! q = Some t ∨
          (heap (mem s) !! q = None ∧ backp t = true ∧ isMulti t = true ∧
           q ∈ m_finder (mem s'))) ∧
  (all_canonical (heap (mem s)) → all_canonical (heap (mem s'))) ∧
  mem_wf (mem s').
Proof. apply pass_heap. Qed.

(** ** The domains that the pass assigns *)

(** X4. Let processDomains return, from a well-formed memory, and take a
    vertex that had no domain. Afterwards the vertex has the sentinel as
    domain exactly when it has no hybrid sensitivity and each of its
    incoming edges is cut, or comes from a vertex whose domain does not
    matter, or from a vertex that has the sentinel as domain in the graph
    that the pass returns and, if a variable, no external domain. *)
Theorem dead_iff_nothing_triggers (s s' : State) (i : nat) (v : OrderEitherVertex) :
  processDomains s = Ok (tt, s') →
  mem_wf (mem s) →
  vertexAt (m_graph s) i = Some v →
  domainp v = nullptr →
  ∃ v', vertexAt (m_graph s') i = Some v' ∧
        kind v' = kind v ∧ inEdges v' = inEdges v ∧
        (domainp v' = m_deleteDomainp ↔
         noHybrid v' ∧ Forall (contributesNothing (m_graph s')) (inEdges v')).
Proof.
  intros Hr Hwf Hv Hd.
  destruct (pass_vertex_result _ _ _ _ Hr Hwf Hv Hd) as (d' & Hv' & _ & _ & Hdead & _).
  exists (set_domainp d' v). split; [done|]. split; [done|]. split; [done|].
  exact Hdead.
Qed.

(** X5. Let processDomains return, from a well-formed memory, and take a
    vertex that had no domain and has a domain other than the sentinel
    afterwards. That domain is a global tree, and its items are those of a
    list that holds exactly the items of the inputs of the vertex in the
    graph and memory that the pass returns, or what the simplifier makes
    of such a list: what the hybrid sensitivity, the domains assigned to
    the sources of the edges that count and the external domains of the
    source variables hold. *)
Theorem assigned_domain_items (s s' : State) (i : nat) (v v' : OrderEitherVertex) :
  processDomains s = Ok (tt, s') →
  mem_wf (mem s) →
  vertexAt (m_graph s) i = Some v →
  domainp v = nullptr →
  vertexAt (m_graph s') i = Some v' →
  domainp v' ≠ m_deleteDomainp →
  vertex_settled (heap (mem s')) (m_graph s') v' ∧
  ∃ t l, heap (mem s') !! domainp v' = Some t ∧ backp t = true ∧
         (∀ x, x ∈ l ↔ x ∈ inputItems (heap (mem s')) (m_graph s') v') ∧
         (sensesp t = l ∨ sensesp t = constifyExpensiveEdit l).
Proof.
  intros Hr Hwf Hv Hd Hv' Hne.
  destruct (pass_vertex_result _ _ _ _ Hr Hwf Hv Hd)
    as (d' & Hvd & _ & Hset & _ & Hlive & _).
  rewrite Hvd in Hv'. injection Hv' as <-. split; [exact Hset|].
  exact (Hlive Hne).
Qed.

(** X6. Let the constructor return, on a well-formed memory, and take a
    vertex that had no domain. The vertex has left the graph exactly when
    it is a logic vertex without hybrid sensitivity each of whose incoming
    edges is passed over in the graph at the end of processDomains: the
    constructor deletes the logic that nothing triggers, all of it, and
    nothing else. *)
Theorem deleted_exactly_dead_logic (dl : bool) (s s2 : State)
    (r : option (list string)) (i : nat) (v : OrderEitherVertex) :
  V3OrderProcessDomains dl s = Ok (r, s2) →
  mem_wf (mem s) →
  vertexAt (m_graph s) i = Some v →
  domainp v = nullptr →
  ∃ s1, processDomains (resetState s) = Ok (tt, s1) ∧
        (vertexAt (m_graph s2) i = None ↔
         isLogic v = true ∧ noHybrid v ∧
         Forall (contributesNothing (m_graph s1)) (inEdges v)).
Proof.
  intros Hr Hwf Hv Hd.
  apply constructor_Ok in Hr as (s1 & Hpass & _ & Hdel).
  exists s1. split; [done|].
  pose proof (processDomains_recorded _ _ Hpass) as [Hnd Hrec].
  destruct (deleteLoop_Ok _ s1 Hnd Hrec) as (s2' & Hrun & _ & _ & Hgone & _ & Hkept & _).
  assert (s2' = s2) as -> by congruence.
  destruct (pass_vertex_result (resetState s) s1 i v Hpass Hwf Hv Hd)
    as (d' & Hv1 & _ & _ & Hdead & _ & Hrecd).
  split.
  - intros Hnone.
    destruct (decide (i ∈ m_logicpsToDelete s1)) as [Hin|Hnin].
    + destruct (Hrec i Hin) as (v1 & Hv1' & Hlog & Hdv).
      rewrite Hv1 in Hv1'. injection Hv1' as <-. split; [done|].
      by apply Hdead.
    + destruct (Hkept i _ Hnin Hv1) as (v2 & Hv2 & _). congruence.
  - intros (Hlog & Hnh & Hall). apply Hgone, Hrecd; [|done]. by apply Hdead.
Qed.

(** X7. Let processDomains return, from a well-formed memory. Run again
    on the state it returned, processDomains returns that very state: it
    finds every vertex with a domain, so it assigns nothing, makes no tree
    and records no vertex a second time. *)
Theorem pass_idempotent (s s' : State) :
  processDomains s = Ok (tt, s') →
  mem_wf (mem s) →
  processDomains s' = Ok (tt, s').
Proof.
  intros Hr Hwf.
  change (forEach processVertex (seq 0 (length (m_graph s'))) s' = Ok (tt, s')).
  apply forEach_skip. intros j v _ Hv. by eapply pass_all_assigned.
Qed.

(** X8. Let the constructor return, on a graph every edge of which comes
    from a vertex of the graph. The graph it leaves is such a graph again:
    the deletion of the dead logic leaves no edge without its source. *)
Theorem constructor_keeps_edges_closed (dl : bool) (s s2 : State)
    (r : option (list string)) :
  V3OrderProcessDomains dl s = Ok (r, s2) →
  edges_closed (m_graph s) →
  edges_closed (m_graph s2).
Proof.
  intros Hr Hclosed.
  apply constructor_Ok in Hr as (s1 & Hpass & _ & Hdel).
  pose proof (processDomains_recorded _ _ Hpass) as [Hnd Hrec].
  destruct (deleteLoop_Ok _ s1 Hnd Hrec)
    as (s2' & Hrun & _ & _ & Hgone & Hnone & Hkept & _).
  assert (s2' = s2) as -> by congruence.
  pose proof (processDomains_pass_le _ _ Hpass) as ([_ Hg] & _).
  assert (edges_closed (m_graph s1)) as Hc1.
  { intros j v1 e Hv1 He. pose proof (Hg j) as Hgj. cbn [resetState m_graph] in Hgj.
    destruct (vertexAt (m_graph s) j) as [v|] eqn:Hv; [|congruence].
    destruct Hgj as (v1' & Hv1' & _ & _ & Hin & _).
    rewrite Hv1 in Hv1'. injection Hv1' as <-. rewrite Hin in He.
    destruct (Hclosed j v e Hv He) as [fv Hfv].
    pose proof (Hg (fromp e)) as Hgf. cbn [resetState m_graph] in Hgf.
    rewrite Hfv in Hgf. destruct Hgf as (fv' & -> & _). eauto. }
  intros j v2 e Hv2 He.
  destruct (vertexAt (m_graph s1) j) as [v1|] eqn:Hv1;
    [|rewrite (Hnone j Hv1) in Hv2; done].
  destruct (decide (j ∈ m_logicpsToDelete s1)) as [Hin|Hnin].
  { rewrite (Hgone j Hin) in Hv2. done. }
  destruct (Hkept j v1 Hnin Hv1) as (v2' & Hv2' & _ & _ & _ & Hedges).
  assert (v2' = v2) as Heq by congruence. subst v2'.
  destruct (proj1 (Hedges e) He) as [He1 Hfrom].
  destruct (Hc1 j v1 e Hv1 He1) as [fv Hfv].
  destruct (Hkept (fromp e) fv Hfrom Hfv) as (fv2 & -> & _). eauto.
Qed.

(** ** simplifyDomain *)

(** X9. Let simplifyDomain return, in a well-formed memory. Its argument
    addresses a tree. If that is a global tree, it is returned and the
    memory is left as it was. If not, the result is a global tree whose
    items are what the simplifier makes of the items of the argument, and
    which the finder knows; the argument is freed; every other tree of the
    memory is kept; and a tree that was not there is the result, marked as
    made of several domains. *)
Theorem simplifyDomain_effect (p r : Z) (m m' : Mem) :
  simplifyDomain p m = Ok (r, m') →
  mem_wf m →
  ∃ t, heap m !! p = Some t ∧
    ((backp t = true ∧ r = p ∧ m' = m) ∨
     (backp t = false ∧
      (∃ tr, heap m' !! r = Some tr ∧ backp tr = true ∧
             sensesp tr = constifyExpensiveEdit (sensesp t)) ∧
      heap m' !! p = None ∧
      (∀ q tq, q ≠ p → heap m !! q = Some tq → heap m' !! q = Some tq) ∧
      (∀ q tq, heap m' !! q = Some tq →
               (q ≠ p ∧ heap m !! q = Some tq) ∨
               (q = r ∧ heap m !! q = None ∧ backp tq = true ∧ isMulti tq = true)) ∧
      r ∈ m_finder m')).
Proof. apply simplifyDomain_mem. Qed.

(** ** Failures *)

(** X10. Let every tree of a well-formed memory have items, and let the
    simplifier return items when it is given items. Then processDomains
    fails with a fatal assertion only on what it is given: on a hybrid
    sensitivity or a domain of a source vertex without back pointer, on an
    external domain without back pointer, or on a combinational domain.
    The constructor, the dump of the graph left aside, fails fatally only
    so, or, with the report, because the log file cannot be written: the
    assertion of the loop that deletes the dead logic never fails. And
    when processDomains returns, every tree of the memory has items
    again. *)
Theorem fatal_only_on_input (dl : bool) (s : State) (msg : string) :
  mem_wf (mem s) →
  all_items (heap (mem s)) →
  simplifier_keeps_items →
  (processDomains s = Fatal msg → inputAssertion msg) ∧
  (V3OrderProcessDomains dl s = Fatal msg →
   inputAssertion msg ∨
   (dl = true ∧ new_ofstream_fails logFilename = true ∧
    msg = "Can't write file: " +:+ logFilename)) ∧
  (∀ s', processDomains s = Ok (tt, s') → all_items (heap (mem s'))).
Proof.
  intros Hwf Hall Hkeeps. split; [|split].
  - intros Hr. by apply (forEach_Fatal_inv _ _ _ Hr).
  - intros Hr. by apply (constructor_Fatal_inv _ _ _ Hr).
  - intros s' Hr. by apply (forEach_items _ _ _ Hr).
Qed.

(** X11. Let the loop over the vertices have reached the vertex of slot
    [i], which has no domain yet. If the vertex has a hybrid sensitivity
    that addresses a tree without back pointer, processDomains fails with
    the fatal assertion on the hybrid sensitivity. If the loop over its
    incoming edges has reached an edge that is not cut, from a vertex
    whose domain matters, is not the sentinel and addresses a tree without
    combinational term and without back pointer, processDomains fails with
    the fatal assertion on the driver. *)
Theorem fatal_on_missing_backp (s s1 : State) (i : nat) (v : OrderEitherVertex) :
  (i < length (m_graph s))%nat →
  forEach processVertex (seq 0 i) s = Ok (tt, s1) →
  vertexAt (m_graph s1) i = Some v →
  domainp v = nullptr →
  (∀ t, hybridOf v ≠ nullptr →
        heap (mem s1) !! hybridOf v = Some t → backp t = false →
        processDomains s = Fatal "Hybrid senTree should have backp") ∧
  (∀ pre e post d1 m1 fv t,
     inEdges v = pre ++ e :: post →
     (d0 <- hybridSeed v ;; inEdgesLoop (m_graph s1) pre d0) (mem s1) = Ok (d1, m1) →
     vertexAt (m_graph s1) (fromp e) = Some fv →
     weight e ≠ 0 →
     domainMatters fv = true →
     domainp fv ≠ m_deleteDomainp →
     heap m1 !! domainp fv = Some t →
     hasCombo t = false →
     backp t = false →
     processDomains s = Fatal "Driver SenTree should have backp").
Proof.
  intros Hlt Hpre Hv Hd. split.
  - intros t Hh Ht Hb. apply (processDomains_Fatal_at s i s1); [done|done|].
    apply (processVertex_Fatal i s1 v); [done|done|].
    unfold workingDomain. apply bind_Fatal. unfold hybridSeed.
    fold (hybridOf v). rewrite decide_False by done.
    rewrite (bind_step _ _ _ t (mem s1)) by (by apply deref_Ok).
    apply bind_Fatal. by rewrite Hb.
  - intros pre e post d1 m1 fv t Hin Hloop Hfv Hw Hm Hnd Ht Hc Hb.
    apply (processDomains_Fatal_at s i s1); [done|done|].
    apply (processVertex_Fatal i s1 v); [done|done|].
    apply (workingDomain_Fatal _ _ _ pre e post d1 m1); [done|done|].
    rewrite (processInEdge_unfold _ _ _ _ _ Hfv Hw Hm).
    apply bind_Fatal. unfold checkFromDomain. rewrite decide_False by done.
    rewrite (bind_step _ _ _ t m1) by (by apply deref_Ok).
    rewrite (bind_step _ _ _ tt m1) by (apply UASSERT_Ok; by rewrite Hc).
    by rewrite Hb.
Qed.

(** ** Success *)

(** X12. In a well-formed memory, combineDomains returns whenever its
    first argument is the sentinel or addresses a tree and its second
    argument addresses a tree that has items. *)
Theorem combineDomains_returns (ap bp : Z) (m : Mem) (tb : AstSenTree) :
  heap m !! m_deleteDomainp = None →
  ap = m_deleteDomainp ∨ is_Some (heap m !! ap) →
  heap m !! bp = Some tb →
  sensesp tb ≠ [] →
  ∃ r m', combineDomains ap bp m = Ok (r, m').
Proof. intros Hdel Hap Hb Hne. apply combineDomains_total; eauto. Qed.

(** X13. In a well-formed memory, the iteration of the loop over the
    vertices returns for a vertex whose inputs can be processed: whose
    hybrid sensitivity, if any, is a global tree, and each of whose
    incoming edges comes from a vertex of the graph and is passed over or
    has the sentinel or global trees with items and without combinational
    term as domain of its source and as external domains. *)
Theorem vertex_iteration_returns (i : nat) (s : State) :
  mem_wf (mem s) →
  (∀ v, vertexAt (m_graph s) i = Some v → domainp v = nullptr →
        inputs_ok (heap (mem s)) (m_graph s) v) →
  ∃ s', processVertex i s = Ok (tt, s').
Proof. apply processVertex_total. Qed.

(** X14. Let the simplifier keep a list of items without combinational
    term such a list, and a list with items a list with items. On a
    well-formed memory and a graph whose domains are the sentinel or
    global trees with items and without combinational term, whose hybrid
    sensitivities and external domains are such trees, and in which the
    source of every edge that is not passed over comes with a domain or
    comes before the target of the edge, processDomains returns, and the
    domains of the graph it returns are the sentinel or global trees with
    items and without combinational term again; and the constructor
    returns: without the report always, with the report when the log file
    can be written. *)
Theorem constructor_returns_on_ordered_graph (dl : bool) (s : State) :
  simplifier_keeps_good →
  mem_wf (mem s) →
  domains_good (heap (mem s)) (m_graph s) →
  inputs_ordered (heap (mem s)) (m_graph s) →
  (∃ s', processDomains s = Ok (tt, s') ∧
         domains_good (heap (mem s')) (m_graph s')) ∧
  ((dl = true → new_ofstream_fails logFilename = false) →
   ∃ r s2, V3OrderProcessDomains dl s = Ok (r, s2)).
Proof.
  intros Hkeeps Hwf Hgood Hord. split.
  - by apply pass_total.
  - intros Hopen. by apply constructor_total.
Qed.

(** ** The report *)

(** X15. Let processDomains return, from a state whose vertices have a
    domain that is unset, the sentinel or a global tree, in a well-formed
    memory. With the report, the constructor then fails with the fatal
    error "Can't write file: " and the name of the log file when the log
    file cannot be written, before any line is made; and when the file can
    be written it returns: the report reads no tree that is not there, and
    it has one line for each variable vertex of the graph. *)
Theorem report_one_line_per_variable (s s1 : State) :
  processDomains (resetState s) = Ok (tt, s1) →
  state_wf s →
  (new_ofstream_fails logFilename = false →
   ∃ lines s2, V3OrderProcessDomains true s = Ok (Some lines, s2) ∧
               length lines = length (omap slotKey (m_graph s))) ∧
  (new_ofstream_fails logFilename = true →
   V3OrderProcessDomains true s = Fatal ("Can't write file: " +:+ logFilename)).
Proof. apply constructor_report_run. Qed.

(** ** The graph that the constructor leaves *)

(** X16. Let the constructor return, on a well-formed memory, and take a
    vertex that had no domain, is still in the graph and has a domain
    other than the sentinel. That domain is a global tree, and its items
    are those of a list that holds exactly the items of the inputs of the
    vertex in the graph and memory that the constructor leaves, or what
    the simplifier makes of such a list: the deletion of the dead logic
    takes no input away from a vertex that stays. *)
Theorem constructor_domain_items (dl : bool) (s s2 : State)
    (r : option (list string)) (i : nat) (v v2 : OrderEitherVertex) :
  V3OrderProcessDomains dl s = Ok (r, s2) →
  mem_wf (mem s) →
  vertexAt (m_graph s) i = Some v →
  domainp v = nullptr →
  vertexAt (m_graph s2) i = Some v2 →
  domainp v2 ≠ m_deleteDomainp →
  ∃ t l, heap (mem s2) !! domainp v2 = Some t ∧ backp t = true ∧
         (∀ x, x ∈ l ↔ x ∈ inputItems (heap (mem s2)) (m_graph s2) v2) ∧
         (sensesp t = l ∨ sensesp t = constifyExpensiveEdit l).
Proof.
  intros Hr Hwf Hv Hd Hv2 Hne.
  apply constructor_Ok in Hr as (s1 & Hpass & _ & Hdel).
  pose proof (processDomains_recorded _ _ Hpass) as [Hnd Hrec].
  destruct (deleteLoop_Ok _ s1 Hnd Hrec)
    as (s2' & Hrun & Hmem & _ & Hgone & _ & Hkept & _).
  assert (s2' = s2) as -> by congruence.
  destruct (pass_vertex_result (resetState s) s1 i v Hpass Hwf Hv Hd)
    as (d' & Hv1 & _ & _ & _ & Hlive & _).
  destruct (pass_heap _ _ Hpass Hwf) as (_ & _ & _ & Hwf1).
  destruct (decide (i ∈ m_logicpsToDelete s1)) as [Hin|Hnin].
  { rewrite (Hgone i Hin) in Hv2. done. }
  destruct (Hkept i _ Hnin Hv1) as (v2' & Hv2' & Hk2 & Hd2 & _ & He2).
  assert (v2' = v2) as Heq by congruence. subst v2'. cbn in Hd2.
  rewrite Hd2 in Hne |- *. destruct (Hlive Hne) as (t & l & Ht & Hb & Hl & Hcase).
  rewrite Hmem. exists t, l. split; [done|]. split; [done|]. split; [|done].
  intros x. rewrite Hl, !elem_of_inputItems.
  assert (hybridOf v2 = hybridOf v) as ->.
  { unfold hybridOf. by rewrite Hk2. }
  apply or_iff_compat_l. pose proof Hwf1 as (_ & Hdel1 & _).
  split.
  - intros (e & He & Hx). exists e.
    destruct (vertexAt (m_graph s1) (fromp e)) as [fv|] eqn:Hfv;
      [|unfold edgeItems in Hx; rewrite Hfv in Hx; by apply elem_of_nil in Hx].
    destruct (decide (fromp e ∈ m_logicpsToDelete s1)) as [Hfin|Hfnin].
    { exfalso. destruct (Hrec _ Hfin) as (fv' & Hfv' & Hlog & Hfd).
      assert (fv' = fv) as -> by congruence.
      unfold edgeItems in Hx. rewrite Hfv in Hx.
      case_decide; [by apply elem_of_nil in Hx|].
      destruct (negb (domainMatters fv)); [by apply elem_of_nil in Hx|].
      apply isLogic_kind in Hlog as (n & hy & Hk). rewrite Hk, Hfd in Hx.
      unfold itemsAt in Hx. rewrite Hdel1 in Hx. by apply elem_of_nil in Hx. }
    split; [apply He2; by split|].
    destruct (Hkept _ _ Hfnin Hfv) as (fv2 & Hfv2 & Hfk & Hfd & Hfm & _).
    unfold edgeItems in Hx |- *. rewrite Hfv in Hx. rewrite Hfv2.
    by rewrite Hfk, Hfd, Hfm.
  - intros (e & He & Hx). apply He2 in He as [He Hfnin]. exists e.
    split; [done|].
    destruct (vertexAt (m_graph s1) (fromp e)) as [fv|] eqn:Hfv.
    + destruct (Hkept _ _ Hfnin Hfv) as (fv2 & Hfv2 & Hfk & Hfd & Hfm & _).
      unfold edgeItems in Hx |- *. rewrite Hfv. rewrite Hfv2 in Hx.
      by rewrite Hfk, Hfd, Hfm in Hx.
    + destruct (deleteLoop_Ok _ s1 Hnd Hrec) as (s2'' & Hrun' & _ & _ & _ & Hnone & _).
      assert (s2'' = s2) as -> by congruence.
      unfold edgeItems in Hx. rewrite (Hnone _ Hfv) in Hx.
      by apply elem_of_nil in Hx.
Qed.

(** ** The debug output *)

Lemma debug_absorb {A} debug level p (k : M Mem A) m :
  (p ≠ m_deleteDomainp → heap m !! p = None → k m = Crash) →
  (UINFO debug level (debugDomain p) ;;; k) m = k m.
Proof.
  intros Hk. unfold UINFO. destruct (level <=? debug)%nat; [|done].
  unfold bind, debugDomain. case_decide as Hp; [done|].
  unfold bind, deref. destruct (heap m !! p) eqn:Hm; [done|].
  symmetry. by apply Hk.
Qed.

Lemma debug_live debug level p m :
  p = m_deleteDomainp ∨ is_Some (heap m !! p) →
  UINFO debug level (debugDomain p) m = Ok (tt, m).
Proof.
  intros Hp. unfold UINFO. destruct (level <=? debug)%nat; [|done].
  unfold bind, debugDomain. case_decide as Hd; [done|].
  destruct Hp as [?|[t Ht]]; [done|]. unfold bind, deref. by rewrite Ht.
Qed.

Lemma bind_ext {St A B} (c c' : M St A) (k k' : A → M St B) s :
  c s = c' s →
  (∀ a s1, c' s = Ok (a, s1) → k a s1 = k' a s1) →
  bind c k s = bind c' k' s.
Proof.
  intros Hc Hk. unfold bind. rewrite Hc.
  destruct (c' s) as [[a s1]| |]; [|done|done]. by apply Hk.
Qed.

Lemma externalLoop_debug_eq debug exts acc m :
  externalLoop_debug debug exts acc m = externalLoop exts acc m.
Proof.
  revert acc m. induction exts as [|e rest IH]; intros acc m; [done|].
  cbn. rewrite debug_absorb.
  2:{ intros _ Hnone. unfold bind, deref. by rewrite Hnone. }
  apply bind_ext; [done|]. intros te m0 _.
  apply bind_ext; [done|]. intros [] m1 _.
  apply bind_ext; [done|]. intros [] m2 _.
  apply bind_ext; [done|]. intros r1 m3 _. apply IH.
Qed.

Lemma checkFromDomain_debug_eq debug p m :
  checkFromDomain_debug debug p m = checkFromDomain p m.
Proof.
  unfold checkFromDomain_debug. rewrite debug_absorb; [done|].
  intros Hp Hnone. rewrite decide_False by done.
  unfold bind, deref. by rewrite Hnone.
Qed.

Lemma processInEdge_debug_eq debug g e d0 m :
  processInEdge_debug debug g e d0 m = processInEdge g e d0 m.
Proof.
  unfold processInEdge_debug, processInEdge.
  destruct (vertexAt g (fromp e)) as [fv|]; [|done].
  case_decide; [done|]. destruct (negb (domainMatters fv)); [done|].
  apply bind_ext; [apply checkFromDomain_debug_eq|]. intros [] m1 _.
  apply bind_ext; [|done]. destruct (kind fv); [done|].
  apply externalLoop_debug_eq.
Qed.

Lemma inEdgesLoop_debug_eq debug g es d0 m :
  inEdgesLoop_debug debug g es d0 m = inEdgesLoop g es d0 m.
Proof.
  revert d0 m. induction es as [|e es IH]; intros d0 m; [done|].
  cbn. apply bind_ext; [apply processInEdge_debug_eq|]. intros d1 m1 _. apply IH.
Qed.

Lemma workingDomain_debug_eq debug g v m :
  workingDomain_debug debug g v m = workingDomain g v m.
Proof.
  unfold workingDomain_debug, workingDomain. apply bind_ext.
  - unfold hybridSeed_debug, hybridSeed. case_decide; [done|].
    apply debug_absorb. intros _ Hnone. unfold bind, deref. by rewrite Hnone.
  - intros d0 m0 _. apply inEdgesLoop_debug_eq.
Qed.

Lemma setDomain_debug debug i v d dead s :
  d = m_deleteDomainp ∨ is_Some (heap (mem s) !! d) →
  (setDomain i v d dead ;;; liftMem (UINFO debug 5 (debugDomain d))) s
  = setDomain i v d dead s.
Proof.
  intros Hd. unfold bind, setDomain, modify, liftMem. cbn [mem].
  by rewrite debug_live.
Qed.

Lemma processVertex_debug_eq debug i s :
  mem_wf (mem s) →
  processVertex_debug debug i s = processVertex i s.
Proof.
  intros Hwf. unfold processVertex_debug, processVertex.
  rewrite !(bind_step _ _ _ s s) by done.
  destruct (vertexAt (m_graph s) i) as [v|]; [|done].
  case_decide; [|done]. apply bind_ext.
  { unfold liftMem. by rewrite workingDomain_debug_eq. }
  intros d s1 Hw. unfold liftMem in Hw.
  destruct (workingDomain (m_graph s) v (mem s)) as [[d0 m1]| |] eqn:Hwd;
    [|done|done].
  injection Hw as -> <-.
  case_decide; [apply setDomain_debug; by left|].
  apply bind_ext; [done|]. intros d' s2 Hs. unfold liftMem in Hs. cbn [mem] in Hs.
  destruct (simplifyDomain d m1) as [[d'' m2]| |] eqn:Hsd; [|done|done].
  injection Hs as -> <-. apply setDomain_debug. right. cbn [mem].
  assert (mem_wf m1) as Hwf1.
  { eapply mem_wf_le; [exact Hwf|]. by eapply workingDomain_canon_le. }
  apply simplifyDomain_Ok in Hsd as (_ & Hcan & _).
  destruct (Hcan Hwf1) as (t & Ht & _). eauto.
Qed.

Lemma forEach_debug_eq debug l s :
  mem_wf (mem s) →
  forEach (processVertex_debug debug) l s = forEach processVertex l s.
Proof.
  revert s. induction l as [|i l IH]; intros s Hwf; [done|].
  cbn. apply bind_ext; [by apply processVertex_debug_eq|].
  intros [] s1 H1. apply IH. by apply (processVertex_step _ _ _ H1 Hwf).
Qed.

(** X17. From a well-formed memory, processDomains with its debug output,
    at any debug level, does what processDomains does without: it returns
    the same state or fails in the same way. So debugDomain reads no tree
    that the pass would not read at that point: not the sentinel, not an
    unset domain that is not about to be read, and no intermediate tree
    that has been freed. *)
Theorem debug_output_changes_nothing (debug : nat) (s : State) :
  mem_wf (mem s) →
  processDomains_debug debug s = processDomains s.
Proof.
  intros Hwf. unfold processDomains_debug, processDomains.
  rewrite !(bind_step _ _ _ s s) by done. by apply forEach_debug_eq.
Qed.

(** ** The pass on a vertex with a single contributing input *)

Lemma contributesNothing_back h g h' g' es :
  Forall (edge_settled h g) es →
  h ⊆ h' → h' !! nullptr = None → h' !! m_deleteDomainp = None →
  graph_le g g' →
  Forall (contributesNothing g') es →
  Forall (contributesNothing g) es.
Proof.
  intros Hset Hsub Hnull Hdel Hg.
  induction Hset as [|e es He _ IH]; [done|].
  intros [Hc Hcs]%Forall_cons. constructor; [|auto].
  by apply (edge_stable _ _ _ _ _ He Hsub Hnull Hdel Hg).
Qed.

Lemma processInEdge_checked g e d0 m d m' fv t :
  processInEdge g e d0 m = Ok (d, m') →
  vertexAt g (fromp e) = Some fv →
  weight e ≠ 0 →
  domainMatters fv = true →
  domainp fv ≠ m_deleteDomainp →
  heap m !! domainp fv = Some t →
  hasCombo t = false ∧ backp t = true.
Proof.
  intros Hr Hfv Hw Hm Hnd Ht.
  rewrite (processInEdge_unfold _ _ _ _ _ Hfv Hw Hm) in Hr.
  apply bind_Ok in Hr as ([] & m0 & Hchk & _).
  apply checkFromDomain_Ok in Hchk as [_ [?|(t' & Ht' & Hc & Hb)]]; [done|].
  assert (t' = t) as -> by congruence. done.
Qed.

(** C2. Let processDomains return, from a well-formed memory, and take a
    vertex that had no domain and has no hybrid sensitivity, with exactly
    one contributing incoming edge in the graph that the pass returns: a
    non-cut edge from a vertex whose domain matters and addresses a tree,
    with no external domains, every other incoming edge being passed
    over. Then the pass has assigned to the vertex that very
    domain, the same object: the domain of the source is a global tree,
    which was there with the same content, is-multi flag included, when
    the loop reached the vertex; the iteration for the vertex left the
    memory and the recorded dead logic as they were; the vertex has the
    domain of its source after its iteration and at the end of the pass;
    and a tree that was at that address before the pass is that tree. *)
Theorem single_input_domain (s s' : State) (i : nat) (v fv : OrderEitherVertex)
    (pre post : list V3GraphEdge) (e : V3GraphEdge) (t : AstSenTree) :
  processDomains s = Ok (tt, s') →
  mem_wf (mem s) →
  vertexAt (m_graph s) i = Some v →
  domainp v = nullptr →
  noHybrid v →
  inEdges v = pre ++ e :: post →
  Forall (contributesNothing (m_graph s')) pre →
  Forall (contributesNothing (m_graph s')) post →
  vertexAt (m_graph s') (fromp e) = Some fv →
  weight e ≠ 0 →
  domainMatters fv = true →
  noExternal fv →
  heap (mem s') !! domainp fv = Some t →
  ∃ s1 s2,
    forEach processVertex (seq 0 i) s = Ok (tt, s1) ∧
    processVertex i s1 = Ok (tt, s2) ∧
    forEach processVertex (seq (S i) (length (m_graph s) - S i)) s2 = Ok (tt, s') ∧
    heap (mem s1) !! domainp fv = Some t ∧
    backp t = true ∧
    mem s2 = mem s1 ∧
    m_logicpsToDelete s2 = m_logicpsToDelete s1 ∧
    domainp <$> vertexAt (m_graph s2) i = Some (domainp fv) ∧
    domainp <$> vertexAt (m_graph s') i = Some (domainp fv) ∧
    (∀ t0, heap (mem s) !! domainp fv = Some t0 → t0 = t) ∧
    (isMulti t = false →
     isMulti <$> heap (mem s') !! domainp fv = Some false).
Proof.
  intros Hr Hwf Hv Hd Hhyb Hedges Hpre Hpost Hfv Hw Hm Hext Ht.
  pose proof (vertexAt_Some_lt _ _ _ Hv) as Hlt.
  change (forEach processVertex (seq 0 (length (m_graph s))) s = Ok (tt, s')) in Hr.
  rewrite (seq_split_at _ _ Hlt), forEach_app in Hr.
  apply bind_Ok in Hr as ([] & s1 & Hrun1 & Hr).
  apply forEach_Ok in Hr as (s2 & Hi & Hrun2).
  assert (vertexAt (m_graph s1) i = Some v) as Hv1.
  { rewrite (forEach_other _ _ _ _ Hrun1); [done|]. rewrite elem_of_seq. lia. }
  destruct (forEach_step _ _ _ Hrun1 Hwf) as (S01 & Hwf1 & _).
  destruct (processVertex_step _ _ _ Hi Hwf1) as (S12 & Hwf2 & _ & A4).
  destruct (A4 v Hv1 Hd) as (d' & Hv2 & Hdn & [_ Hes] & _).
  destruct (forEach_step _ _ _ Hrun2 Hwf2) as (S2' & Hwf' & _).
  pose proof (forEach_pass_le _ _ _ Hrun2) as (Hg2 & _).
  assert (graph_le (m_graph s1) (m_graph s')) as Hg.
  { eapply graph_le_trans; [|exact Hg2].
    by apply processVertex_pass_le in Hi as (? & _). }
  assert (heap (mem s1) ⊆ heap (mem s')) as Hsub by (by etrans).
  pose proof Hwf' as (Hnull' & Hdel' & _).
  assert (domainp fv ≠ m_deleteDomainp) as Hnd.
  { intros Heq. rewrite Heq in Ht. congruence. }
  rewrite Hedges in Hes. apply Forall_app in Hes as [Hes_pre Hes].
  apply Forall_cons in Hes as [He Hes_post].
  pose proof (contributesNothing_back _ _ _ _ _ Hes_pre Hsub Hnull' Hdel' Hg Hpre)
    as Hpre1.
  pose proof (contributesNothing_back _ _ _ _ _ Hes_post Hsub Hnull' Hdel' Hg Hpost)
    as Hpost1.
  destruct He as (fv1 & Hfv1 & Hcase).
  pose proof Hg as [_ Hgl]. pose proof (Hgl (fromp e)) as Hgf.
  rewrite Hfv1, Hfv in Hgf. destruct Hgf as (fv' & [= <-] & Hk & Hdm & _ & Hkeep).
  rewrite Hm in Hdm. symmetry in Hdm.
  destruct Hcase as [?|[?|[Hfd _]]]; [done|congruence|].
  assert (domainp fv1 ≠ nullptr) as Hnn.
  { destruct Hfd as [->|(t1 & Ht1 & _)]; [done|]. intros Heq.
    destruct Hwf1 as (H0 & _). rewrite Heq in Ht1. congruence. }
  pose proof (Hkeep Hnn) as Hsame. rewrite Hsame in *.
  destruct Hfd as [?|(t1 & Ht1 & Hb1)]; [done|].
  assert (t1 = t) as ->.
  { pose proof (lookup_weaken _ _ _ _ Ht1 Hsub) as Ht'. congruence. }
  assert (hasCombo t = false) as Hcombo.
  { assert (∃ d m1, workingDomain (m_graph s1) v (mem s1) = Ok (d, m1))
      as (d & m1 & Hwd).
    { apply processVertex_Ok in Hi
        as [[[?|(v0 & ? & ?)] _]|[(v0 & m1 & Hv0 & _ & Hwd & _)|
                                   (v0 & d & m1 & ? & ? & Hv0 & _ & Hwd & _)]];
        [congruence|congruence| |];
        assert (v0 = v) as -> by congruence; eauto. }
    unfold workingDomain in Hwd.
    apply bind_Ok in Hwd as (d0 & m0 & Hseed & Hloop).
    apply hybridSeed_Ok in Hseed as (-> & _).
    rewrite Hedges, inEdgesLoop_app in Hloop.
    apply bind_Ok in Hloop as (dA & mA & HA & Hloop).
    rewrite (inEdgesLoop_skip _ _ _ _ Hpre1) in HA. injection HA as <- <-.
    cbn in Hloop. apply bind_Ok in Hloop as (dB & mB & HB & _).
    by apply (processInEdge_checked _ _ _ _ _ _ _ _ HB Hfv1 Hw Hdm Hnd Ht1). }
  assert (noExternal fv1) as Hext1.
  { unfold noExternal in *. by rewrite <- Hk. }
  destruct (processVertex_single_input s1 i v fv1 pre post e t
              Hv1 Hd Hhyb Hedges Hpre1 Hpost1 Hfv1 Hw Hdm Hext1
              ltac:(by split) Ht1 Hb1 Hcombo)
    as (s2' & Hi' & Hdom2 & Hmem & _ & _ & Hrec).
  assert (s2' = s2) as -> by congruence.
  exists s1, s2. split; [done|]. split; [done|]. split; [done|].
  split; [done|]. split; [done|]. split; [done|]. split; [done|].
  split; [done|]. split; [|split].
  - pose proof (Hg2) as [_ Hgl2]. pose proof (Hgl2 i) as Hgi.
    rewrite Hv2 in Hgi. destruct Hgi as (v' & Hv' & _).
    rewrite Hv'. f_equal.
    rewrite (graph_le_keeps _ _ _ _ _ Hg2 Hv2 Hv' Hdn).
    rewrite Hv2 in Hdom2. by injection Hdom2.
  - intros t0 Ht0.
    pose proof (lookup_weaken _ _ _ _ Ht0 S01) as Ht01. congruence.
  - intros Hmulti. by rewrite Ht, <- Hmulti.
Qed.
End Pass.

(** * The scenarios, run *)

Lemma exMem_wf : mem_wf exMem.
Proof.
  split; [reflexivity|]. split; [reflexivity|].
  intros q Hq. unfold exMem in Hq. cbn [m_finder] in Hq.
  repeat (apply elem_of_cons in Hq as [->|Hq]);
    [exists posedge_clk | exists negedge_rst | exists combo_en | by apply elem_of_nil in Hq];
    split; reflexivity.
Qed.

Lemma exState_wf : state_wf exState.
Proof.
  split; [apply exMem_wf|]. intros j v Hv.
  destruct j as [|[|[|[|[|[|[|j]]]]]]]; vm_compute in Hv;
    try discriminate Hv; injection Hv as <-; auto.
  - right. right. exists posedge_clk. split; reflexivity.
  - right. right. exists negedge_rst. split; reflexivity.
Qed.


Lemma dead_logic_removed_witness :
  ∃ s2 s1,
    processDomains constifySet exExternal (resetState exState) = Ok (tt, s1) ∧
    V3OrderProcessDomains constifySet exExternal exHex exName exItem exTag exDebugFilename exOpens false exState
    = Ok (None, s2) ∧
    m_logicpsToDelete s1 = [4; 5]%nat ∧
    vertexAt (m_graph s2) 4 = None ∧ vertexAt (m_graph s2) 5 = None ∧
    ast s2 = {[50; 51]}.
Proof.
  destruct (dead_logic_removed constifySet exExternal exHex exName exItem exTag exDebugFilename exOpens)
    as (_ & _ & Hctor & _ & Htotal).
  destruct (Htotal exState _ ltac:(vm_compute; reflexivity)) as (s2 & Hrun).
  destruct (Hctor false exState None s2 Hrun) as (s1 & Hpass & _).
  exists s2, s1. split; [exact Hpass|]. split; [exact Hrun|].
  revert Hpass Hrun. vm_compute. intros [= <-] [= <-]. repeat split.
Defined.

Lemma single_input_domain_witness :
  ∃ s', processDomains constifySet exExternal exState = Ok (tt, s') ∧
        domainp <$> vertexAt (m_graph s') 2 = Some 8 ∧
        heap (mem s') !! 8 = Some posedge_clk ∧
        isMulti <$> heap (mem s') !! 8 = Some false.
Proof.
  eassert (processDomains constifySet exExternal exState = Ok (tt, _)) as Hrun
    by (vm_compute; reflexivity).
  lazymatch type of Hrun with
  | _ = Ok (_, ?s1) =>
      assert (vertexAt (m_graph s1) 0
              = Some (mkVertex (OrderVarVertex VarStd 30) true 8 [])) as Hfv
        by (vm_compute; reflexivity);
      assert (heap (mem s1) !! 8 = Some posedge_clk) as Ht
        by (vm_compute; reflexivity)
  end.
  destruct (single_input_domain constifySet exExternal exState _ 2
              (mkVertex (OrderLogicVertex 50 nullptr) true nullptr [mkEdge 0 1])
              (mkVertex (OrderVarVertex VarStd 30) true 8 [])
              [] [] (mkEdge 0 1) posedge_clk
              Hrun exMem_wf eq_refl eq_refl eq_refl eq_refl
              (Forall_nil_2 _) (Forall_nil_2 _) Hfv
              ltac:(discriminate) eq_refl eq_refl Ht)
    as (s1 & s2 & _ & _ & _ & _ & _ & _ & _ & _ & Hdom & _ & Hmulti).
  eexists. split; [exact Hrun|]. split; [exact Hdom|]. split; [exact Ht|].
  apply Hmulti. reflexivity.
Defined.



Lemma cut_edge_no_influence_witness :
  weight (mkEdge 1 0) = 0 ∧
  processDomains constifySet exExternal (withEdge 2 0 (mkEdge 1 0) exState)
  = mapState (withEdge 2 0 (mkEdge 1 0))
             (processDomains constifySet exExternal exState).
Proof.
  split; [reflexivity|].
  apply (cut_edge_no_influence constifySet exExternal exState 2 0 (mkEdge 1 0));
    [reflexivity | eexists; reflexivity].
Defined.

Lemma domain_written_once_witness :
  ∃ s', processDomains constifySet exExternal exState = Ok (tt, s') ∧
        (writes constifySet exExternal 3 (seq 0 7) exState ≤ 1)%nat ∧
        vertexAt (m_graph s') 0 = vertexAt exGraph 0.
Proof.
  eassert (processDomains constifySet exExternal exState = Ok (tt, _)) as Hrun
    by (vm_compute; reflexivity).
  destruct (domain_written_once constifySet exExternal exState _ exState_wf Hrun)
    as (Hw & _ & Hkeep & _).
  eexists. split; [exact Hrun|]. split; [apply (Hw 3%nat)|].
  apply (Hkeep 0%nat); [reflexivity|discriminate].
Defined.

Lemma fatal_on_combinational_witness :
  processDomains constifySet exExternal exComboState
  = Fatal "There should be no need for combinational domains" ∧
  processDomains constifySet exExternalCombo exExtState
  = Fatal "There should be no need for combinational domains".
Proof.
  split.
  - apply (proj1 (fatal_on_combinational constifySet exExternal exHex exName exItem exTag exDebugFilename exOpens
                    exComboState exComboState 1
                    (mkVertex (OrderLogicVertex 50 nullptr) true nullptr [mkEdge 0 1])
                    (mkVertex (OrderVarVertex VarStd 32) true 24 [])
                    [] [] (mkEdge 0 1) nullptr exMem
                    ltac:(vm_compute; lia) eq_refl eq_refl eq_refl eq_refl eq_refl
                    eq_refl ltac:(discriminate) eq_refl) combo_en);
      [discriminate | reflexivity | reflexivity].
  - apply (proj1 (proj2 (fatal_on_combinational constifySet exExternalCombo
                    exHex exName exItem exTag exDebugFilename exOpens
                    exExtState exExtState 1
                    (mkVertex (OrderLogicVertex 50 nullptr) true nullptr [mkEdge 0 1])
                    (mkVertex (OrderVarVertex VarStd 32) true 8 [])
                    [] [] (mkEdge 0 1) nullptr exMem
                    ltac:(vm_compute; lia) eq_refl eq_refl eq_refl eq_refl eq_refl
                    eq_refl ltac:(discriminate) eq_refl))
                 VarStd 32 [] 24 [] 8 exMem combo_en);
      reflexivity.
Defined.

Lemma report_sorted_witness :
  ∃ lines,
    processEdgeReport exHex exName exItem exTag exDebugFilename exOpens exDoneState = Ok (lines, exDoneState) ∧
    length lines = 3%nat ∧
    StronglySorted String.le lines ∧
    StronglySorted (strict String.le) lines.
Proof.
  eassert (processEdgeReport exHex exName exItem exTag exDebugFilename exOpens exDoneState = Ok (_, _)) as Hrun
    by (vm_compute; reflexivity).
  destruct (report_sorted exHex exName exItem exTag exDebugFilename exOpens _ _ _ Hrun)
    as (_ & Hsorted & Hstrict & _).
  eexists. split; [exact Hrun|]. split; [reflexivity|]. split; [exact Hsorted|].
  apply Hstrict. refine (bool_decide_unpack _ _). vm_compute. exact I.
Defined.

Lemma combineDomains_sentinel_only_witness :
  realDomain 8 ∧
  ∃ r m', inEdgesLoop exExternal exGraph [mkEdge 1 1] 8 exMem = Ok (r, m') ∧
          realDomain r.
Proof.
  assert (realDomain 8) as Hreal by (split; discriminate).
  split; [exact Hreal|].
  eassert (inEdgesLoop exExternal exGraph [mkEdge 1 1] 8 exMem = Ok (_, _)) as Hrun
    by (vm_compute; reflexivity).
  eexists _, _. split; [exact Hrun|].
  destruct (combineDomains_sentinel_only exExternal) as (_ & _ & _ & Hloop).
  exact (Hloop _ _ _ _ _ _ Hreal Hrun).
Defined.

Lemma variables_not_deleted_witness :
  ∃ lines s2,
    V3OrderProcessDomains constifySet exExternal exHex exName exItem exTag exDebugFilename exOpens true exState
    = Ok (Some lines, s2) ∧
    is_Some (vertexAt (m_graph s2) 6) ∧
    domainp <$> vertexAt (m_graph s2) 6 = Some m_deleteDomainp ∧
    linePrefix exHex exName VarPost 32 +:+ "DELETED" ∈ lines.
Proof.
  eassert (V3OrderProcessDomains constifySet exExternal exHex exName exItem exTag exDebugFilename exOpens true
             exState = Ok (Some _, _)) as Hrun
    by (vm_compute; reflexivity).
  destruct (variables_not_deleted constifySet exExternal exHex exName exItem exTag exDebugFilename exOpens
              _ _ _ _ Hrun) as (s1 & Hpass & _ & _ & Hrep).
  eexists _, _. split; [exact Hrun|]. split; [eexists; reflexivity|].
  split; [reflexivity|].
  revert Hpass. vm_compute processDomains. intros [= <-].
  apply (Hrep _ 6%nat _ VarPost 32 eq_refl eq_refl eq_refl eq_refl).
Defined.

(** ** Where the spec says more than the code does *)


(** The report of a graph that has the same variable vertex twice has the
    same line twice: its lines are sorted, not strictly. *)
Lemma report_sorted_counterexample :
  ∃ line,
    processEdgeReport exHex exName exItem exTag exDebugFilename exOpens exDupState
    = Ok ([line; line], exDupState) ∧
    ¬ StronglySorted (strict String.le) [line; line].
Proof.
  eexists. split; [vm_compute; reflexivity|].
  intros Hs. apply StronglySorted_inv in Hs as [_ Hall].
  apply Forall_cons in Hall as [[Hle Hnle] _]. by apply Hnle.
Qed.

(** * The further properties, on the scenarios *)

Lemma exMem_all_canonical : all_canonical (heap exMem).
Proof.
  intros p t Hp. unfold exMem in Hp. cbn [heap] in Hp.
  repeat (apply lookup_insert_Some in Hp as [[_ <-]|[_ Hp]]; [reflexivity|]).
  by rewrite lookup_empty in Hp.
Qed.

Lemma exMergedMem_wf : mem_wf exMergedMem.
Proof.
  split; [reflexivity|]. split; [reflexivity|].
  intros q Hq. unfold exMergedMem in Hq. cbn [m_finder] in Hq.
  repeat (apply elem_of_cons in Hq as [->|Hq]);
    [exists posedge_clk | exists negedge_rst | exists combo_en | by apply elem_of_nil in Hq];
    split; reflexivity.
Qed.

Lemma exGraph_closed : edges_closed exGraph.
Proof.
  intros j v e Hv He.
  destruct j as [|[|[|[|[|[|[|j]]]]]]]; vm_compute in Hv;
    try discriminate Hv; injection Hv as <-; cbn [inEdges] in He;
    repeat (apply elem_of_cons in He as [->|He]; [eexists; reflexivity|]);
    by apply elem_of_nil in He.
Qed.

Lemma constifySet_keeps : simplifier_keeps_good constifySet.
Proof.
  intros l Hne Hfree.
  assert (∀ x, x ∈ constifySet l ↔ x ∈ l) as Hel.
  { intros x. unfold constifySet. by rewrite elem_of_elements, elem_of_list_to_set. }
  split.
  - destruct l as [|x l]; [done|]. intros Hnil.
    assert (x ∈ constifySet (x :: l)) as Hx by (apply Hel, elem_of_cons; by left).
    rewrite Hnil in Hx. by apply elem_of_nil in Hx.
  - intros x Hx. by apply Hfree, Hel.
Qed.

Lemma exMem_items : all_items (heap exMem).
Proof.
  intros p t Hp. unfold exMem in Hp. cbn [heap] in Hp.
  repeat (apply lookup_insert_Some in Hp as [[_ <-]|[_ Hp]]; [discriminate|]).
  by rewrite lookup_empty in Hp.
Qed.

Lemma constifySet_keeps_items : simplifier_keeps_items constifySet.
Proof.
  intros l Hne. destruct l as [|x l]; [done|]. intros Hnil.
  assert (x ∈ constifySet (x :: l)) as Hx.
  { unfold constifySet. apply elem_of_elements, elem_of_list_to_set.
    apply elem_of_cons. by left. }
  rewrite Hnil in Hx. by apply elem_of_nil in Hx.
Qed.

Lemma posedge_clk_good : goodDomain (heap exMem) 8.
Proof. exists posedge_clk. repeat split. discriminate. Qed.

Lemma negedge_rst_good : goodDomain (heap exMem) 16.
Proof. exists negedge_rst. repeat split. discriminate. Qed.

Lemma exState_good : domains_good (heap (mem exState)) (m_graph exState).
Proof.
  intros j v Hv.
  destruct j as [|[|[|[|[|[|[|j]]]]]]]; vm_compute in Hv;
    try discriminate Hv; injection Hv as <-; cbn [domainp]; auto.
  - right. right. apply posedge_clk_good.
  - right. right. apply negedge_rst_good.
Qed.

Lemma exState_ordered :
  inputs_ordered exExternal (heap (mem exState)) (m_graph exState).
Proof.
  intros i v Hv Hd.
  destruct i as [|[|[|[|[|[|[|i]]]]]]]; vm_compute in Hv;
    try discriminate Hv; injection Hv as <-; try discriminate Hd;
    (split; [by left|]); cbn [inEdges];
    repeat (constructor; [eexists; split; [reflexivity|]|]);
    try apply Forall_nil_2.
  - right. right. split; [left; discriminate|apply Forall_nil_2].
  - right. right. split; [left; discriminate|apply Forall_nil_2].
  - right. right. split; [left; discriminate|apply Forall_nil_2].
  - by left.
  - right. right. split; [right; cbn; lia|exact I].
Qed.

Lemma combineDomains_effect_witness :
  ∃ r m', combineDomains 8 16 exMem = Ok (r, m') ∧
          (∀ x, x ∈ itemsAt (heap m') r ↔
                x ∈ itemsAt (heap exMem) 8 ∨ x ∈ itemsAt (heap exMem) 16) ∧
          m_finder m' = m_finder exMem.
Proof.
  eassert (combineDomains 8 16 exMem = Ok (_, _)) as Hrun
    by (vm_compute; reflexivity).
  destruct (combineDomains_effect _ _ _ _ _ Hrun eq_refl
              ltac:(eexists; reflexivity)) as (H1 & _ & _ & _ & _ & H6).
  eexists _, _. split; [exact Hrun|]. split; [exact H1|exact H6].
Defined.

Lemma working_domain_items_witness :
  ∃ d m',
    workingDomain exExternal exGraph
      (mkVertex (OrderLogicVertex 51 nullptr) true nullptr [mkEdge 0 1; mkEdge 1 1])
      exMem = Ok (d, m') ∧
    (∀ x, x ∈ itemsAt (heap m') d ↔
          x ∈ [mkSenItem ET_POSEDGE 100; mkSenItem ET_NEGEDGE 101]) ∧
    heap exMem ⊆ heap m'.
Proof.
  eassert (workingDomain exExternal exGraph
             (mkVertex (OrderLogicVertex 51 nullptr) true nullptr
                       [mkEdge 0 1; mkEdge 1 1])
             exMem = Ok (_, _)) as Hrun
    by (vm_compute; reflexivity).
  destruct (working_domain_items exExternal _ _ _ _ _ Hrun exMem_wf)
    as (H1 & _ & H3 & _).
  eexists _, _. split; [exact Hrun|]. split; [exact H1|exact H3].
Defined.

Lemma pass_only_adds_global_trees_witness :
  ∃ s', processDomains constifySet exExternal exState = Ok (tt, s') ∧
        heap exMem ⊆ heap (mem s') ∧
        all_canonical (heap (mem s')).
Proof.
  eassert (processDomains constifySet exExternal exState = Ok (tt, _)) as Hrun
    by (vm_compute; reflexivity).
  destruct (pass_only_adds_global_trees constifySet exExternal _ _ Hrun exMem_wf)
    as (H1 & _ & H3 & _).
  eexists. split; [exact Hrun|]. split; [exact H1|].
  apply H3, exMem_all_canonical.
Defined.

Lemma dead_iff_nothing_triggers_witness :
  ∃ s' v', processDomains constifySet exExternal exState = Ok (tt, s') ∧
           vertexAt (m_graph s') 4 = Some v' ∧
           domainp v' = m_deleteDomainp.
Proof.
  eassert (processDomains constifySet exExternal exState = Ok (tt, _)) as Hrun
    by (vm_compute; reflexivity).
  destruct (dead_iff_nothing_triggers constifySet exExternal exState _ 4
              (mkVertex (OrderLogicVertex 52 nullptr) true nullptr [])
              Hrun exMem_wf eq_refl eq_refl)
    as (v' & Hv' & Hk & Hin & Hdead).
  eexists _, v'. split; [exact Hrun|]. split; [exact Hv'|].
  apply Hdead. split.
  - unfold noHybrid. rewrite Hk. reflexivity.
  - rewrite Hin. apply Forall_nil_2.
Defined.

Lemma assigned_domain_items_witness :
  ∃ s' v' t l,
    processDomains constifySet exExternal exState = Ok (tt, s') ∧
    vertexAt (m_graph s') 3 = Some v' ∧
    heap (mem s') !! domainp v' = Some t ∧ backp t = true ∧
    (∀ x, x ∈ l ↔ x ∈ inputItems exExternal (heap (mem s')) (m_graph s') v') ∧
    (sensesp t = l ∨ sensesp t = constifySet l).
Proof.
  eassert (processDomains constifySet exExternal exState = Ok (tt, _)) as Hrun
    by (vm_compute; reflexivity).
  lazymatch type of Hrun with
  | _ = Ok (_, ?s1) =>
      eassert (vertexAt (m_graph s1) 3 = Some _) as Hv' by (vm_compute; reflexivity)
  end.
  destruct (assigned_domain_items constifySet exExternal exState _ 3
              (mkVertex (OrderLogicVertex 51 nullptr) true nullptr
                        [mkEdge 0 1; mkEdge 1 1])
              _ Hrun exMem_wf eq_refl eq_refl Hv' ltac:(vm_compute; discriminate))
    as (_ & t & l & Ht & Hb & Hl & Hcase).
  eexists _, _, t, l. split; [exact Hrun|]. split; [exact Hv'|].
  split; [exact Ht|]. split; [exact Hb|]. split; [exact Hl|exact Hcase].
Defined.

Lemma deleted_exactly_dead_logic_witness :
  ∃ s2, V3OrderProcessDomains constifySet exExternal exHex exName exItem exTag exDebugFilename exOpens false exState
        = Ok (None, s2) ∧
        vertexAt (m_graph s2) 4 = None.
Proof.
  eassert (V3OrderProcessDomains constifySet exExternal exHex exName exItem exTag exDebugFilename exOpens false
             exState = Ok (None, _)) as Hrun
    by (vm_compute; reflexivity).
  destruct (deleted_exactly_dead_logic constifySet exExternal exHex exName exItem exTag exDebugFilename exOpens
              false exState _ None 4
              (mkVertex (OrderLogicVertex 52 nullptr) true nullptr [])
              Hrun exMem_wf eq_refl eq_refl)
    as (s1 & _ & Hiff).
  eexists. split; [exact Hrun|]. apply Hiff.
  split; [reflexivity|]. split; [reflexivity|apply Forall_nil_2].
Defined.

Lemma pass_idempotent_witness :
  ∃ s', processDomains constifySet exExternal exState = Ok (tt, s') ∧
        processDomains constifySet exExternal s' = Ok (tt, s').
Proof.
  eassert (processDomains constifySet exExternal exState = Ok (tt, _)) as Hrun
    by (vm_compute; reflexivity).
  eexists. split; [exact Hrun|].
  exact (pass_idempotent constifySet exExternal _ _ Hrun exMem_wf).
Defined.

Lemma constructor_keeps_edges_closed_witness :
  ∃ r s2, V3OrderProcessDomains constifySet exExternal exHex exName exItem exTag exDebugFilename exOpens true exState
          = Ok (r, s2) ∧
          edges_closed (m_graph s2).
Proof.
  eassert (V3OrderProcessDomains constifySet exExternal exHex exName exItem exTag exDebugFilename exOpens true
             exState = Ok (_, _)) as Hrun
    by (vm_compute; reflexivity).
  eexists _, _. split; [exact Hrun|].
  exact (constructor_keeps_edges_closed constifySet exExternal exHex exName exItem exTag exDebugFilename exOpens
           _ _ _ _ Hrun exGraph_closed).
Defined.

Lemma simplifyDomain_effect_witness :
  ∃ r m', simplifyDomain constifySet 25 exMergedMem = Ok (r, m') ∧
          heap m' !! 25 = None ∧
          r ∈ m_finder m' ∧
          ∃ tr, heap m' !! r = Some tr ∧ backp tr = true.
Proof.
  eassert (simplifyDomain constifySet 25 exMergedMem = Ok (_, _)) as Hrun
    by (vm_compute; reflexivity).
  destruct (simplifyDomain_effect constifySet _ _ _ _ Hrun exMergedMem_wf)
    as (t & Ht & [(Hb & _)|(_ & (tr & Htr & Hbr & _) & Hfreed & _ & _ & Hfin)]).
  { vm_compute in Ht. injection Ht as <-. discriminate Hb. }
  eexists _, _. split; [exact Hrun|]. split; [exact Hfreed|].
  split; [exact Hfin|]. exists tr. split; [exact Htr|exact Hbr].
Defined.

Lemma fatal_only_on_input_witness :
  processDomains constifySet exExternal exComboState
  = Fatal "There should be no need for combinational domains" ∧
  inputAssertion "There should be no need for combinational domains" ∧
  ∃ s', processDomains constifySet exExternal exState = Ok (tt, s') ∧
        all_items (heap (mem s')).
Proof.
  assert (processDomains constifySet exExternal exComboState
          = Fatal "There should be no need for combinational domains") as Hrun
    by (vm_compute; reflexivity).
  split; [exact Hrun|]. split.
  - exact (proj1 (fatal_only_on_input constifySet exExternal exHex exName exItem
                    exTag exDebugFilename exOpens
                    false exComboState _ exMem_wf exMem_items
                    constifySet_keeps_items) Hrun).
  - eassert (processDomains constifySet exExternal exState = Ok (tt, _)) as Hok
      by (vm_compute; reflexivity).
    eexists. split; [exact Hok|].
    exact (proj2 (proj2 (fatal_only_on_input constifySet exExternal exHex exName
                           exItem exTag exDebugFilename exOpens
                           false exState "" exMem_wf exMem_items
                           constifySet_keeps_items)) _ Hok).
Defined.

Lemma fatal_on_missing_backp_witness :
  processDomains constifySet exExternal exHybridState
  = Fatal "Hybrid senTree should have backp" ∧
  processDomains constifySet exExternal exDriverState
  = Fatal "Driver SenTree should have backp".
Proof.
  split.
  - apply (proj1 (fatal_on_missing_backp constifySet exExternal
                    exHybridState exHybridState 0
                    (mkVertex (OrderLogicVertex 50 40) true nullptr [])
                    ltac:(vm_compute; lia) eq_refl eq_refl eq_refl) loose_tree);
      [discriminate | reflexivity | reflexivity].
  - apply (proj2 (fatal_on_missing_backp constifySet exExternal
                    exDriverState exDriverState 1
                    (mkVertex (OrderLogicVertex 50 nullptr) true nullptr [mkEdge 0 1])
                    ltac:(vm_compute; lia) eq_refl eq_refl eq_refl)
                 [] (mkEdge 0 1) [] nullptr exLooseMem
                 (mkVertex (OrderVarVertex VarStd 30) true 40 []) loose_tree);
      [reflexivity | reflexivity | reflexivity | discriminate | reflexivity
      | discriminate | reflexivity | reflexivity | reflexivity].
Defined.

Lemma combineDomains_returns_witness :
  ∃ r m', combineDomains 8 16 exMem = Ok (r, m').
Proof.
  apply (combineDomains_returns 8 16 exMem negedge_rst);
    [reflexivity | right; eexists; reflexivity | reflexivity | discriminate].
Defined.

Lemma vertex_iteration_returns_witness :
  ∃ s', processVertex constifySet exExternal 3 exState = Ok (tt, s').
Proof.
  apply (vertex_iteration_returns constifySet exExternal 3 exState exMem_wf).
  intros v Hv _. vm_compute in Hv. injection Hv as <-.
  split; [left; reflexivity|]. cbn [inEdges].
  constructor; [|constructor; [|constructor]].
  - eexists. split; [reflexivity|]. right. right.
    split; [right; apply posedge_clk_good|apply Forall_nil_2].
  - eexists. split; [reflexivity|]. right. right.
    split; [right; apply negedge_rst_good|apply Forall_nil_2].
Defined.

Lemma constructor_returns_on_ordered_graph_witness :
  (∃ s', processDomains constifySet exExternal exState = Ok (tt, s') ∧
         domains_good (heap (mem s')) (m_graph s')) ∧
  (∃ r s2, V3OrderProcessDomains constifySet exExternal exHex exName exItem
             exTag exDebugFilename exOpens true exState = Ok (r, s2)).
Proof.
  destruct (constructor_returns_on_ordered_graph constifySet exExternal
              exHex exName exItem exTag exDebugFilename exOpens true exState
              constifySet_keeps exMem_wf exState_good exState_ordered)
    as [Hpass Hctor].
  split; [exact Hpass|]. apply Hctor. reflexivity.
Defined.

Lemma report_one_line_per_variable_witness :
  (∃ lines s2,
     V3OrderProcessDomains constifySet exExternal exHex exName exItem
       exTag exDebugFilename exOpens true exState
     = Ok (Some lines, s2) ∧
     length lines = 3%nat) ∧
  V3OrderProcessDomains constifySet exExternal exHex exName exItem
    exTag exDebugFilename exFails true exState
  = Fatal "Can't write file: obj_dir/Vtop_order_order_edges.txt".
Proof.
  eassert (processDomains constifySet exExternal (resetState exState) = Ok (tt, _))
    as Hrun by (vm_compute; reflexivity).
  split.
  - apply (report_one_line_per_variable constifySet exExternal exHex exName exItem
             exTag exDebugFilename exOpens exState _ Hrun exState_wf).
    reflexivity.
  - apply (report_one_line_per_variable constifySet exExternal exHex exName exItem
             exTag exDebugFilename exFails exState _ Hrun exState_wf).
    reflexivity.
Defined.

Lemma constructor_domain_items_witness :
  ∃ s2 v2 t l,
    V3OrderProcessDomains constifySet exExternal exHex exName exItem exTag exDebugFilename exOpens false exState
    = Ok (None, s2) ∧
    vertexAt (m_graph s2) 3 = Some v2 ∧
    heap (mem s2) !! domainp v2 = Some t ∧ backp t = true ∧
    (∀ x, x ∈ l ↔ x ∈ inputItems exExternal (heap (mem s2)) (m_graph s2) v2) ∧
    (sensesp t = l ∨ sensesp t = constifySet l).
Proof.
  eassert (V3OrderProcessDomains constifySet exExternal exHex exName exItem exTag exDebugFilename exOpens false
             exState = Ok (None, _)) as Hrun
    by (vm_compute; reflexivity).
  lazymatch type of Hrun with
  | _ = Ok (_, ?s2) =>
      eassert (vertexAt (m_graph s2) 3 = Some _) as Hv2 by (vm_compute; reflexivity)
  end.
  destruct (constructor_domain_items constifySet exExternal exHex exName exItem exTag exDebugFilename exOpens
              false exState _ None 3
              (mkVertex (OrderLogicVertex 51 nullptr) true nullptr
                        [mkEdge 0 1; mkEdge 1 1])
              _ Hrun exMem_wf eq_refl eq_refl Hv2 ltac:(vm_compute; discriminate))
    as (t & l & Ht & Hb & Hl & Hcase).
  eexists _, _, t, l. split; [exact Hrun|]. split; [exact Hv2|].
  split; [exact Ht|]. split; [exact Hb|]. split; [exact Hl|exact Hcase].
Defined.

Lemma debug_output_changes_nothing_witness :
  processDomains_debug constifySet exExternal exHex 9 exState
  = processDomains constifySet exExternal exState.
Proof.
  exact (debug_output_changes_nothing constifySet exExternal exHex 9 exState exMem_wf).
Defined.
